(** * A shallow embedding of [vip.py] (class [EmaktabAutomation])

    The script drives a browser through Selenium, asks an OCR service to
    read a captcha and paces itself with sleeps.  Everything outside the
    Python process (browser driver, HTTP, file system, clock, random
    generator) is an _oracle_ over an abstract world [W]; the Python code
    itself is embedded as computations in a monad that threads the object's
    fields and the world, can raise a Python exception, and records every
    external interaction and every log line in a trace. *)

From Stdlib Require Import String Ascii List Bool Arith QArith Lia DecimalString.
From stdpp Require Import base option list gmap strings.

Local Open Scope string_scope.
Local Open Scope nat_scope.

(** ** Python strings

    A Python [str] is modelled by a Rocq [string]; its characters are the
    code points below 256.  The predicates below are Python's on that
    range. *)
Module PyStr.

(** [str.isspace] for one character: TAB, LF, VT, FF, CR, FS, GS, RS, US,
    SPACE, NEL (0x85) and NBSP (0xA0). *)
Definition isspace (c : ascii) : bool :=
  let n := nat_of_ascii c in
  ((9 <=? n) && (n <=? 13)) || ((28 <=? n) && (n <=? 32))
  || (n =? 133) || (n =? 160).

(** [str.isdigit] for one character: '0'..'9' and the superscript digits
    U+00B2, U+00B3, U+00B9. *)
Definition isdigit (c : ascii) : bool :=
  let n := nat_of_ascii c in
  ((48 <=? n) && (n <=? 57)) || (n =? 178) || (n =? 179) || (n =? 185).

(** [str.lower] for one character: A..Z and the Latin-1 capitals
    U+00C0..U+00DE except the multiplication sign U+00D7. *)
Definition lower_char (c : ascii) : ascii :=
  let n := nat_of_ascii c in
  if ((65 <=? n) && (n <=? 90))
     || ((192 <=? n) && (n <=? 222) && negb (n =? 215))
  then ascii_of_nat (n + 32) else c.

Fixpoint lower (s : string) : string :=
  match s with
  | EmptyString => EmptyString
  | String c s' => String (lower_char c) (lower s')
  end.

Fixpoint lstrip (s : string) : string :=
  match s with
  | EmptyString => EmptyString
  | String c s' => if isspace c then lstrip s' else s
  end.

Fixpoint rstrip (s : string) : string :=
  match s with
  | EmptyString => EmptyString
  | String c s' =>
      match rstrip s' with
      | EmptyString => if isspace c then EmptyString else String c EmptyString
      | r => String c r
      end
  end.

(** [s.strip()] *)
Definition strip (s : string) : string := lstrip (rstrip s).

(** Truth value of a string: non-empty. *)
Definition truthy (s : string) : bool :=
  match s with EmptyString => false | _ => true end.

(** [c in s] for a one-character needle. *)
Fixpoint contains_char (c : ascii) (s : string) : bool :=
  match s with
  | EmptyString => false
  | String d s' => if Ascii.eqb d c then true else contains_char c s'
  end.

(** [needle in hay] *)
Definition contains (needle hay : string) : bool :=
  match String.index 0 needle hay with Some _ => true | None => false end.

(** [s.split(c, 1)]: at most one split, at the first occurrence. *)
Fixpoint split1 (c : ascii) (s : string) : list string :=
  match s with
  | EmptyString => [EmptyString]
  | String d s' =>
      if Ascii.eqb d c then [EmptyString; s']
      else match split1 c s' with
           | a :: rest => String d a :: rest
           | [] => []
           end
  end.

(** [''.join(filter(pred, s))] *)
Fixpoint filter_chars (p : ascii -> bool) (s : string) : string :=
  match s with
  | EmptyString => EmptyString
  | String c s' => if p c then String c (filter_chars p s') else filter_chars p s'
  end.

Fixpoint all_chars (p : ascii -> bool) (s : string) : bool :=
  match s with
  | EmptyString => true
  | String c s' => p c && all_chars p s'
  end.

Fixpoint chars (s : string) : list ascii :=
  match s with
  | EmptyString => []
  | String c s' => c :: chars s'
  end.

End PyStr.

(** ** Python exceptions

    Only the classes the script distinguishes are kept apart; [exn_str] is
    [str(e)].  [TimeoutException], [NoSuchElementException] and
    [InvalidSessionIdException] derive from [WebDriverException];
    [requests.RequestException] derives from [IOError].  All of them derive
    from [Exception]; exceptions outside [Exception] (keyboard interrupt,
    interpreter exit) are not modelled. *)
Inductive ExnClass :=
| TimeoutException
| NoSuchElementException
| InvalidSessionIdException
| WebDriverException
| RequestException
| IOError
| KeyError
| IndexError
| TypeError
| AttributeError
| ValueError
| OtherException.

Record Exn := mkExn { exn_class : ExnClass; exn_str : string }.

Definition is_WebDriverException (e : Exn) : bool :=
  match exn_class e with
  | TimeoutException | NoSuchElementException
  | InvalidSessionIdException | WebDriverException => true
  | _ => false
  end.

Definition is_TimeoutException (e : Exn) : bool :=
  match exn_class e with TimeoutException => true | _ => false end.


Definition is_RequestException (e : Exn) : bool :=
  match exn_class e with RequestException => true | _ => false end.

Definition is_IOError (e : Exn) : bool :=
  match exn_class e with IOError | RequestException => true | _ => false end.

(** [except Exception] and a bare [except:] *)
Definition is_Exception (e : Exn) : bool := true.

Inductive Result (A : Type) : Type :=
| Ok (a : A)
| Raise (e : Exn).
Arguments Ok {A} a.
Arguments Raise {A} e.

Definition is_ok {A} (r : Result A) : bool :=
  match r with Ok _ => true | Raise _ => false end.

(** ** Values decoded from a JSON body ([response.json()]) *)
#[warnings="-register-all"]
Inductive pyval :=
| PNone
| PBool (b : bool)
| PNum (q : Q)
| PStr (s : string)
| PList (l : list pyval)
| PDict (d : list (string * pyval)).

Module Py.

(** A decoded JSON object lists its items; a key is looked up at its
    first entry. *)
Fixpoint assoc (k : string) (d : list (string * pyval)) : option pyval :=
  match d with
  | [] => None
  | (k', v) :: d' => if String.eqb k' k then Some v else assoc k d'
  end.

(** [bool(v)] *)
Definition truthy (v : pyval) : bool :=
  match v with
  | PNone => false
  | PBool b => b
  | PNum q => negb (Qeq_bool q 0)
  | PStr s => PyStr.truthy s
  | PList l => match l with [] => false | _ => true end
  | PDict d => match d with [] => false | _ => true end
  end.

(** [v[k]] for a string key *)
Definition getitem_str (v : pyval) (k : string) : Result pyval :=
  match v with
  | PDict d =>
      match assoc k d with
      | Some x => Ok x
      | None => Raise (mkExn KeyError k)
      end
  | PList _ => Raise (mkExn TypeError "list indices must be integers or slices, not str")
  | PStr _ => Raise (mkExn TypeError "string indices must be integers")
  | _ => Raise (mkExn TypeError "object is not subscriptable")
  end.

(** [v.get(k, default)], called on a dict only *)
Definition get_default (v : pyval) (k : string) (dflt : pyval) : Result pyval :=
  match v with
  | PDict d => Ok (match assoc k d with Some x => x | None => dflt end)
  | _ => Raise (mkExn AttributeError "object has no attribute 'get'")
  end.

(** [k in v] for a string [k] *)
Definition contains_str (k : string) (v : pyval) : Result bool :=
  match v with
  | PDict d => Ok (match assoc k d with Some _ => true | None => false end)
  | PList l =>
      Ok (existsb (fun x => match x with PStr s => String.eqb s k | _ => false end) l)
  | PStr s => Ok (PyStr.contains k s)
  | _ => Raise (mkExn TypeError "argument is not iterable")
  end.

(** [len(v)] *)
Definition len (v : pyval) : Result nat :=
  match v with
  | PStr s => Ok (String.length s)
  | PList l => Ok (length l)
  | PDict d => Ok (length d)
  | _ => Raise (mkExn TypeError "object has no len()")
  end.

(** [v[0]] *)
Definition getitem_0 (v : pyval) : Result pyval :=
  match v with
  | PList (x :: _) => Ok x
  | PList [] => Raise (mkExn IndexError "list index out of range")
  | PStr (String c _) => Ok (PStr (String c EmptyString))
  | PStr EmptyString => Raise (mkExn IndexError "string index out of range")
  | PDict _ => Raise (mkExn KeyError "0")
  | _ => Raise (mkExn TypeError "object is not subscriptable")
  end.

(** [v.strip()] *)
Definition strip (v : pyval) : Result string :=
  match v with
  | PStr s => Ok (PyStr.strip s)
  | _ => Raise (mkExn AttributeError "object has no attribute 'strip'")
  end.

End Py.

(** ** The outside world *)

Inductive By := ByName | ByClassName | ByCssSelector | ByTagName.

(** A browser session ([webdriver.Chrome] object) and a page element
    ([WebElement], which remembers the session it belongs to). *)
Definition Handle := nat.
Record Element := mkElement { parent : Handle; element_id : nat }.

(** What [requests.get] / [requests.post] return: the status line, the body
    bytes and the body decoded as JSON ([None] when it is not JSON). *)
Record Response := mkResponse {
  status_code : nat;
  content : string;
  json_body : option pyval
}.

(** Calls that can raise. *)
Inductive Call : Type -> Type :=
| FileCreate (path : string) : Call unit
| FileReadLines (path : string) : Call (list string)
| MakeDirs (path : string) : Call unit
| ChromeNew (arguments : list string) : Call Handle
| Quit (h : Handle) : Call unit
| ExecuteScript (h : Handle) (script : string) : Call unit
| ImplicitlyWait (h : Handle) (secs : nat) : Call unit
| CurrentWindowHandle (h : Handle) : Call string
| CurrentUrl (h : Handle) : Call string
| Get (h : Handle) (url : string) : Call unit
| WaitPresence (h : Handle) (timeout : nat) (by_ : By) (value : string) : Call Element
| FindElement (h : Handle) (by_ : By) (value : string) : Call Element
| SendKeys (el : Element) (keys : string) : Call unit
| GetAttribute (el : Element) (name : string) : Call (option string)
| MoveClick (h : Handle) (el : Element) (pause : Q) : Call unit
| SaveScreenshot (h : Handle) (filename : string) : Call bool
| RequestsGet (url : string) (timeout : nat) : Call Response
| RequestsPost (url : string) (image_path : string) (timeout : nat) : Call Response
| TempCreate (suffix : string) : Call string
| TempWrite (path : string) (bytes : string) : Call unit
| TempClose (path : string) : Call unit
| FileOpen (path : string) : Call unit
| FileClose (path : string) : Call unit
| Unlink (path : string) : Call unit.

(** Calls that always return. *)
Inductive Query : Type -> Type :=
| PathExists (path : string) : Query bool
| RandomUniform (a b : Q) : Query Q
| RandomChoice (n : nat) : Query nat
| RandomRandint (a b : nat) : Query nat
| Sleep (secs : Q) : Query unit
| Strftime (fmt : string) : Query string.

Class Oracle (W : Type) := {
  ext : forall T, Call T -> W -> Result T * W;
  env : forall T, Query T -> W -> T * W
}.
Arguments ext {W _ T} c w.
Arguments env {W _ T} q w.


(** ** Log lines, one constructor per [logging] call of the script *)
Inductive Level := INFO | WARNING | ERROR.

Inductive LogMsg :=
| FileNotFoundCreating
| InvalidFormatInLine (line : string)
| LoadedCredentials (n : nat)
| NoCaptchaImageSource
| FailedToDownloadCaptcha (e : string)
| FailedToSaveCaptcha (e : string)
| OcrError (message : pyval)
| InvalidCaptchaLength (captcha_text : string) (attempt total : nat)
| CaptchaSolved (captcha_text : string)
| OcrApiError (e : string)
| UnexpectedCaptchaError (attempt : nat) (e : string)
| AllCaptchaAttemptsFailed
| SessionExpiredReinit
| LoginSuccessful (login : string)
| CaptchaDetected
| FailedToSolveCaptcha
| LoginFailedNoCaptcha
| LoginAttemptFailed (e : string)
| NavigatedTo (section_name : string)
| FailedToNavigate (section_name e : string)
| ScreenshotSaved (filename : string)
| ScreenshotFailed (e : string)
| LogoutSuccessful
| LogoutFailed (e : string)
| AttemptFor (attempt total : nat) (login : string)
| AttemptFailedFor (attempt : nat) (login : string)
| ErrorProcessingAccount (login e : string)
| AllLoginAttemptsFailed (login : string)
| NoCredentialsFound
| ProcessingAccount (idx total : nat) (login : string)
| ProcessCompleted (success_count total : nat)
| FatalError (e : string)
| CriticalError (e : string).

(** ** Traces *)
Inductive Event : Type :=
| EvCall {T : Type} (c : Call T) (r : Result T)
| EvQuery {T : Type} (q : Query T) (v : T)
| EvLog (lvl : Level) (msg : LogMsg)
| EvSetActive (b : bool).   (* an assignment to [self.session_active] *)

(** ** The object's fields *)
Definition Credential : Type := string * string.

Record Self := mkSelf {
  driver : option Handle;
  current_credentials : option Credential;
  credentials_list : list Credential;
  main_window : option string;
  session_active : bool
}.

Definition set_driver (h : Handle) (s : Self) : Self :=
  mkSelf (Some h) (current_credentials s) (credentials_list s) (main_window s) (session_active s).
Definition set_credentials_list (l : list Credential) (s : Self) : Self :=
  mkSelf (driver s) (current_credentials s) l (main_window s) (session_active s).
Definition set_main_window (m : string) (s : Self) : Self :=
  mkSelf (driver s) (current_credentials s) (credentials_list s) (Some m) (session_active s).
Definition set_session_active (b : bool) (s : Self) : Self :=
  mkSelf (driver s) (current_credentials s) (credentials_list s) (main_window s) b.

(** ** The monad *)
Record Out (W A : Type) := mkOut {
  res : Result A;
  out_self : Self;
  out_world : W;
  trace : list Event
}.
Arguments mkOut {W A}.
Arguments res {W A} o.
Arguments out_self {W A} o.
Arguments out_world {W A} o.
Arguments trace {W A} o.

Definition M (W A : Type) : Type := Self -> W -> Out W A.

Section Monad.
Context {W : Type} `{Oracle W}.

Definition ret {A} (a : A) : M W A := fun s w => mkOut (Ok a) s w [].

Definition raise {A} (e : Exn) : M W A := fun s w => mkOut (Raise e) s w [].

(** The events of what ran before are put in front. *)
Definition prepend {A} (t : list Event) (o : Out W A) : Out W A :=
  mkOut (res o) (out_self o) (out_world o) (t ++ trace o).

Definition bind {A B} (m : M W A) (k : A -> M W B) : M W B :=
  fun s w =>
    let o := m s w in
    match res o with
    | Ok a => prepend (trace o) (k a (out_self o) (out_world o))
    | Raise e => mkOut (Raise e) (out_self o) (out_world o) (trace o)
    end.

Definition lift {A} (r : Result A) : M W A := fun s w => mkOut r s w [].

Definition get_self : M W Self := fun s w => mkOut (Ok s) s w [].

Definition modify (f : Self -> Self) : M W unit := fun s w => mkOut (Ok tt) (f s) w [].

Definition emit (e : Event) : M W unit := fun s w => mkOut (Ok tt) s w [e].

Definition call {T} (c : Call T) : M W T :=
  fun s w => let rw := ext c w in mkOut (fst rw) s (snd rw) [EvCall c (fst rw)].

Definition query {T} (q : Query T) : M W T :=
  fun s w => let vw := env q w in mkOut (Ok (fst vw)) s (snd vw) [EvQuery q (fst vw)].

Definition log (lvl : Level) (msg : LogMsg) : M W unit := emit (EvLog lvl msg).

(** [try: body  except <classes>: handler] *)
Definition try_except {A} (body : M W A) (catches : Exn -> bool)
    (handler : Exn -> M W A) : M W A :=
  fun s w =>
    let o := body s w in
    match res o with
    | Ok a => o
    | Raise e =>
        if catches e then prepend (trace o) (handler e (out_self o) (out_world o))
        else o
    end.

(** [try: body  finally: fin]; also the exit of a [with] block.  The
    clean-up runs on every way out of [body]; an exception of the clean-up
    replaces the outcome of [body]. *)
Definition try_finally {A} (body : M W A) (fin : M W unit) : M W A :=
  fun s w =>
    let o := body s w in
    let o' := fin (out_self o) (out_world o) in
    prepend (trace o)
      (mkOut (match res o' with Ok _ => res o | Raise e => Raise e end)
             (out_self o') (out_world o') (trace o')).

End Monad.

Declare Scope py_scope.
Delimit Scope py_scope with py.
Notation "x <- m ;; k" := (bind m (fun x => k))
  (at level 100, m at next level, right associativity) : py_scope.
Notation "m ;;; k" := (bind m (fun _ => k))
  (at level 100, right associativity) : py_scope.

Inductive Ctl (A : Type) : Type :=
| Normal            (* the end of the block was reached *)
| Continue          (* [continue] *)
| Return (a : A).   (* [return a] *)
Arguments Normal {A}.
Arguments Continue {A}.
Arguments Return {A} a.

(** ** Configuration (lines 18-32) *)
Definition LOGIN_FILE : string := "logins.txt".
Definition MAX_ATTEMPTS : nat := 3.
Definition TIMEOUT : nat := 15.
Definition SCREENSHOT_DIR : string := "screenshots".
Definition USER_AGENTS : list string :=
  [ "Mozilla/5.0 (Windows NT 10.0; Win64; x64) AppleWebKit/537.36 (KHTML, like Gecko) Chrome/91.0.4472.124 Safari/537.36";
    "Mozilla/5.0 (Windows NT 10.0; Win64; x64; rv:89.0) Gecko/20100101 Firefox/89.0";
    "Mozilla/5.0 (Macintosh; Intel Mac OS X 10_15_7) AppleWebKit/537.36 (KHTML, like Gecko) Chrome/91.0.4472.124 Safari/537.36" ].
Definition MAX_CAPTCHA_RETRIES : nat := 2.

Definition str_of_nat (n : nat) : string := NilEmpty.string_of_uint (Nat.to_uint n).
Definition NL : string := String (ascii_of_nat 10) EmptyString.

(** [response.raise_for_status()] *)
Definition raise_for_status (r : Response) : Result unit :=
  if (400 <=? status_code r) && (status_code r <? 600)
  then Raise (mkExn RequestException (str_of_nat (status_code r) ++ " Error"))
  else Ok tt.

(** [response.json()] *)
Definition response_json (r : Response) : Result pyval :=
  match json_body r with
  | Some v => Ok v
  | None => Raise (mkExn RequestException "Expecting value: line 1 column 1 (char 0)")
  end.

(** ** class EmaktabAutomation *)
Section EmaktabAutomation.
Context {W : Type} `{Oracle W}.

(** [DELAY_BETWEEN_ATTEMPTS = random.uniform(5, 10)] is drawn once, when
    the module is loaded. *)
Variable DELAY_BETWEEN_ATTEMPTS : Q.

Local Open Scope py_scope.

(** [self.session_active = b] *)
Definition assign_session_active (b : bool) : M W unit :=
  modify (set_session_active b) ;;; emit (EvSetActive b).

(** [self.driver.<method>]: an attribute of [None] cannot be read. *)
Definition the_driver : M W Handle :=
  s <- get_self ;;
  match driver s with
  | Some h => ret h
  | None => raise (mkExn AttributeError "'NoneType' object has no attribute")
  end.

(** [time.sleep(random.uniform(a, b))] *)
Definition sleep_uniform (a b : Q) : M W unit :=
  t <- query (RandomUniform a b) ;; query (Sleep t).

(** *** load_credentials (lines 54-77) *)

(** One turn of [for line in lines]. *)
Definition load_line (line : string) (acc : list Credential * gset Credential)
  : M W (list Credential * gset Credential) :=
  let '(valid_credentials, seen) := acc in
  if PyStr.contains_char ":" line then
    match PyStr.split1 ":" line with
    | [login; password] =>
        let cred_pair := (PyStr.strip login, PyStr.strip password) in
        if decide (cred_pair ∈ seen) then ret (valid_credentials, seen)
        else ret ((valid_credentials ++ [cred_pair])%list, seen ∪ {[cred_pair]})
    | _ => raise (mkExn ValueError "not enough values to unpack (expected 2, got 1)")
    end
  else
    log WARNING (InvalidFormatInLine line) ;;; ret (valid_credentials, seen).

Fixpoint load_lines (lines : list string) (acc : list Credential * gset Credential)
  : M W (list Credential * gset Credential) :=
  match lines with
  | [] => ret acc
  | line :: rest => acc' <- load_line line acc ;; load_lines rest acc'
  end.

(** [[line.strip() for line in f.readlines() if line.strip()]] *)
Definition stripped_lines (raw : list string) : list string :=
  map PyStr.strip (List.filter (fun line => PyStr.truthy (PyStr.strip line)) raw).

Definition load_credentials : M W unit :=
  present <- query (PathExists LOGIN_FILE) ;;
  if negb present then
    log WARNING FileNotFoundCreating ;;;
    call (FileCreate LOGIN_FILE)
  else
    raw <- call (FileReadLines LOGIN_FILE) ;;
    let lines := stripped_lines raw in
    acc <- load_lines lines ([], ∅) ;;
    modify (set_credentials_list (fst acc)) ;;;
    s <- get_self ;;
    log INFO (LoadedCredentials (length (credentials_list s))).

(** *** __init__ (lines 45-52) *)
Definition init : M W unit :=
  modify (fun s => mkSelf None None [] (main_window s) (session_active s)) ;;;
  load_credentials ;;;
  call (MakeDirs SCREENSHOT_DIR) ;;;
  modify (fun s => mkSelf (driver s) (current_credentials s) (credentials_list s) None
                          (session_active s)) ;;;
  assign_session_active false.

(** *** human_type, random_delay (lines 79-88) *)
Fixpoint type_characters (element : Element) (text : string) : M W unit :=
  match text with
  | EmptyString => ret tt
  | String character rest =>
      call (SendKeys element (String character EmptyString)) ;;;
      sleep_uniform 0.1 0.3 ;;;
      type_characters element rest
  end.

Definition human_type (element : Element) (text : string) : M W unit :=
  type_characters element text ;;; query (Sleep 0.5).

Definition random_delay (min_seconds max_seconds : Q) : M W unit :=
  sleep_uniform min_seconds max_seconds.

(** *** init_driver (lines 90-122) *)
Definition chrome_arguments (user_agent : string) : list string :=
  [ "--disable-infobars"; "--disable-extensions"; "--no-sandbox";
    "--disable-dev-shm-usage"; "--disable-gpu";
    "--disable-blink-features=AutomationControlled";
    "user-agent=" ++ user_agent ].

Definition init_driver : M W unit :=
  s <- get_self ;;
  match driver s with
  | Some old => try_except (call (Quit old)) is_Exception (fun _ => ret tt)
  | None => ret tt
  end ;;;
  i <- query (RandomChoice (length USER_AGENTS)) ;;
  let user_agent := nth (i mod length USER_AGENTS) USER_AGENTS EmptyString in
  h <- call (ChromeNew (chrome_arguments user_agent)) ;;
  modify (set_driver h) ;;;
  call (ExecuteScript h
    "Object.defineProperty(navigator, 'webdriver', {get: () => undefined})") ;;;
  call (ImplicitlyWait h 10) ;;;
  handle <- call (CurrentWindowHandle h) ;;
  modify (set_main_window handle) ;;;
  assign_session_active true.

(** *** solve_captcha (lines 124-207) *)

(** Lines 156-170: the image is posted to the OCR service. *)
Definition ocr_request (temp_image_path : string) : M W Response :=
  call (FileOpen temp_image_path) ;;;
  try_finally
    (call (RequestsPost "https://api.ocr.space/parse/image" temp_image_path 30))
    (call (FileClose temp_image_path)).

(** Lines 175-190: the answer is read. *)
Definition parse_ocr_result (retry : nat) (result : pyval) : M W (Ctl string) :=
  errored <- lift (Py.getitem_str result "IsErroredOnProcessing") ;;
  if Py.truthy errored then
    message <- lift (Py.get_default result "ErrorMessage" (PStr "Unknown error")) ;;
    log ERROR (OcrError message) ;;;
    ret Continue
  else
    has_key <- lift (Py.contains_str "ParsedResults" result) ;;
    nonempty <- (if has_key : bool then
                   results <- lift (Py.getitem_str result "ParsedResults") ;;
                   n <- lift (Py.len results) ;;
                   ret (0 <? n)
                 else ret false) ;;
    if nonempty : bool then
      results <- lift (Py.getitem_str result "ParsedResults") ;;
      first <- lift (Py.getitem_0 results) ;;
      text <- lift (Py.getitem_str first "ParsedText") ;;
      parsed_text <- lift (Py.strip text) ;;
      let captcha_text := PyStr.filter_chars PyStr.isdigit parsed_text in
      if negb (String.length captcha_text =? 5) then
        log WARNING (InvalidCaptchaLength captcha_text (retry + 1) MAX_CAPTCHA_RETRIES) ;;;
        ret Continue
      else
        log INFO (CaptchaSolved captcha_text) ;;;
        ret (Return captcha_text)
    else ret Normal.

(** Lines 155-190, the body of the inner [try]. *)
Definition ocr_block (retry : nat) (temp_image_path : string) : M W (Ctl string) :=
  response <- ocr_request temp_image_path ;;
  result <- lift (response_json response) ;;
  parse_ocr_result retry result.

(** Lines 194-199. *)
Definition unlink_quietly (path : string) : M W unit :=
  try_except (call (Unlink path)) is_Exception (fun _ => ret tt).

(** Lines 138-143. *)
Definition download_captcha (captcha_src : string) : M W (option Response) :=
  try_except
    (response <- call (RequestsGet captcha_src 10) ;;
     lift (raise_for_status response) ;;;
     ret (Some response))
    is_RequestException
    (fun e => log ERROR (FailedToDownloadCaptcha (exn_str e)) ;;; ret None).

(** Lines 146-152. *)
Definition save_captcha (response : Response) : M W (option string) :=
  try_except
    (path <- call (TempCreate ".png") ;;
     try_finally (call (TempWrite path (content response))) (call (TempClose path)) ;;;
     ret (Some path))
    is_IOError
    (fun e => log ERROR (FailedToSaveCaptcha (exn_str e)) ;;; ret None).

(** Lines 155-199: the OCR request with its [except] and [finally]. *)
Definition ocr_and_cleanup (retry : nat) (temp_image_path : string) : M W (Ctl string) :=
  try_finally
    (try_except (ocr_block retry temp_image_path) is_Exception
       (fun e => log ERROR (OcrApiError (exn_str e)) ;;; ret Normal))
    (unlink_quietly temp_image_path).

(** Lines 128-199, the body of the outer [try]. *)
Definition captcha_iteration_body (retry : nat) : M W (Ctl string) :=
  h <- the_driver ;;
  captcha_element <- call (WaitPresence h TIMEOUT ByClassName "captcha__image") ;;
  captcha_src <- call (GetAttribute captcha_element "src") ;;
  match captcha_src with
  | None | Some EmptyString => log ERROR NoCaptchaImageSource ;;; ret Continue
  | Some src =>
      downloaded <- download_captcha src ;;
      match downloaded with
      | None => ret Continue
      | Some response =>
          saved <- save_captcha response ;;
          match saved with
          | None => ret Continue
          | Some temp_image_path => ocr_and_cleanup retry temp_image_path
          end
      end
  end.

(** Lines 201-204. *)
Definition captcha_iteration_handler (retry : nat) (e : Exn) : M W (Ctl string) :=
  log ERROR (UnexpectedCaptchaError (retry + 1) (exn_str e)) ;;;
  (if retry <? MAX_CAPTCHA_RETRIES - 1 then sleep_uniform 2 5 else ret tt) ;;;
  ret Normal.

(** One turn of [for retry in range(MAX_CAPTCHA_RETRIES)]. *)
Definition captcha_iteration (retry : nat) : M W (Ctl string) :=
  try_except (captcha_iteration_body retry) is_Exception (captcha_iteration_handler retry).

Fixpoint solve_captcha_loop (retries : list nat) : M W (option string) :=
  match retries with
  | [] => log ERROR AllCaptchaAttemptsFailed ;;; ret None
  | retry :: rest =>
      c <- captcha_iteration retry ;;
      match c with
      | Return captcha_text => ret (Some captcha_text)
      | _ => solve_captcha_loop rest
      end
  end.

Definition solve_captcha : M W (option string) :=
  solve_captcha_loop (seq 0 MAX_CAPTCHA_RETRIES).

(** *** check_session_active (lines 209-220) *)
Definition check_session_active : M W bool :=
  try_except
    (s <- get_self ;;
     if negb (session_active s) then ret false
     else
       h <- the_driver ;;
       call (CurrentUrl h) ;;;
       ret true)
    is_WebDriverException
    (fun _ => assign_session_active false ;;; ret false).

(** *** attempt_login (lines 222-297) *)

(** Lines 247-249 and 279-281. *)
Definition click_login_button : M W unit :=
  h <- the_driver ;;
  login_button <- call (FindElement h ByCssSelector "[data-test-id='login-button']") ;;
  pause <- query (RandomUniform 0.5 1.5) ;;
  call (MoveClick h login_button pause).

(** Lines 226-252: up to the pause after the submit click. *)
Definition login_submit (login password : string) : M W unit :=
  alive <- check_session_active ;;
  (if negb alive then log WARNING SessionExpiredReinit ;;; init_driver else ret tt) ;;;
  h <- the_driver ;;
  call (Get h "https://login.emaktab.uz/") ;;;
  random_delay 2 4 ;;;
  h <- the_driver ;;
  username_field <- call (WaitPresence h TIMEOUT ByName "login") ;;
  h <- the_driver ;;
  password_field <- call (FindElement h ByName "password") ;;
  human_type username_field login ;;;
  random_delay 1 2 ;;;
  human_type password_field password ;;;
  random_delay 1 2 ;;;
  click_login_button ;;;
  random_delay 3 5.

(** ["login" not in self.driver.current_url] *)
Definition left_login_page : M W bool :=
  h <- the_driver ;;
  url <- call (CurrentUrl h) ;;
  ret (negb (PyStr.contains "login" url)).

(** Lines 272-284: type the solution and submit again. *)
Definition captcha_resubmit (captcha_text : string) : M W unit :=
  h <- the_driver ;;
  captcha_input <- call (WaitPresence h TIMEOUT ByName "Captcha.Input") ;;
  human_type captcha_input captcha_text ;;;
  random_delay 1 2 ;;;
  click_login_button ;;;
  random_delay 3 5.

(** Lines 272-286: the captcha round trip ends with the same look at the
    address. *)
Definition captcha_round_trip (captcha_text : string) : M W bool :=
  captcha_resubmit captcha_text ;;;
  left_login_page.

(** Lines 260-290. *)
Definition captcha_path : M W bool :=
  try_except
    (h <- the_driver ;;
     call (WaitPresence h 5 ByClassName "captcha__image") ;;;
     log INFO CaptchaDetected ;;;
     captcha_text <- solve_captcha ;;
     match captcha_text with
     | None | Some EmptyString => log ERROR FailedToSolveCaptcha ;;; ret false
     | Some text => captcha_round_trip text
     end)
    is_TimeoutException
    (fun _ => log WARNING LoginFailedNoCaptcha ;;; ret false).

(** Lines 255-290. *)
Definition classify_outcome (login : string) : M W bool :=
  left <- left_login_page ;;
  if left : bool then log INFO (LoginSuccessful login) ;;; ret true
  else captcha_path.

(** Lines 292-297. *)
Definition attempt_login_handler (e : Exn) : M W bool :=
  log ERROR (LoginAttemptFailed (exn_str e)) ;;;
  (if PyStr.contains "invalid session id" (PyStr.lower (exn_str e))
   then assign_session_active false else ret tt) ;;;
  ret false.

Definition attempt_login_body (login password : string) : M W bool :=
  login_submit login password ;;; classify_outcome login.

Definition attempt_login (login password : string) : M W bool :=
  try_except (attempt_login_body login password) is_Exception attempt_login_handler.

(** *** navigate_to_section, take_screenshot, perform_logout (lines 299-351) *)
Definition session_expired : Exn :=
  mkExn WebDriverException ("Message: Session expired" ++ NL).

Fixpoint scroll (times : nat) : M W unit :=
  match times with
  | O => ret tt
  | S times' =>
      n <- query (RandomRandint 200 800) ;;
      let scroll_pixels := 200 + n mod 601 in
      h <- the_driver ;;
      call (ExecuteScript h ("window.scrollBy(0, " ++ str_of_nat scroll_pixels ++ ");")) ;;;
      random_delay 0.5 1.5 ;;;
      scroll times'
  end.

Definition navigate_to_section (url section_name : string) : M W bool :=
  try_except
    (alive <- check_session_active ;;
     if negb alive then raise session_expired
     else
       h <- the_driver ;;
       call (Get h url) ;;;
       h <- the_driver ;;
       call (WaitPresence h TIMEOUT ByTagName "body") ;;;
       n <- query (RandomRandint 1 3) ;;
       let scroll_actions := 1 + n mod 3 in
       scroll scroll_actions ;;;
       log INFO (NavigatedTo section_name) ;;;
       ret true)
    is_Exception
    (fun e => log ERROR (FailedToNavigate section_name (exn_str e)) ;;; ret false).

Definition take_screenshot (prefix : string) : M W bool :=
  try_except
    (alive <- check_session_active ;;
     if negb alive then raise session_expired
     else
       timestamp <- query (Strftime "%Y%m%d_%H%M%S") ;;
       let filename := SCREENSHOT_DIR ++ "/" ++ prefix ++ "_" ++ timestamp ++ ".png" in
       h <- the_driver ;;
       call (SaveScreenshot h filename) ;;;
       log INFO (ScreenshotSaved filename) ;;;
       ret true)
    is_Exception
    (fun e => log ERROR (ScreenshotFailed (exn_str e)) ;;; ret false).

Definition perform_logout : M W bool :=
  try_except
    (alive <- check_session_active ;;
     if negb alive then raise session_expired
     else
       h <- the_driver ;;
       call (Get h "https://login.emaktab.uz/logout") ;;;
       h <- the_driver ;;
       call (WaitPresence h TIMEOUT ByTagName "body") ;;;
       random_delay 2 4 ;;;
       log INFO LogoutSuccessful ;;;
       ret true)
    is_Exception
    (fun e => log ERROR (LogoutFailed (exn_str e)) ;;; ret false).

(** *** process_account (lines 353-390) *)

(** Lines 361-374: what follows a successful login. *)
Definition after_login (login : string) : M W unit :=
  take_screenshot (login ++ "_dashboard") ;;;
  homework <- navigate_to_section "https://schools.emaktab.uz/v2/homework" "Homework" ;;
  (if homework : bool then take_screenshot (login ++ "_homework") ;;; random_delay 2 4
   else ret tt) ;;;
  marks <- navigate_to_section "https://emaktab.uz/marks" "Marks" ;;
  (if marks : bool then take_screenshot (login ++ "_marks") ;;; random_delay 2 4
   else ret tt) ;;;
  perform_logout ;;;
  ret tt.

(** Lines 377-379. *)
Definition backoff (attempt : nat) : M W unit :=
  if attempt <? MAX_ATTEMPTS then
    delay <- query (RandomUniform DELAY_BETWEEN_ATTEMPTS (DELAY_BETWEEN_ATTEMPTS * 1.5)) ;;
    query (Sleep delay)
  else ret tt.

(** Lines 359-379, the body of the [try]. *)
Definition attempt_body (attempt : nat) (login password : string) : M W (Ctl bool) :=
  logged_in <- attempt_login login password ;;
  if logged_in : bool then
    after_login login ;;;
    ret (Return true)
  else
    log WARNING (AttemptFailedFor attempt login) ;;;
    backoff attempt ;;;
    ret Normal.

(** Lines 381-387. *)
Definition attempt_handler (attempt : nat) (login : string) (e : Exn) : M W (Ctl bool) :=
  log ERROR (ErrorProcessingAccount login (exn_str e)) ;;;
  (if PyStr.contains "session" (PyStr.lower (exn_str e))
   then assign_session_active false ;;; init_driver else ret tt) ;;;
  (if attempt <? MAX_ATTEMPTS then query (Sleep DELAY_BETWEEN_ATTEMPTS) else ret tt) ;;;
  ret Normal.

(** One turn of [for attempt in range(1, MAX_ATTEMPTS + 1)]. *)
Definition account_attempt (attempt : nat) (login password : string) : M W (Ctl bool) :=
  log INFO (AttemptFor attempt MAX_ATTEMPTS login) ;;;
  try_except (attempt_body attempt login password) is_Exception
    (attempt_handler attempt login).

Fixpoint process_account_loop (attempts : list nat) (login password : string) : M W bool :=
  match attempts with
  | [] => log ERROR (AllLoginAttemptsFailed login) ;;; ret false
  | attempt :: rest =>
      c <- account_attempt attempt login password ;;
      match c with
      | Return b => ret b
      | _ => process_account_loop rest login password
      end
  end.

Definition process_account (login password : string) : M W bool :=
  process_account_loop (seq 1 MAX_ATTEMPTS) login password.

(** *** process_all_accounts (lines 392-424) *)

(** Lines 409-411: the pause between two accounts. *)
Definition account_pause (idx total : nat) : M W unit :=
  if idx <? total then
    delay <- query (RandomUniform 5 15) ;;
    query (Sleep delay)
  else ret tt.

(** One turn of [for idx, (login, password) in enumerate(..., 1)]:
    returns the new value of [success_count]. *)
Definition account_turn (idx total : nat) (cred : Credential) (success_count : nat)
  : M W nat :=
  let '(login, password) := cred in
  log INFO (ProcessingAccount idx total login) ;;;
  succeeded <- process_account login password ;;
  let success_count := if succeeded : bool then success_count + 1 else success_count in
  account_pause idx total ;;;
  ret success_count.

Fixpoint accounts_loop (idx total : nat) (creds : list Credential) (success_count : nat)
  : M W nat :=
  match creds with
  | [] => ret success_count
  | cred :: rest =>
      success_count' <- account_turn idx total cred success_count ;;
      accounts_loop (S idx) total rest success_count'
  end.

(** Lines 402-413, the body of the [try]. *)
Definition accounts_run : M W unit :=
  s <- get_self ;;
  let creds := credentials_list s in
  success_count <- accounts_loop 1 (length creds) creds 0 ;;
  log INFO (ProcessCompleted success_count (length creds)).

(** Lines 418-424, the [finally] clause. *)
Definition teardown : M W unit :=
  try_except
    (s <- get_self ;;
     match driver s with
     | Some h => call (Quit h) ;;; assign_session_active false
     | None => ret tt
     end)
    is_Exception (fun _ => ret tt).

(** [try: body  except Exception: log  finally: teardown] (lines 401-424) *)
Definition guarded (body : M W unit) : M W unit :=
  try_finally
    (try_except body is_Exception (fun e => log ERROR (FatalError (exn_str e))))
    teardown.

Definition process_all_accounts : M W unit :=
  s <- get_self ;;
  match credentials_list s with
  | [] => log ERROR NoCredentialsFound
  | _ :: _ =>
      init_driver ;;;
      guarded accounts_run
  end.

(** *** The script (lines 426-431) *)
Definition main : M W unit :=
  try_except (init ;;; process_all_accounts) is_Exception
    (fun e => log ERROR (CriticalError (exn_str e))).

End EmaktabAutomation.

(** ** A simulated portal

    An executable world: one browser at a time, the login page of the
    portal, an image download, a temporary directory and an OCR service
    that reads out a scripted list of texts.  The switches select the
    faults a run meets. *)
Module Sim.

Record World := mkWorld {
  (* configuration *)
  accounts : list Credential;     (* the pairs the portal accepts *)
  challenge : bool;               (* the portal answers a submit with a captcha *)
  captcha_code : string;          (* the digits shown in the captcha image *)
  ocr_texts : list string;        (* what the OCR service reads, request by request *)
  unlink_fails : bool;            (* [os.unlink] is refused *)
  write_fails : bool;             (* the temporary directory is full *)
  crash_after_logout : bool;      (* the browser dies once the logout page is loaded *)
  crash_after_probe : bool;       (* the browser dies once the captcha probe returned *)
  crash_after_address : bool;     (* the browser dies once it has told its address *)
  chrome_left : nat;              (* how many more browsers can be started *)
  (* state *)
  login_file : option (list string);
  alive : bool;
  current : Handle;
  url : string;
  login_field : string;
  password_field : string;
  captcha_field : string;
  captcha_shown : bool;
  tmp_files : list string;
  tmp_counter : nat
}.

Definition LOGIN_URL : string := "https://login.emaktab.uz/".
Definition HOME_URL : string := "https://emaktab.uz/userfeed".

Definition invalid_session : Exn :=
  mkExn InvalidSessionIdException ("Message: invalid session id" ++ NL).

Definition with_page (w : World) (alive' : bool) (url' lf pf cf : string) (shown : bool)
  : World :=
  mkWorld (accounts w) (challenge w) (captcha_code w) (ocr_texts w) (unlink_fails w)
    (write_fails w) (crash_after_logout w) (crash_after_probe w) (crash_after_address w) (chrome_left w)
    (login_file w) alive' (current w) url' lf pf cf shown (tmp_files w) (tmp_counter w).

Definition with_files (w : World) (file : option (list string)) (tmp : list string)
    (counter : nat) : World :=
  mkWorld (accounts w) (challenge w) (captcha_code w) (ocr_texts w) (unlink_fails w)
    (write_fails w) (crash_after_logout w) (crash_after_probe w) (crash_after_address w) (chrome_left w)
    file (alive w) (current w) (url w) (login_field w) (password_field w)
    (captcha_field w) (captcha_shown w) tmp counter.

Definition with_ocr (w : World) (texts : list string) : World :=
  mkWorld (accounts w) (challenge w) (captcha_code w) texts (unlink_fails w)
    (write_fails w) (crash_after_logout w) (crash_after_probe w) (crash_after_address w) (chrome_left w)
    (login_file w) (alive w) (current w) (url w) (login_field w) (password_field w)
    (captcha_field w) (captcha_shown w) (tmp_files w) (tmp_counter w).

Definition start_browser (w : World) : World :=
  mkWorld (accounts w) (challenge w) (captcha_code w) (ocr_texts w) (unlink_fails w)
    (write_fails w) (crash_after_logout w) (crash_after_probe w) (crash_after_address w)
  (chrome_left w - 1)
    (login_file w) true (S (current w)) "data:," "" "" "" false
    (tmp_files w) (tmp_counter w).

Definition kill (w : World) : World :=
  with_page w false (url w) (login_field w) (password_field w) (captcha_field w)
    (captcha_shown w).

(** The session [h] answers. *)
Definition serves (w : World) (h : Handle) : bool := alive w && (h =? current w).

Definition credential_eqb (a b : Credential) : bool :=
  String.eqb (fst a) (fst b) && String.eqb (snd a) (snd b).

Definition known (w : World) : bool :=
  existsb (credential_eqb (login_field w, password_field w)) (accounts w).

(** The page after a click on the login button. *)
Definition submit (w : World) : World :=
  if negb (known w) then
    with_page w true LOGIN_URL "" "" "" (captcha_shown w)
  else if negb (challenge w) then
    with_page w true HOME_URL "" "" "" false
  else if negb (captcha_shown w) then
    with_page w true LOGIN_URL (login_field w) (password_field w) "" true
  else if String.eqb (captcha_field w) (captcha_code w) then
    with_page w true HOME_URL "" "" "" false
  else
    with_page w true LOGIN_URL (login_field w) (password_field w) "" true.

Definition BODY : nat := 0.
Definition LOGIN_INPUT : nat := 1.
Definition PASSWORD_INPUT : nat := 2.
Definition LOGIN_BUTTON : nat := 3.
Definition CAPTCHA_IMAGE : nat := 4.
Definition CAPTCHA_INPUT : nat := 5.

Definition on_login_page (w : World) : bool := String.eqb (url w) LOGIN_URL.

(** Which element a locator finds on the current page. *)
Definition locate (w : World) (value : string) : option nat :=
  if String.eqb value "body" then Some BODY
  else if negb (on_login_page w) then None
  else if String.eqb value "login" then Some LOGIN_INPUT
  else if String.eqb value "password" then Some PASSWORD_INPUT
  else if String.eqb value "[data-test-id='login-button']" then Some LOGIN_BUTTON
  else if String.eqb value "captcha__image" then
    if captcha_shown w then Some CAPTCHA_IMAGE else None
  else if String.eqb value "Captcha.Input" then
    if captcha_shown w then Some CAPTCHA_INPUT else None
  else None.

Definition find (w : World) (h : Handle) (value : string) (missing : Exn)
  : Result Element :=
  match locate w value with
  | Some i => Ok (mkElement h i)
  | None => Raise missing
  end.

Definition send_keys (w : World) (el : Element) (keys : string) : World :=
  if element_id el =? LOGIN_INPUT then
    with_page w true (url w) (login_field w ++ keys) (password_field w)
      (captcha_field w) (captcha_shown w)
  else if element_id el =? PASSWORD_INPUT then
    with_page w true (url w) (login_field w) (password_field w ++ keys)
      (captcha_field w) (captcha_shown w)
  else if element_id el =? CAPTCHA_INPUT then
    with_page w true (url w) (login_field w) (password_field w)
      (captcha_field w ++ keys) (captcha_shown w)
  else w.

Definition ocr_answer (text : string) : Response :=
  mkResponse 200 ""
    (Some (PDict [ ("ParsedResults", PList [PDict [("ParsedText", PStr text)]]);
                   ("IsErroredOnProcessing", PBool false) ])).

Definition temp_path (n : nat) : string := "/tmp/tmp" ++ str_of_nat n ++ ".png".

Definition remove_path (p : string) (l : list string) : list string :=
  List.filter (fun q => negb (String.eqb q p)) l.

(** A driver call: refused by a dead or replaced session. *)
Definition driver_call {T} (w : World) (h : Handle) (k : Result T * World)
  : Result T * World :=
  if serves w h then k else (Raise invalid_session, w).

Definition ext_sim {T} (c : Call T) (w : World) : Result T * World :=
  match c in Call T return Result T * World with
  | FileCreate _ => (Ok tt, with_files w (Some []) (tmp_files w) (tmp_counter w))
  | FileReadLines _ =>
      match login_file w with
      | Some lines => (Ok lines, w)
      | None => (Raise (mkExn IOError "[Errno 2] No such file or directory"), w)
      end
  | MakeDirs _ => (Ok tt, w)
  | ChromeNew _ =>
      match chrome_left w with
      | O => (Raise (mkExn WebDriverException ("Message: session not created" ++ NL)), w)
      | S _ => (Ok (S (current w)), start_browser w)
      end
  | Quit h => driver_call w h (Ok tt, kill w)
  | ExecuteScript h _ => driver_call w h (Ok tt, w)
  | ImplicitlyWait h _ => driver_call w h (Ok tt, w)
  | CurrentWindowHandle h => driver_call w h (Ok ("window-" ++ str_of_nat h), w)
  | CurrentUrl h =>
    driver_call w h (Ok (url w), if crash_after_address w then kill w else w)
  | Get h target =>
      driver_call w h
        (Ok tt,
         if String.eqb target "https://login.emaktab.uz/logout" then
           with_page w (negb (crash_after_logout w)) LOGIN_URL "" "" "" false
         else with_page w true target "" "" "" false)
  | WaitPresence h timeout _ value =>
      driver_call w h
        (find w h value (mkExn TimeoutException ("Message: " ++ NL)),
         if crash_after_probe w && (timeout =? 5) && captcha_shown w then kill w else w)
  | FindElement h _ value =>
      driver_call w h
        (find w h value (mkExn NoSuchElementException
                           ("Message: no such element: Unable to locate element" ++ NL)),
         w)
  | SendKeys el keys => driver_call w (parent el) (Ok tt, send_keys w el keys)
  | GetAttribute el name =>
      driver_call w (parent el)
        (Ok (if (element_id el =? CAPTCHA_IMAGE) && String.eqb name "src"
             then Some "https://login.emaktab.uz/captcha.png" else None), w)
  | MoveClick h el _ =>
      driver_call w h (Ok tt, if element_id el =? LOGIN_BUTTON then submit w else w)
  | SaveScreenshot h _ => driver_call w h (Ok true, w)
  | RequestsGet _ _ => (Ok (mkResponse 200 "PNG" None), w)
  | RequestsPost _ _ _ =>
      match ocr_texts w with
      | text :: rest => (Ok (ocr_answer text), with_ocr w rest)
      | [] => (Raise (mkExn RequestException "Read timed out."), w)
      end
  | TempCreate _ =>
      (Ok (temp_path (tmp_counter w)),
       with_files w (login_file w) (temp_path (tmp_counter w) :: tmp_files w)
         (S (tmp_counter w)))
  | TempWrite _ _ =>
      if write_fails w
      then (Raise (mkExn IOError "[Errno 28] No space left on device"), w)
      else (Ok tt, w)
  | TempClose _ => (Ok tt, w)
  | FileOpen _ => (Ok tt, w)
  | FileClose _ => (Ok tt, w)
  | Unlink p =>
      if unlink_fails w
      then (Raise (mkExn IOError "[Errno 13] Permission denied"), w)
      else (Ok tt, with_files w (login_file w) (remove_path p (tmp_files w)) (tmp_counter w))
  end.

(** The random generator returns the low end of every range; the clock
    stands still. *)
Definition env_sim {T} (q : Query T) (w : World) : T * World :=
  match q in Query T return T * World with
  | PathExists _ => (match login_file w with Some _ => true | None => false end, w)
  | RandomUniform a _ => (a, w)
  | RandomChoice _ => (0, w)
  | RandomRandint _ _ => (0, w)
  | Sleep _ => (tt, w)
  | Strftime _ => ("20240101_120000", w)
  end.

#[global] Instance oracle : Oracle World := {| ext := @ext_sim; env := @env_sim |}.

(** A portal with no accounts, no faults and one browser to start. *)
Definition quiet : World :=
  mkWorld [] false "12345" [] false false false false false 1
          (Some []) false 0 "" "" "" "" false [] 0.

Definition fresh : Self := mkSelf None None [] None false.

End Sim.

(** ** The credential loader as the specification words it

    "Parse each non-blank line; split on the first colon; trim whitespace;
    lines without a colon are skipped with a warning.  Deduplicate by exact
    pair match, preserving first-seen order." *)
Module LoaderSpec.

Definition blank (line : string) : bool := PyStr.all_chars PyStr.isspace line.

(** The text before and after the first [c]. *)
Fixpoint cut (c : ascii) (line : string) : option (string * string) :=
  match line with
  | EmptyString => None
  | String d rest =>
      if Ascii.eqb d c then Some (EmptyString, rest)
      else match cut c rest with
           | Some (before, after) => Some (String d before, after)
           | None => None
           end
  end.

Definition parse_line (line : string) : option Credential :=
  match cut ":" line with
  | Some (identifier, secret) => Some (PyStr.strip identifier, PyStr.strip secret)
  | None => None
  end.

(** Keep the first occurrence of every pair. *)
Fixpoint first_seen (l : list Credential) : list Credential :=
  match l with
  | [] => []
  | x :: rest => x :: filter (λ y, y ≠ x) (first_seen rest)
  end.

Definition non_blank (raw : list string) : list string :=
  List.filter (fun line => negb (blank line)) raw.

Definition pairs (raw : list string) : list Credential :=
  first_seen (omap parse_line (non_blank raw)).

(** The lines a warning is recorded for, trimmed. *)
Definition malformed (raw : list string) : list string :=
  map PyStr.strip
    (List.filter (fun line => match cut ":" line with Some _ => false | None => true end)
       (non_blank raw)).

End LoaderSpec.

(** ** Reading traces *)

(** The messages logged at a given level. *)
Definition logged (lvl : Level) (tr : list Event) : list LogMsg :=
  omap (fun e => match e with
                 | EvLog l msg =>
                     match lvl, l with
                     | INFO, INFO | WARNING, WARNING | ERROR, ERROR => Some msg
                     | _, _ => None
                     end
                 | _ => None
                 end) tr.

(** What one turn of the loader's loop does to [valid_credentials]. *)
Definition append_unseen (valid : list Credential) (cred_pair : Credential)
  : list Credential :=
  if decide (cred_pair ∈ valid) then valid else (valid ++ [cred_pair])%list.

(** A stripped line the loader's loop rejects, and the warning it logs. *)
Definition no_colon (line : string) : bool :=
  match LoaderSpec.cut ":" line with Some _ => false | None => true end.

Definition warn (line : string) : Event := EvLog WARNING (InvalidFormatInLine line).

(** ** Worlds used as examples *)

Definition four_lines : Sim.World :=
  Sim.with_files Sim.quiet (Some ["a:b"; "a:b"; "c:d"; "badline"]) [] 0.

(** ** Shapes of computations *)
Section Shapes.
Context {W : Type} `{Oracle W}.

(** Every run relates the fields before it, the fields after it and the
    events it emitted by [I]. *)
Definition respects {A} (I : Self -> Self -> list Event -> Prop) (m : M W A) : Prop :=
  forall s w, I s (out_self (m s w)) (trace (m s w)).

(** Every value a run returns satisfies [Q]. *)
Definition yields {A} (Q : A -> Prop) (m : M W A) : Prop :=
  forall s w a, res (m s w) = Ok a -> Q a.

(** No run raises. *)
Definition never_raises {A} (m : M W A) : Prop :=
  forall s w, is_ok (res (m s w)) = true.

End Shapes.

Definition is_sleep (e : Event) : bool :=
  match e with
  | EvQuery (Sleep _) _ => true
  | _ => false
  end.

(** The run did not sleep. *)
Definition sleepless (s s' : Self) (t : list Event) : Prop :=
  List.forallb (fun e => negb (is_sleep e)) t = true.

(** The run left [self.driver] and [self.session_active] alone. *)
Definition same_session (s s' : Self) (t : list Event) : Prop :=
  driver s' = driver s /\ session_active s' = session_active s
  /\ List.forallb (fun e => match e with EvSetActive _ => false | _ => true end) t = true.

(** What an iteration returns is five characters that [str.isdigit] accepts. *)
Definition five_digits (c : Ctl string) : Prop :=
  forall t, c = Return t ->
            String.length t = 5 /\ PyStr.all_chars PyStr.isdigit t = true.

(** A run of the retry loop through the iterations [retries], none of which
    returned: the events emitted and the state reached. *)
Inductive failed_iterations {W : Type} `{Oracle W}
  : list nat -> Self -> W -> list Event -> Self -> W -> Prop :=
| failed_nil s w : failed_iterations [] s w [] s w
| failed_cons retry rest s w t s' w' c :
    res (captcha_iteration retry s w) = Ok c ->
    (forall text, c <> Return text) ->
    failed_iterations rest (out_self (captcha_iteration retry s w))
      (out_world (captcha_iteration retry s w)) t s' w' ->
    failed_iterations (retry :: rest) s w
      (trace (captcha_iteration retry s w) ++ t) s' w'.

(** The text of the first parsed result of an OCR answer that reports no
    processing error. *)
Definition parsed_text (result : pyval) : option string :=
  match Py.getitem_str result "IsErroredOnProcessing" with
  | Ok errored =>
      if Py.truthy errored then None
      else match Py.getitem_str result "ParsedResults" with
           | Ok results =>
               match Py.getitem_0 results with
               | Ok first =>
                   match Py.getitem_str first "ParsedText" with
                   | Ok (PStr text) => Some text
                   | _ => None
                   end
               | Raise _ => None
               end
           | Raise _ => None
           end
  | Raise _ => None
  end.

(** The browser of session 1 shows the login page with a captcha; the OCR
    service will read [texts]. *)
Definition at_captcha (texts : list string) : Sim.World :=
  Sim.mkWorld [] true "12345" texts false false false false false 0
    (Some []) true 1 Sim.LOGIN_URL "" "" "" true [] 0.

Definition in_session : Self := mkSelf (Some 1) None [] (Some "window-1") true.

(** The run slept. *)
Definition slept (tr : list Event) : bool := existsb is_sleep tr.

(** Temporary files in a trace: the paths [NamedTemporaryFile] created, the
    paths written without error, the paths closed without error, and the
    paths [os.unlink] was called on, with the paths it removed. *)
Definition created (tr : list Event) : list string :=
  omap (fun e => match e with
                 | EvCall (TempCreate _) (Ok p) => Some p
                 | _ => None
                 end) tr.

Definition written (tr : list Event) : list string :=
  omap (fun e => match e with
                 | EvCall (TempWrite p _) (Ok _) => Some p
                 | _ => None
                 end) tr.

Definition closed (tr : list Event) : list string :=
  omap (fun e => match e with
                 | EvCall (TempClose p) (Ok _) => Some p
                 | _ => None
                 end) tr.

Definition unlink_calls (tr : list Event) : list string :=
  omap (fun e => match e with
                 | EvCall (Unlink p) _ => Some p
                 | _ => None
                 end) tr.

Definition unlinked (tr : list Event) : list string :=
  omap (fun e => match e with
                 | EvCall (Unlink p) (Ok _) => Some p
                 | _ => None
                 end) tr.

(** Every temporary file created during the run was removed during it. *)
Definition temp_files_deleted (tr : list Event) : bool :=
  forallb (fun p => existsb (String.eqb p) (unlinked tr)) (created tr).

(** The run touched no temporary file. *)
Definition no_temp_file (s s' : Self) (t : list Event) : Prop :=
  created t = [] /\ written t = [] /\ closed t = [] /\ unlink_calls t = [].

(** The run wrote and closed no temporary file. *)
Definition no_save (s s' : Self) (t : list Event) : Prop :=
  written t = [] /\ closed t = [].

(** As [at_captcha], with [os.unlink] refused. *)
Definition unlink_refused (texts : list string) : Sim.World :=
  Sim.mkWorld [] true "12345" texts true false false false false 0
    (Some []) true 1 Sim.LOGIN_URL "" "" "" true [] 0.

(** As [at_captcha], with a full temporary directory. *)
Definition disk_full (texts : list string) : Sim.World :=
  Sim.mkWorld [] true "12345" texts false true false false false 0
    (Some []) true 1 Sim.LOGIN_URL "" "" "" true [] 0.

(** The pause the specification asks for: an iteration that failed, with a
    retry still to come, sleeps before that retry begins. *)
Definition pause_before_next_retry {W : Type} `{Oracle W}
    (s : Self) (w : W) (retry : nat) : Prop :=
  retry < MAX_CAPTCHA_RETRIES - 1 ->
  (forall text, res (captcha_iteration retry s w) <> Ok (Return text)) ->
  slept (trace (captcha_iteration retry s w)) = true.

(** The outcome of the body of an iteration, as far as the temporary file
    goes: either no file was both written and closed, or the file [p] was,
    and what follows is the OCR request with its clean-up of [p]. *)
Definition save_then_cleanup {W : Type} `{Oracle W} (retry : nat)
    (o : Out W (Ctl string)) : Prop :=
  (written (trace o) = [] \/ closed (trace o) = [])
  \/ (exists p t s1 w1,
        o = prepend t (ocr_and_cleanup retry p s1 w1)
        /\ created t = [p] /\ written t = [p] /\ closed t = [p]
        /\ unlink_calls t = []).

(** The claim on temporary files, for one iteration. *)
Definition cleans_up {W : Type} `{Oracle W} (s : Self) (w : W) (retry : nat) : Prop :=
  temp_files_deleted (trace (captcha_iteration retry s w)) = true.




(** A portal with the given accounts, with or without a captcha challenge,
    no fault and one browser to start. *)
Definition portal (accounts : list Credential) (challenge : bool) (texts : list string)
  : Sim.World :=
  Sim.mkWorld accounts challenge "12345" texts false false false false false 1
    (Some []) false 0 "" "" "" "" false [] 0.



(** The ranges of the backoff draws of a run: a backoff is the
    [random.uniform] that follows the warning of a failed attempt. *)
Fixpoint backoff_draws (tr : list Event) : list (Q * Q) :=
  match tr with
  | [] => []
  | EvLog WARNING (AttemptFailedFor _ _) :: rest =>
      match rest with
      | EvQuery (RandomUniform a b) _ :: _ => (a, b) :: backoff_draws rest
      | _ => backoff_draws rest
      end
  | _ :: rest => backoff_draws rest
  end.

(** Each range lies above the one before it. *)
Fixpoint scaled_up (draws : list (Q * Q)) : Prop :=
  match draws with
  | x :: rest =>
      match rest with
      | y :: _ => ((fst x < fst y)%Q \/ (snd x < snd y)%Q) /\ scaled_up rest
      | [] => True
      end
  | [] => True
  end.

(** The sessions [quit] was called on, in order. *)
Definition quit_calls (tr : list Event) : list Handle :=
  omap (fun e => match e with
                 | EvCall (Quit h) _ => Some h
                 | _ => None
                 end) tr.

(** The run closed one session, once. *)
Definition closed_once (tr : list Event) : Prop :=
  exists h, quit_calls tr = [h].

(** The run left [self.credentials_list] alone. *)
Definition same_credentials (s s' : Self) (t : list Event) : Prop :=
  credentials_list s' = credentials_list s.

(** The run called [quit] on no session. *)
Definition no_quit (s s' : Self) (t : list Event) : Prop := quit_calls t = [].

(** The portal knows the account [u]; the browser dies once [u] has logged
    out and no other browser can be started. *)
Definition browser_lost : Sim.World :=
  Sim.mkWorld [("u", "p")] false "12345" [] false false true false false 1
    (Some []) false 0 "" "" "" "" false [] 0.

(** The object after [__init__] has loaded two pairs. *)
Definition two_accounts : Self := mkSelf None None [("u", "p"); ("v", "q")] None false.

(** The run left [self.driver] set if it was. *)
Definition keeps_driver (s s' : Self) (t : list Event) : Prop :=
  driver s <> None -> driver s' <> None.

(** The login file holds a line with no identifier and one with no secret. *)
Definition empty_fields : Sim.World :=
  Sim.with_files Sim.quiet (Some [":x"; "id:"]) [] 0.




(** What [process_account] returned for each pair, as the loop of
    [process_all_accounts] runs it from the state [s] and the world [w]. *)
Fixpoint loop_outcomes {W : Type} `{Oracle W} (D : Q) (idx total : nat)
    (creds : list Credential) (s : Self) (w : W) : list (Result bool) :=
  match creds with
  | [] => []
  | (login, password) :: rest =>
      let r := process_account D login password s w in
      let d := account_pause idx total (out_self r) (out_world r) in
      res r :: loop_outcomes D (S idx) total rest (out_self d) (out_world d)
  end.

(** How many of them are [True]. *)
Definition successes (outcomes : list (Result bool)) : nat :=
  length (List.filter (fun r => match r with Ok true => true | _ => false end) outcomes).

(** There is no login file. *)
Definition no_login_file : Sim.World := Sim.with_files Sim.quiet None [] 0.

(** One pair in the login file, and no browser can be started. *)
Definition no_browser : Sim.World :=
  Sim.mkWorld [("u", "p")] false "12345" [] false false false false false 0
    (Some ["u:p"]) false 0 "" "" "" "" false [] 0.

(** Three pairs in the login file; the portal knows the first and the last. *)
Definition three_lines : Sim.World :=
  Sim.mkWorld [("u", "p"); ("w", "r")] false "12345" [] false false false false false 1
    (Some ["u:p"; "v:q"; "w:r"]) false 0 "" "" "" "" false [] 0.

(** The run left [self.credentials_list] and [self.current_credentials]
    alone. *)
Definition untouched (s s' : Self) (t : list Event) : Prop :=
  credentials_list s' = credentials_list s
  /\ current_credentials s' = current_credentials s.

(** The object after [__init__] has loaded three pairs. *)
Definition three_accounts : Self :=
  mkSelf None None [("u", "p"); ("v", "q"); ("w", "r")] None false.

(** * Properties *)

(** ** Strings *)
Module PyStrFacts.
Import PyStr.

Lemma lstrip_head s :
  lstrip s = EmptyString \/ exists c r, lstrip s = String c r /\ isspace c = false.
Proof.
  induction s as [|c s IH]; simpl; [now left|].
  destruct (isspace c) eqn:E; [exact IH|].
  right. now exists c, s.
Qed.

Lemma lstrip_nonspace c s : isspace c = false -> lstrip (String c s) = String c s.
Proof. intros E. simpl. now rewrite E. Qed.

Lemma lstrip_idem s : lstrip (lstrip s) = lstrip s.
Proof.
  destruct (lstrip_head s) as [E | (c & r & E & Hc)]; rewrite E; [reflexivity|].
  now apply lstrip_nonspace.
Qed.

Lemma rstrip_cons c s :
  rstrip (String c s)
  = match rstrip s with
    | EmptyString => if isspace c then EmptyString else String c EmptyString
    | r => String c r
    end.
Proof. reflexivity. Qed.

Lemma rstrip_cons_nonspace c s :
  isspace c = false -> rstrip (String c s) = String c (rstrip s).
Proof. intros E. rewrite rstrip_cons, E. now destruct (rstrip s). Qed.

Lemma rstrip_idem s : rstrip (rstrip s) = rstrip s.
Proof.
  induction s as [|c s IH]; [reflexivity|].
  rewrite rstrip_cons.
  destruct (rstrip s) as [|d r] eqn:E.
  - destruct (isspace c) eqn:Hc; [reflexivity|].
    now rewrite rstrip_cons_nonspace.
  - rewrite rstrip_cons, IH. reflexivity.
Qed.

Lemma rstrip_lstrip s : rstrip (lstrip s) = lstrip (rstrip s).
Proof.
  induction s as [|c s IH]; [reflexivity|].
  destruct (isspace c) eqn:Hc.
  - simpl lstrip at 1. rewrite Hc, IH, rstrip_cons.
    destruct (rstrip s) as [|d r] eqn:E.
    + now rewrite Hc.
    + simpl. now rewrite Hc.
  - rewrite (lstrip_nonspace c s Hc), rstrip_cons_nonspace by assumption.
    now rewrite lstrip_nonspace.
Qed.

Lemma strip_lstrip s : strip (lstrip s) = strip s.
Proof. unfold strip. now rewrite rstrip_lstrip, lstrip_idem. Qed.

Lemma strip_rstrip s : strip (rstrip s) = strip s.
Proof. unfold strip. now rewrite rstrip_idem. Qed.

Lemma strip_idem s : strip (strip s) = strip s.
Proof. unfold strip at 2. now rewrite strip_lstrip, strip_rstrip. Qed.

Lemma rstrip_blank s : all_chars isspace s = true -> rstrip s = EmptyString.
Proof.
  induction s as [|c s IH]; simpl; [reflexivity|].
  intros Hs. apply andb_true_iff in Hs as [Hc Hs].
  now rewrite (IH Hs), Hc.
Qed.

Lemma lstrip_not_blank s :
  all_chars isspace s = false ->
  exists c r, lstrip s = String c r /\ isspace c = false.
Proof.
  induction s as [|c s IH]; simpl; [discriminate|].
  destruct (isspace c) eqn:Hc; simpl; [exact IH|].
  intros _. now exists c, s.
Qed.

(** A line is dropped by [if line.strip()] exactly when it is blank. *)
Lemma truthy_strip s : truthy (strip s) = negb (all_chars isspace s).
Proof.
  destruct (all_chars isspace s) eqn:E; simpl.
  - unfold strip. now rewrite (rstrip_blank s E).
  - unfold strip. rewrite <- rstrip_lstrip.
    destruct (lstrip_not_blank s E) as (c & r & -> & Hc).
    now rewrite rstrip_cons_nonspace.
Qed.

Lemma colon_not_space c : Ascii.eqb c ":" = true -> isspace c = false.
Proof. intros E. apply Ascii.eqb_eq in E. now subst. Qed.

End PyStrFacts.

Module CutFacts.
Import PyStr PyStrFacts LoaderSpec.

Lemma contains_char_cut c s :
  contains_char c s = match cut c s with Some _ => true | None => false end.
Proof.
  induction s as [|d s IH]; simpl; [reflexivity|].
  destruct (Ascii.eqb d c); [reflexivity|].
  rewrite IH. now destruct (cut c s) as [[a b]|].
Qed.

(** Under the guard [':' in line] the unpacking of [split(':', 1)] gets
    its two values. *)
Lemma split1_cut c s a b : cut c s = Some (a, b) -> split1 c s = [a; b].
Proof.
  revert a b. induction s as [|d s IH]; simpl; intros a b; [discriminate|].
  destruct (Ascii.eqb d c).
  - intros [= <- <-]. reflexivity.
  - destruct (cut c s) as [[a' b']|]; [|discriminate].
    intros [= <- <-]. now rewrite (IH a' b' eq_refl).
Qed.

Lemma cut_cons_ne c d s :
  Ascii.eqb d c = false ->
  cut c (String d s)
  = match cut c s with Some (a, b) => Some (String d a, b) | None => None end.
Proof. intros E. simpl. now rewrite E. Qed.

Lemma cut_lstrip s :
  cut ":" (lstrip s)
  = match cut ":" s with Some (a, b) => Some (lstrip a, b) | None => None end.
Proof.
  induction s as [|d s IH]; [reflexivity|].
  destruct (isspace d) eqn:Hd.
  - simpl lstrip at 1. rewrite Hd, IH. simpl cut.
    destruct (Ascii.eqb d ":") eqn:E.
    + apply colon_not_space in E. congruence.
    + destruct (cut ":" s) as [[a b]|]; [|reflexivity].
      simpl. now rewrite Hd.
  - rewrite (lstrip_nonspace d s Hd). simpl cut.
    destruct (Ascii.eqb d ":"); [reflexivity|].
    destruct (cut ":" s) as [[a b]|]; [|reflexivity].
    now rewrite lstrip_nonspace.
Qed.

Lemma cut_rstrip s :
  cut ":" (rstrip s)
  = match cut ":" s with Some (a, b) => Some (a, rstrip b) | None => None end.
Proof.
  induction s as [|d s IH]; [reflexivity|].
  simpl cut at 2.
  destruct (Ascii.eqb d ":") eqn:E.
  - rewrite rstrip_cons_nonspace by now apply colon_not_space.
    simpl. now rewrite E.
  - rewrite rstrip_cons.
    destruct (rstrip s) as [|e r] eqn:Hr.
    + simpl in IH.
      destruct (cut ":" s) as [[a b]|]; [discriminate|].
      destruct (isspace d); simpl; [reflexivity|]. now rewrite E.
    + rewrite (cut_cons_ne ":" d (String e r) E), IH.
      now destruct (cut ":" s) as [[a b]|].
Qed.

Lemma cut_strip s :
  cut ":" (strip s)
  = match cut ":" s with Some (a, b) => Some (lstrip a, rstrip b) | None => None end.
Proof.
  unfold strip. rewrite cut_lstrip, cut_rstrip.
  now destruct (cut ":" s) as [[a b]|].
Qed.

(** Trimming the line first, as the script does, changes nothing. *)
Lemma parse_line_strip s : parse_line (strip s) = parse_line s.
Proof.
  unfold parse_line. rewrite cut_strip.
  destruct (cut ":" s) as [[a b]|]; [|reflexivity].
  now rewrite strip_lstrip, strip_rstrip.
Qed.

End CutFacts.

(** ** The monad *)
Section MonadFacts.
Context {W : Type} `{Oracle W}.

Lemma out_eta {A} (o : Out W A) :
  mkOut (res o) (out_self o) (out_world o) (trace o) = o.
Proof. now destruct o. Qed.

Lemma prepend_out {A} t (r : Result A) (s : Self) (w : W) t' :
  prepend t (mkOut r s w t') = mkOut r s w (t ++ t').
Proof. reflexivity. Qed.

Lemma prepend_nil {A} (o : Out W A) : prepend [] o = o.
Proof. now destruct o. Qed.

Lemma prepend_prepend {A} t t' (o : Out W A) :
  prepend t (prepend t' o) = prepend (t ++ t') o.
Proof. unfold prepend. cbn. now rewrite app_assoc. Qed.

Lemma bind_ok {A B} (m : M W A) (k : A -> M W B) s w a s1 w1 t1 :
  m s w = mkOut (Ok a) s1 w1 t1 ->
  bind m k s w = prepend t1 (k a s1 w1).
Proof. intros E. unfold bind. now rewrite E. Qed.

Lemma bind_lift_ok {A B} (a : A) (k : A -> M W B) s w :
  bind (lift (Ok a)) k s w = k a s w.
Proof. unfold bind, lift. cbn. apply prepend_nil. Qed.

Lemma bind_ret {A B} (a : A) (k : A -> M W B) s w : bind (ret a) k s w = k a s w.
Proof. unfold bind, ret. cbn. apply prepend_nil. Qed.

Lemma bind_log {B} lvl msg (k : unit -> M W B) s w :
  bind (log lvl msg) k s w = prepend [EvLog lvl msg] (k tt s w).
Proof. reflexivity. Qed.

Lemma bind_raise {A B} (m : M W A) (k : A -> M W B) s w e s1 w1 t1 :
  m s w = mkOut (Raise e) s1 w1 t1 ->
  bind m k s w = mkOut (Raise e) s1 w1 t1.
Proof. intros E. unfold bind. now rewrite E. Qed.

Lemma try_except_ok {A} (body : M W A) catches handler s w a :
  res (body s w) = Ok a -> try_except body catches handler s w = body s w.
Proof. intros E. unfold try_except. now rewrite E. Qed.

Lemma try_except_caught {A} (body : M W A) catches handler s w e :
  res (body s w) = Raise e -> catches e = true ->
  try_except body catches handler s w
  = prepend (trace (body s w))
      (handler e (out_self (body s w)) (out_world (body s w))).
Proof. intros E C. unfold try_except. now rewrite E, C. Qed.

(** [except Exception] with a handler that returns lets nothing out. *)
Lemma try_except_total {A} (body : M W A) (handler : Exn -> M W A) s w :
  (forall e s' w', is_ok (res (handler e s' w')) = true) ->
  is_ok (res (try_except body is_Exception handler s w)) = true.
Proof.
  intros Hh. unfold try_except.
  destruct (res (body s w)) as [a|e] eqn:E; simpl.
  - now rewrite E.
  - apply Hh.
Qed.

End MonadFacts.

(** ** load_credentials *)
Section LoaderFacts.
Context {W : Type} `{Oracle W}.
Import LoaderSpec.

Lemma no_colon_parse line :
  no_colon line = match parse_line line with Some _ => false | None => true end.
Proof. unfold no_colon, parse_line. now destruct (cut ":" line) as [[a b]|]. Qed.

Lemma load_line_run line valid (s : Self) (w : W) :
  load_line line (valid, list_to_set valid) s w
  = let valid' := match parse_line line with
                  | Some x => append_unseen valid x
                  | None => valid
                  end in
    mkOut (Ok (valid', list_to_set valid')) s w
          (if no_colon line then [warn line] else []).
Proof.
  unfold load_line, parse_line, no_colon.
  rewrite CutFacts.contains_char_cut.
  destruct (cut ":" line) as [[a b]|] eqn:E; [|reflexivity].
  rewrite (CutFacts.split1_cut _ _ _ _ E). cbv zeta. unfold append_unseen.
  destruct (decide ((PyStr.strip a, PyStr.strip b) ∈ valid)) as [Hin|Hin].
  - rewrite !decide_True by (try apply elem_of_list_to_set; exact Hin).
    reflexivity.
  - rewrite !decide_False by (rewrite ?elem_of_list_to_set; exact Hin).
    unfold ret. now rewrite list_to_set_snoc_L.
Qed.

Lemma load_lines_run lines valid (s : Self) (w : W) :
  load_lines lines (valid, list_to_set valid) s w
  = let valid' := foldl append_unseen valid (omap parse_line lines) in
    mkOut (Ok (valid', list_to_set valid')) s w
          (map warn (List.filter no_colon lines)).
Proof.
  revert valid. induction lines as [|line rest IH]; intros valid; [reflexivity|].
  simpl load_lines. erewrite bind_ok by apply load_line_run.
  rewrite IH. cbv zeta.
  cbn [res out_self out_world trace omap list_omap List.filter].
  rewrite (no_colon_parse line).
  destruct (parse_line line) as [x|]; reflexivity.
Qed.

Lemma first_seen_filter valid new :
  foldl append_unseen valid new
  = (valid ++ filter (λ y, y ∉ valid) (first_seen new))%list.
Proof.
  revert valid. induction new as [|x new IH]; intros valid; simpl.
  - now rewrite app_nil_r.
  - rewrite IH. unfold append_unseen.
    destruct (decide (x ∈ valid)) as [Hin|Hin].
    + rewrite filter_cons_False by (intros HH; exact (HH Hin)).
      rewrite list_filter_filter. f_equal.
      apply list_filter_iff. intros y. split; [|intros [Hy _]; exact Hy].
      intros Hy. split; [exact Hy|]. intros ->. exact (Hy Hin).
    + rewrite filter_cons_True by exact Hin.
      rewrite <- app_assoc. simpl. do 2 f_equal.
      rewrite list_filter_filter.
      apply list_filter_iff. intros y.
      rewrite elem_of_app, list_elem_of_singleton. tauto.
Qed.

Lemma first_seen_fold new : foldl append_unseen [] new = first_seen new.
Proof.
  rewrite first_seen_filter. simpl.
  induction (first_seen new) as [|x l IH]; [reflexivity|].
  rewrite filter_cons_True by apply not_elem_of_nil. now f_equal.
Qed.

Lemma first_seen_elem l x : x ∈ first_seen l ↔ x ∈ l.
Proof.
  induction l as [|y l IH]; simpl; [reflexivity|].
  rewrite !elem_of_cons, list_elem_of_filter, IH.
  destruct (decide (x = y)); tauto.
Qed.

Lemma first_seen_NoDup l : NoDup (first_seen l).
Proof.
  induction l as [|y l IH]; simpl; constructor.
  - rewrite list_elem_of_filter. tauto.
  - now apply NoDup_filter.
Qed.

Lemma no_colon_strip line : no_colon (PyStr.strip line) = no_colon line.
Proof.
  unfold no_colon. rewrite CutFacts.cut_strip.
  now destruct (cut ":" line) as [[a b]|].
Qed.

Lemma stripped_lines_cons line raw :
  stripped_lines (line :: raw)
  = if blank line then stripped_lines raw
    else PyStr.strip line :: stripped_lines raw.
Proof.
  unfold stripped_lines. cbn [List.filter].
  rewrite PyStrFacts.truthy_strip. fold (blank line).
  now destruct (blank line).
Qed.

Lemma non_blank_cons line raw :
  non_blank (line :: raw)
  = if blank line then non_blank raw else line :: non_blank raw.
Proof. unfold non_blank. cbn [List.filter]. now destruct (blank line). Qed.

Lemma parsed_stripped raw :
  omap parse_line (stripped_lines raw) = omap parse_line (non_blank raw).
Proof.
  induction raw as [|line raw IH]; [reflexivity|].
  rewrite stripped_lines_cons, non_blank_cons.
  destruct (blank line); [exact IH|].
  cbn [omap list_omap]. fold (omap parse_line (stripped_lines raw)).
  fold (omap parse_line (non_blank raw)).
  now rewrite CutFacts.parse_line_strip, IH.
Qed.

Lemma malformed_stripped raw :
  List.filter no_colon (stripped_lines raw) = malformed raw.
Proof.
  unfold malformed. fold no_colon.
  induction raw as [|line raw IH]; [reflexivity|].
  rewrite stripped_lines_cons, non_blank_cons.
  destruct (blank line); [exact IH|].
  cbn [List.filter]. rewrite no_colon_strip.
  destruct (no_colon line); cbn [map]; now rewrite IH.
Qed.


Lemma query_run {T} (q : Query T) (s : Self) (w : W) :
  query q s w = mkOut (Ok (fst (env q w))) s (snd (env q w)) [EvQuery q (fst (env q w))].
Proof. reflexivity. Qed.

Lemma call_ok {T} (c : Call T) (s : Self) (w : W) a :
  fst (ext c w) = Ok a ->
  call c s w = mkOut (Ok a) s (snd (ext c w)) [EvCall c (Ok a)].
Proof. intros E. unfold call. cbv zeta. now rewrite E. Qed.

Lemma logged_warn lines :
  logged WARNING (map warn lines) = map InvalidFormatInLine lines.
Proof. induction lines as [|l ls IH]; [reflexivity|]. cbn. now f_equal. Qed.

Lemma load_credentials_run (s : Self) (w : W) (raw : list string) :
  fst (env (PathExists LOGIN_FILE) w) = true ->
  fst (ext (FileReadLines LOGIN_FILE) (snd (env (PathExists LOGIN_FILE) w))) = Ok raw ->
  load_credentials s w
  = mkOut (Ok tt) (set_credentials_list (pairs raw) s)
      (snd (ext (FileReadLines LOGIN_FILE) (snd (env (PathExists LOGIN_FILE) w))))
      ([EvQuery (PathExists LOGIN_FILE) true; EvCall (FileReadLines LOGIN_FILE) (Ok raw)]
       ++ map warn (malformed raw)
       ++ [EvLog INFO (LoadedCredentials (length (pairs raw)))]).
Proof.
  intros Hex Hread. unfold load_credentials.
  erewrite bind_ok by apply query_run. rewrite Hex. cbn [negb].
  erewrite bind_ok by (apply call_ok; exact Hread).
  erewrite bind_ok by (apply (load_lines_run _ [])).
  cbv zeta. cbn [fst].
  rewrite parsed_stripped, first_seen_fold, malformed_stripped.
  fold (pairs raw). reflexivity.
Qed.

(** C3.  Whatever the file holds, [load_credentials] leaves in
    [credentials_list] the pairs obtained by splitting each non-blank line
    at its first colon and trimming both parts, without the lines that
    have no colon (one warning each) and with every pair kept once, at the
    place it was first seen.  The file [a:b], [a:b], [c:d], [badline]
    gives [(a,b)], [(c,d)] and one warning. *)
Theorem load_credentials_pairs (s : Self) (w : W) (raw : list string) :
  fst (env (PathExists LOGIN_FILE) w) = true ->
  fst (ext (FileReadLines LOGIN_FILE) (snd (env (PathExists LOGIN_FILE) w))) = Ok raw ->
  let o := load_credentials s w in
  res o = Ok tt
  /\ credentials_list (out_self o) = pairs raw
  /\ logged WARNING (trace o) = map InvalidFormatInLine (malformed raw)
  /\ NoDup (credentials_list (out_self o))
  /\ (forall p, p ∈ credentials_list (out_self o)
                <-> exists line, line ∈ raw /\ blank line = false
                                 /\ parse_line line = Some p)
  /\ (raw = ["a:b"; "a:b"; "c:d"; "badline"] ->
      credentials_list (out_self o) = [("a", "b"); ("c", "d")]
      /\ logged WARNING (trace o) = [InvalidFormatInLine "badline"]).
Proof.
  intros Hex Hread o. subst o.
  rewrite (load_credentials_run s w raw Hex Hread).
  cbn [res out_self trace credentials_list set_credentials_list].
  assert (Hlog : logged WARNING
                   ([EvQuery (PathExists LOGIN_FILE) true;
                     EvCall (FileReadLines LOGIN_FILE) (Ok raw)]
                    ++ map warn (malformed raw)
                    ++ [EvLog INFO (LoadedCredentials (length (pairs raw)))])
                 = map InvalidFormatInLine (malformed raw)).
  { unfold logged. rewrite !omap_app. cbn.
    fold (logged WARNING (map warn (malformed raw))).
    now rewrite logged_warn, app_nil_r. }
  repeat split.
  - exact Hlog.
  - apply first_seen_NoDup.
  - unfold pairs. rewrite first_seen_elem, list_elem_of_omap.
    intros (line & Hin & Hp). exists line.
    unfold non_blank in Hin. apply list_elem_of_In, filter_In in Hin as [Hin Hb].
    apply list_elem_of_In in Hin. apply negb_true_iff in Hb. auto.
  - intros (line & Hin & Hb & Hp).
    unfold pairs. rewrite first_seen_elem, list_elem_of_omap.
    exists line. split; [|exact Hp].
    unfold non_blank. apply list_elem_of_In, filter_In.
    split; [now apply list_elem_of_In|]. now rewrite Hb.
  - subst raw. now vm_compute.
  - rewrite Hlog. subst raw. now vm_compute.
Qed.

End LoaderFacts.

Lemma load_credentials_pairs_witness :
  credentials_list (out_self (load_credentials Sim.fresh four_lines))
  = [("a", "b"); ("c", "d")].
Proof.
  pose proof (load_credentials_pairs Sim.fresh four_lines
                ["a:b"; "a:b"; "c:d"; "badline"] eq_refl eq_refl) as Hl.
  cbv zeta in Hl.
  destruct Hl as (_ & _ & _ & _ & _ & Hfour).
  exact (proj1 (Hfour eq_refl)).
Defined.

(** ** Shapes of computations *)
Section ShapeFacts.
Context {W : Type} `{Oracle W}.
Variable I : Self -> Self -> list Event -> Prop.
Hypothesis I_refl : forall s, I s s [].
Hypothesis I_trans :
  forall s1 s2 s3 t1 t2, I s1 s2 t1 -> I s2 s3 t2 -> I s1 s3 (t1 ++ t2).

Lemma respects_ret {A} (a : A) : respects (W:=W) I (ret a).
Proof. intros s w. apply I_refl. Qed.

Lemma respects_raise {A} e : respects (W:=W) (A:=A) I (raise e).
Proof. intros s w. apply I_refl. Qed.

Lemma respects_lift {A} (r : Result A) : respects (W:=W) I (lift r).
Proof. intros s w. apply I_refl. Qed.

Lemma respects_get_self : respects (W:=W) I get_self.
Proof. intros s w. apply I_refl. Qed.

Lemma respects_bind {A B} (m : M W A) (k : A -> M W B) :
  respects I m -> (forall a, respects I (k a)) -> respects I (bind m k).
Proof.
  intros Hm Hk s w. unfold bind. specialize (Hm s w).
  destruct (m s w) as [[a|e] s1 w1 t1]; cbn in *; [|exact Hm].
  eapply I_trans; [exact Hm | apply Hk].
Qed.

Lemma respects_try_except {A} (body : M W A) catches handler :
  respects I body -> (forall e, respects I (handler e)) ->
  respects I (try_except body catches handler).
Proof.
  intros Hb Hh s w. unfold try_except. specialize (Hb s w).
  destruct (body s w) as [[a|e] s1 w1 t1]; cbn in *; [exact Hb|].
  destruct (catches e); cbn; [|exact Hb].
  eapply I_trans; [exact Hb | apply Hh].
Qed.

Lemma respects_try_finally {A} (body : M W A) fin :
  respects I body -> respects I fin -> respects I (try_finally body fin).
Proof.
  intros Hb Hf s w. unfold try_finally. cbn.
  eapply I_trans; [apply Hb | apply Hf].
Qed.

Lemma respects_call {T} (c : Call T) :
  (forall s r, I s s [EvCall c r]) -> respects (W:=W) I (call c).
Proof. intros Hc s w. apply Hc. Qed.

Lemma respects_query {T} (q : Query T) :
  (forall s v, I s s [EvQuery q v]) -> respects (W:=W) I (query q).
Proof. intros Hq s w. apply Hq. Qed.

Lemma respects_log lvl msg :
  (forall s, I s s [EvLog lvl msg]) -> respects (W:=W) I (log lvl msg).
Proof. intros Hl s w. apply Hl. Qed.

End ShapeFacts.

Section ResultFacts.
Context {W : Type} `{Oracle W}.

Lemma yields_ret {A} (Q : A -> Prop) a : Q a -> yields (W:=W) Q (ret a).
Proof. intros Ha s w b [= <-]. exact Ha. Qed.

Lemma yields_raise {A} (Q : A -> Prop) e : yields (W:=W) Q (raise e).
Proof. intros s w b [=]. Qed.

Lemma yields_bind {A B} (Q : B -> Prop) (m : M W A) (k : A -> M W B) :
  (forall a, yields Q (k a)) -> yields Q (bind m k).
Proof.
  intros Hk s w b. unfold bind.
  destruct (m s w) as [[a|e] s1 w1 t1]; cbn; [apply Hk | discriminate].
Qed.

Lemma yields_try_except {A} (Q : A -> Prop) (body : M W A) catches handler :
  yields Q body -> (forall e, yields Q (handler e)) ->
  yields Q (try_except body catches handler).
Proof.
  intros Hb Hh s w b. unfold try_except.
  destruct (body s w) as [[a|e] s1 w1 t1] eqn:E; cbn.
  - intros [= <-]. apply (Hb s w). now rewrite E.
  - destruct (catches e); cbn; [apply Hh | discriminate].
Qed.

Lemma yields_try_finally {A} (Q : A -> Prop) (body : M W A) fin :
  yields Q body -> yields Q (try_finally body fin).
Proof.
  intros Hb s w b. unfold try_finally. cbn.
  destruct (res (fin _ _)); [apply Hb | discriminate].
Qed.

Lemma never_raises_ret {A} (a : A) : never_raises (W:=W) (ret a).
Proof. intros s w. reflexivity. Qed.

Lemma never_raises_query {T} (q : Query T) : never_raises (W:=W) (query q).
Proof. intros s w. reflexivity. Qed.

Lemma never_raises_log lvl msg : never_raises (W:=W) (log lvl msg).
Proof. intros s w. reflexivity. Qed.

Lemma never_raises_emit e : never_raises (W:=W) (emit e).
Proof. intros s w. reflexivity. Qed.

Lemma never_raises_modify f : never_raises (W:=W) (modify f).
Proof. intros s w. reflexivity. Qed.

Lemma never_raises_get_self : never_raises (W:=W) get_self.
Proof. intros s w. reflexivity. Qed.

Lemma never_raises_bind {A B} (m : M W A) (k : A -> M W B) :
  never_raises m -> (forall a, never_raises (k a)) -> never_raises (bind m k).
Proof.
  intros Hm Hk s w. unfold bind. specialize (Hm s w).
  destruct (m s w) as [[a|e] s1 w1 t1]; cbn in *; [apply Hk | discriminate].
Qed.

(** [except Exception] (or a bare [except]) with a handler that returns. *)
Lemma never_raises_try_except {A} (body : M W A) (handler : Exn -> M W A) :
  (forall e, never_raises (handler e)) -> never_raises (try_except body is_Exception handler).
Proof.
  intros Hh s w. unfold try_except.
  destruct (body s w) as [[a|e] s1 w1 t1]; cbn; [reflexivity | apply Hh].
Qed.

Lemma never_raises_try_finally {A} (body : M W A) fin :
  never_raises body -> never_raises fin -> never_raises (try_finally body fin).
Proof.
  intros Hb Hf s w. unfold try_finally. cbn.
  specialize (Hf (out_self (body s w)) (out_world (body s w))).
  destruct (res (fin _ _)); [apply Hb | discriminate].
Qed.

Lemma never_raises_ok {A} (m : M W A) s w : never_raises m -> exists a, res (m s w) = Ok a.
Proof. intros Hm. specialize (Hm s w). destruct (res (m s w)); [eauto | discriminate]. Qed.

End ResultFacts.

(** ** solve_captcha *)

Lemma sleepless_refl s : sleepless s s [].
Proof. reflexivity. Qed.

Lemma sleepless_trans s1 s2 s3 t1 t2 :
  sleepless s1 s2 t1 -> sleepless s2 s3 t2 -> sleepless s1 s3 (t1 ++ t2).
Proof. unfold sleepless. intros H1 H2. now rewrite forallb_app, H1, H2. Qed.

Lemma same_session_refl s : same_session s s [].
Proof. now repeat split. Qed.

Lemma same_session_trans s1 s2 s3 t1 t2 :
  same_session s1 s2 t1 -> same_session s2 s3 t2 -> same_session s1 s3 (t1 ++ t2).
Proof.
  intros (D1 & A1 & T1) (D2 & A2 & T2). repeat split; [congruence | congruence |].
  now rewrite forallb_app, T1, T2.
Qed.

(** Goals [respects I m] for a relation [I] with the two lemmas above, by
    following the structure of [m]. *)
Ltac respects_with refl trans :=
  repeat first
    [ progress intros
    | apply respects_ret; exact refl
    | apply respects_raise; exact refl
    | apply respects_lift; exact refl
    | apply respects_get_self; exact refl
    | apply respects_bind; [exact trans | | ]
    | apply respects_try_except; [exact trans | | ]
    | apply respects_try_finally; [exact trans | | ]
    | apply respects_call; intros; now repeat split
    | apply respects_query; intros; now repeat split
    | apply respects_log; intros; now repeat split
    | match goal with
      | |- respects _ (match ?x with _ => _ end) => destruct x
      end ].

Ltac yields_step :=
  first
    [ progress intros
    | apply yields_bind
    | apply yields_try_except
    | apply yields_try_finally
    | apply yields_raise
    | match goal with
      | |- yields _ (if ?b then _ else _) => destruct b eqn:?
      | |- yields _ (match ?x with _ => _ end) => destruct x
      end ].

Ltac never_raises_step :=
  first
    [ progress intros
    | apply never_raises_ret
    | apply never_raises_query
    | apply never_raises_log
    | apply never_raises_emit
    | apply never_raises_modify
    | apply never_raises_get_self
    | apply never_raises_bind
    | apply never_raises_try_except
    | apply never_raises_try_finally
    | match goal with
      | |- never_raises (if ?b then _ else _) => destruct b
      | |- never_raises (match ?x with _ => _ end) => destruct x
      end ].

Section SolveFacts.
Context {W : Type} `{Oracle W}.

Lemma sleep_uniform_never_raises a b : never_raises (W:=W) (sleep_uniform a b).
Proof. unfold sleep_uniform. repeat never_raises_step. Qed.

Lemma unlink_quietly_never_raises p : never_raises (W:=W) (unlink_quietly p).
Proof. unfold unlink_quietly. repeat never_raises_step. Qed.

(** Nothing escapes an iteration of the retry loop. *)
Lemma captcha_iteration_never_raises retry : never_raises (W:=W) (captcha_iteration retry).
Proof.
  unfold captcha_iteration, captcha_iteration_handler, sleep_uniform.
  repeat never_raises_step.
Qed.

Lemma solve_captcha_loop_never_raises retries :
  never_raises (W:=W) (solve_captcha_loop retries).
Proof.
  induction retries as [|retry rest IH]; simpl.
  - repeat never_raises_step.
  - apply never_raises_bind; [apply captcha_iteration_never_raises|].
    intros [| |t]; [exact IH | exact IH | apply never_raises_ret].
Qed.

(** Only the inner [try] sleeps nowhere: every pause of an iteration is the
    one of the outer handler. *)
Lemma captcha_iteration_body_sleepless retry :
  respects (W:=W) sleepless (captcha_iteration_body retry).
Proof.
  unfold captcha_iteration_body, the_driver, download_captcha, save_captcha,
    ocr_and_cleanup, ocr_block, ocr_request, parse_ocr_result, unlink_quietly.
  respects_with sleepless_refl sleepless_trans.
Qed.

(** The solver never touches [self.driver] or [self.session_active]. *)
Lemma solve_captcha_loop_same_session retries :
  respects (W:=W) same_session (solve_captcha_loop retries).
Proof.
  induction retries as [|retry rest IH]; simpl.
  - respects_with same_session_refl same_session_trans.
  - apply respects_bind; [exact same_session_trans | | ].
    + unfold captcha_iteration, captcha_iteration_handler, sleep_uniform,
        captcha_iteration_body, the_driver, download_captcha, save_captcha,
        ocr_and_cleanup, ocr_block, ocr_request, parse_ocr_result, unlink_quietly.
      respects_with same_session_refl same_session_trans.
    + intros [| |t]; [exact IH | exact IH |].
      apply respects_ret. exact same_session_refl.
Qed.

Lemma filter_chars_all p s : PyStr.all_chars p (PyStr.filter_chars p s) = true.
Proof.
  induction s as [|c s IH]; simpl; [reflexivity|].
  destruct (p c) eqn:E; simpl; [now rewrite E|exact IH].
Qed.

Lemma captcha_iteration_five_digits retry :
  yields (W:=W) five_digits (captcha_iteration retry).
Proof.
  unfold captcha_iteration, captcha_iteration_handler, captcha_iteration_body,
    download_captcha, save_captcha, ocr_and_cleanup, ocr_block, ocr_request,
    parse_ocr_result.
  repeat yields_step;
    try solve [apply yields_ret; intros t [=]].
  apply yields_ret. intros t [= <-].
  split; [|apply filter_chars_all].
  match goal with
  | E : negb _ = false |- _ => apply negb_false_iff, Nat.eqb_eq in E; exact E
  end.
Qed.


(** *** The retry loop *)

Lemma failed_iterations_loop pre s w t s1 w1 post :
  failed_iterations pre s w t s1 w1 ->
  solve_captcha_loop (pre ++ post) s w = prepend t (solve_captcha_loop post s1 w1).
Proof.
  induction 1 as [s w | retry rest s w t s' w' c Hres Hc Hrest IH].
  - cbn. now rewrite prepend_nil.
  - cbn [app solve_captcha_loop].
    erewrite bind_ok
      by (rewrite <- Hres; symmetry; apply out_eta).
    rewrite <- prepend_prepend. f_equal.
    destruct c as [| |text]; [exact IH | exact IH | now destruct (Hc text)].
Qed.

(** Every run of the loop is of one of two kinds. *)
Lemma solve_captcha_loop_cases retries (s : Self) (w : W) :
  (exists t s1 w1, failed_iterations retries s w t s1 w1)
  \/ (exists pre retry post t s1 w1 text,
        retries = (pre ++ retry :: post)%list
        /\ failed_iterations pre s w t s1 w1
        /\ res (captcha_iteration retry s1 w1) = Ok (Return text)).
Proof.
  revert s w. induction retries as [|retry rest IH]; intros s w.
  - left. exists [], s, w. constructor.
  - destruct (never_raises_ok (captcha_iteration retry) s w
                (captcha_iteration_never_raises retry)) as [c Hc].
    destruct c as [| |text].
    + destruct (IH (out_self (captcha_iteration retry s w))
                   (out_world (captcha_iteration retry s w)))
        as [(t & s1 & w1 & Hf) | (pre & r & post & t & s1 & w1 & text & -> & Hf & Hr)].
      * left. eexists _, s1, w1. eapply failed_cons; [exact Hc | discriminate | exact Hf].
      * right. exists (retry :: pre), r, post. eexists _, s1, w1, text.
        split; [reflexivity|]. split; [|exact Hr].
        eapply failed_cons; [exact Hc | discriminate | exact Hf].
    + destruct (IH (out_self (captcha_iteration retry s w))
                   (out_world (captcha_iteration retry s w)))
        as [(t & s1 & w1 & Hf) | (pre & r & post & t & s1 & w1 & text & -> & Hf & Hr)].
      * left. eexists _, s1, w1. eapply failed_cons; [exact Hc | discriminate | exact Hf].
      * right. exists (retry :: pre), r, post. eexists _, s1, w1, text.
        split; [reflexivity|]. split; [|exact Hr].
        eapply failed_cons; [exact Hc | discriminate | exact Hf].
    + right. exists [], retry, rest, [], s, w, text.
      split; [reflexivity|]. split; [constructor | exact Hc].
Qed.

(** C2.  When every iteration fails, whatever the reason, [solve_captcha]
    returns [None] after the [MAX_CAPTCHA_RETRIES] iterations of
    [range(MAX_CAPTCHA_RETRIES)] and nothing more than the final log line;
    when an iteration gets an accepted text, [solve_captcha] returns it at
    once: the run ends with the events of that iteration, the remaining
    retries are not started, and the text is five digits.  Every run is of
    one of these two kinds. *)
Theorem solve_captcha_retry_bound (s : Self) (w : W) :
  (forall t s1 w1,
      failed_iterations (seq 0 MAX_CAPTCHA_RETRIES) s w t s1 w1 ->
      length (seq 0 MAX_CAPTCHA_RETRIES) = MAX_CAPTCHA_RETRIES
      /\ solve_captcha s w
         = mkOut (Ok None) s1 w1 (t ++ [EvLog ERROR AllCaptchaAttemptsFailed]))
  /\ (forall pre retry post t s1 w1 text,
        seq 0 MAX_CAPTCHA_RETRIES = (pre ++ retry :: post)%list ->
        failed_iterations pre s w t s1 w1 ->
        res (captcha_iteration retry s1 w1) = Ok (Return text) ->
        solve_captcha s w
        = mkOut (Ok (Some text))
            (out_self (captcha_iteration retry s1 w1))
            (out_world (captcha_iteration retry s1 w1))
            (t ++ trace (captcha_iteration retry s1 w1))
        /\ String.length text = 5
        /\ PyStr.all_chars PyStr.isdigit text = true)
  /\ ((exists t s1 w1, failed_iterations (seq 0 MAX_CAPTCHA_RETRIES) s w t s1 w1)
      \/ (exists pre retry post t s1 w1 text,
            seq 0 MAX_CAPTCHA_RETRIES = (pre ++ retry :: post)%list
            /\ failed_iterations pre s w t s1 w1
            /\ res (captcha_iteration retry s1 w1) = Ok (Return text))).
Proof.
  split; [|split].
  - intros t s1 w1 Hf. split; [apply length_seq|].
    unfold solve_captcha.
    rewrite <- (app_nil_r (seq 0 MAX_CAPTCHA_RETRIES)).
    rewrite (failed_iterations_loop _ _ _ _ _ _ [] Hf). reflexivity.
  - intros pre retry post t s1 w1 text Hseq Hf Hr.
    split.
    + unfold solve_captcha. rewrite Hseq.
      rewrite (failed_iterations_loop _ _ _ _ _ _ (retry :: post) Hf).
      cbn [solve_captcha_loop].
      erewrite bind_ok by (rewrite <- Hr; symmetry; apply out_eta).
      unfold prepend, ret. cbn [res out_self out_world trace].
      now rewrite app_nil_r.
    + exact (captcha_iteration_five_digits retry s1 w1 _ Hr text eq_refl).
  - apply solve_captcha_loop_cases.
Qed.

End SolveFacts.

Lemma solve_captcha_retry_bound_witness :
  res (solve_captcha in_session (at_captcha ["1234"; "1234"])) = Ok None
  /\ res (solve_captcha in_session (at_captcha ["12 3-45"; "1234"])) = Ok (Some "12345").
Proof.
  split.
  - destruct (solve_captcha_retry_bound in_session (at_captcha ["1234"; "1234"]))
      as (Hall & _ & _).
    edestruct Hall as [_ Hrun]; [|now rewrite Hrun].
    eapply failed_cons with (c := Continue);
      [vm_compute; reflexivity | discriminate |].
    eapply failed_cons with (c := Continue);
      [vm_compute; reflexivity | discriminate |].
    apply failed_nil.
  - destruct (solve_captcha_retry_bound in_session (at_captcha ["12 3-45"; "1234"]))
      as (_ & Hfirst & _).
    destruct (Hfirst [] 0 [1] [] in_session (at_captcha ["12 3-45"; "1234"]) "12345"
                eq_refl (failed_nil _ _)) as (Hrun & _).
    + vm_compute. reflexivity.
    + now rewrite Hrun.
Defined.

(** *** Reading the OCR answer *)

Lemma space_not_digit c : PyStr.isspace c = true -> PyStr.isdigit c = false.
Proof.
  destruct c as [b0 b1 b2 b3 b4 b5 b6 b7].
  destruct b0, b1, b2, b3, b4, b5, b6, b7; vm_compute; congruence.
Qed.

Lemma filter_chars_cons p c s :
  PyStr.filter_chars p (String c s)
  = if p c then String c (PyStr.filter_chars p s) else PyStr.filter_chars p s.
Proof. reflexivity. Qed.

Lemma filter_digits_lstrip s :
  PyStr.filter_chars PyStr.isdigit (PyStr.lstrip s) = PyStr.filter_chars PyStr.isdigit s.
Proof.
  induction s as [|c s IH]; [reflexivity|]. simpl.
  destruct (PyStr.isspace c) eqn:E; [|reflexivity].
  now rewrite (space_not_digit c E).
Qed.

Lemma filter_digits_rstrip s :
  PyStr.filter_chars PyStr.isdigit (PyStr.rstrip s) = PyStr.filter_chars PyStr.isdigit s.
Proof.
  induction s as [|c s IH]; [reflexivity|].
  rewrite PyStrFacts.rstrip_cons.
  destruct (PyStr.rstrip s) as [|d r] eqn:E.
  - simpl in IH. simpl. rewrite <- IH.
    destruct (PyStr.isspace c) eqn:Hc; [|reflexivity].
    now rewrite (space_not_digit c Hc).
  - rewrite (filter_chars_cons _ c (String d r)), (filter_chars_cons _ c s).
    now rewrite IH.
Qed.

(** Trimming first drops no digit. *)
Lemma filter_digits_strip s :
  PyStr.filter_chars PyStr.isdigit (PyStr.strip s) = PyStr.filter_chars PyStr.isdigit s.
Proof. unfold PyStr.strip. now rewrite filter_digits_lstrip, filter_digits_rstrip. Qed.

Lemma chars_filter p s :
  PyStr.chars (PyStr.filter_chars p s) = List.filter p (PyStr.chars s).
Proof.
  induction s as [|c s IH]; [reflexivity|]. simpl.
  destruct (p c); simpl; now rewrite IH.
Qed.

Lemma getitem_str_contains result key v :
  Py.getitem_str result key = Ok v -> Py.contains_str key result = Ok true.
Proof.
  destruct result; try discriminate. simpl.
  now destruct (Py.assoc key d).
Qed.

Lemma getitem_0_len results first :
  Py.getitem_0 results = Ok first -> exists n, Py.len results = Ok (S n).
Proof.
  destruct results as [| | |s|l|d]; try discriminate; simpl.
  - destruct s; [discriminate|]. eauto.
  - destruct l; [discriminate|]. eauto.
Qed.

Section ExtractionFacts.
Context {W : Type} `{Oracle W}.

Lemma parse_ocr_result_run (retry : nat) (result : pyval) (payload : string)
    (s : Self) (w : W) :
  parsed_text result = Some payload ->
  parse_ocr_result retry result s w
  = let digits := PyStr.filter_chars PyStr.isdigit payload in
    if String.length digits =? 5
    then mkOut (Ok (Return digits)) s w [EvLog INFO (CaptchaSolved digits)]
    else mkOut (Ok Continue) s w
           [EvLog WARNING (InvalidCaptchaLength digits (retry + 1) MAX_CAPTCHA_RETRIES)].
Proof.
  unfold parsed_text, parse_ocr_result.
  destruct (Py.getitem_str result "IsErroredOnProcessing") as [errored|] eqn:E1;
    [|discriminate].
  destruct (Py.truthy errored) eqn:E2; [discriminate|].
  destruct (Py.getitem_str result "ParsedResults") as [results|] eqn:E3; [|discriminate].
  destruct (Py.getitem_0 results) as [first|] eqn:E4; [|discriminate].
  destruct (Py.getitem_str first "ParsedText") as [[| | |text| |]|] eqn:E5;
    try discriminate.
  intros [= ->].
  destruct (getitem_0_len _ _ E4) as [n E6].
  rewrite (getitem_str_contains _ _ _ E3).
  rewrite bind_lift_ok, E2, bind_lift_ok.
  erewrite (bind_ok (bind (lift (Ok results)) _))
    by (rewrite bind_lift_ok, E6, bind_lift_ok; reflexivity).
  rewrite prepend_nil. cbn [Nat.ltb Nat.leb].
  rewrite bind_lift_ok, E4, bind_lift_ok, E5, bind_lift_ok.
  cbn [Py.strip]. rewrite bind_lift_ok, filter_digits_strip. cbv zeta.
  destruct (String.length (PyStr.filter_chars PyStr.isdigit payload) =? 5);
    reflexivity.
Qed.

(** C5.  From the text the OCR service parsed, the solver keeps exactly the
    characters that are digits, in their order, and accepts the result if
    and only if it has five of them; otherwise the iteration ends with
    [continue].  ["12 3-45"] gives ["12345"], accepted; ["1234"] gives
    ["1234"], rejected. *)
Theorem captcha_text_extraction (retry : nat) (result : pyval) (payload : string)
    (s : Self) (w : W) :
  parsed_text result = Some payload ->
  let digits := PyStr.filter_chars PyStr.isdigit payload in
  let o := parse_ocr_result retry result s w in
  PyStr.chars digits = List.filter PyStr.isdigit (PyStr.chars payload)
  /\ (String.length digits = 5 <-> res o = Ok (Return digits))
  /\ (String.length digits <> 5 <-> res o = Ok Continue)
  /\ (String.length digits <> 5 ->
      trace o = [EvLog WARNING
                   (InvalidCaptchaLength digits (retry + 1) MAX_CAPTCHA_RETRIES)])
  /\ (payload = "12 3-45" -> digits = "12345" /\ res o = Ok (Return "12345"))
  /\ (payload = "1234" -> digits = "1234" /\ res o = Ok Continue).
Proof.
  intros Hp. cbv zeta.
  rewrite (parse_ocr_result_run retry result payload s w Hp). cbv zeta.
  split; [apply chars_filter|].
  remember (PyStr.filter_chars PyStr.isdigit payload) as digits eqn:Hd.
  destruct (String.length digits =? 5) eqn:E; cbn [res trace].
  - apply Nat.eqb_eq in E.
    split; [tauto|]. split; [split; [congruence | discriminate]|].
    split; [congruence|].
    split; intros ->; subst digits.
    + split; reflexivity.
    + vm_compute in E. discriminate.
  - apply Nat.eqb_neq in E.
    split; [split; [tauto | discriminate]|].
    split; [tauto|]. split; [reflexivity|].
    split; intros ->; subst digits.
    + vm_compute in E. congruence.
    + split; reflexivity.
Qed.

End ExtractionFacts.

Lemma captcha_text_extraction_witness :
  res (parse_ocr_result 0 (PDict [("ParsedResults", PList [PDict [("ParsedText", PStr "12 3-45")]]);
                                  ("IsErroredOnProcessing", PBool false)])
         in_session (at_captcha []))
  = Ok (Return "12345").
Proof.
  exact (proj2 (proj1 (proj2 (proj2 (proj2 (proj2
    (captcha_text_extraction 0
       (PDict [("ParsedResults", PList [PDict [("ParsedText", PStr "12 3-45")]]);
               ("IsErroredOnProcessing", PBool false)])
       "12 3-45" in_session (at_captcha []) eq_refl)))))
    eq_refl)).
Defined.

(** *** Pauses between retries *)

Lemma sleepless_slept (s s' : Self) t : sleepless s s' t -> slept t = false.
Proof.
  unfold sleepless, slept. induction t as [|e t IH]; [reflexivity|].
  cbn. intros Hall. apply andb_true_iff in Hall as [He Ht].
  apply negb_true_iff in He. now rewrite He, IH.
Qed.

Section PauseFacts.
Context {W : Type} `{Oracle W}.

Lemma captcha_iteration_handler_run retry e (s : Self) (w : W) :
  captcha_iteration_handler retry e s w
  = if retry <? MAX_CAPTCHA_RETRIES - 1
    then mkOut (Ok Normal) s
           (snd (env (Sleep (fst (env (RandomUniform 2 5) w)))
                   (snd (env (RandomUniform 2 5) w))))
           [EvLog ERROR (UnexpectedCaptchaError (retry + 1) (exn_str e));
            EvQuery (RandomUniform 2 5) (fst (env (RandomUniform 2 5) w));
            EvQuery (Sleep (fst (env (RandomUniform 2 5) w))) tt]
    else mkOut (Ok Normal) s w
           [EvLog ERROR (UnexpectedCaptchaError (retry + 1) (exn_str e))].
Proof.
  unfold captcha_iteration_handler.
  destruct (retry <? MAX_CAPTCHA_RETRIES - 1); cbn; [|reflexivity].
  now destruct (env (Sleep (fst (env (RandomUniform 2 5) w)))
                  (snd (env (RandomUniform 2 5) w))) as [[] w'].
Qed.

Lemma ocr_and_cleanup_never_raises retry p : never_raises (W:=W) (ocr_and_cleanup retry p).
Proof.
  unfold ocr_and_cleanup, unlink_quietly. repeat never_raises_step.
Qed.

(** A download that fails with a [requests] error makes the iteration
    [continue]. *)
Lemma download_failure_continues src (s : Self) (w : W) e :
  fst (ext (RequestsGet src 10) w) = Raise e ->
  is_RequestException e = true ->
  download_captcha src s w
  = mkOut (Ok None) s (snd (ext (RequestsGet src 10) w))
      [EvCall (RequestsGet src 10) (Raise e);
       EvLog ERROR (FailedToDownloadCaptcha (exn_str e))].
Proof.
  intros E C. unfold download_captcha, try_except, bind, call.
  destruct (ext (RequestsGet src 10) w) as [r w1]. cbn in *. subst r.
  cbn. now rewrite C.
Qed.

(** C9, as the code has it.  The inner part of an iteration never sleeps.
    An iteration that ends without an exception reaching the outer handler
    (missing image source, download refused, image not saved, and all that
    can happen once the image is saved: processing error, empty payload,
    rejected length, exception in the OCR block) goes on to the next retry
    with no pause; an exception that reaches the outer handler is logged
    and followed by one pause drawn from [2, 5] when a retry remains. *)
Theorem pause_only_after_unexpected_error (retry : nat) (s : Self) (w : W) :
  let body := captcha_iteration_body retry s w in
  let o := captcha_iteration retry s w in
  slept (trace body) = false
  /\ (forall c, res body = Ok c -> o = body /\ slept (trace o) = false)
  /\ (forall e, res body = Raise e ->
      let pause := fst (env (RandomUniform 2 5) (out_world body)) in
      res o = Ok Normal
      /\ trace o
         = (trace body
            ++ EvLog ERROR (UnexpectedCaptchaError (retry + 1) (exn_str e))
               :: (if retry <? MAX_CAPTCHA_RETRIES - 1
                   then [EvQuery (RandomUniform 2 5) pause; EvQuery (Sleep pause) tt]
                   else []))%list)
  /\ (forall p, never_raises (W:=W) (ocr_and_cleanup retry p))
  /\ (forall src s' (w' : W) e,
        fst (ext (RequestsGet src 10) w') = Raise e ->
        is_RequestException e = true ->
        res (download_captcha src s' w') = Ok None
        /\ slept (trace (download_captcha src s' w')) = false).
Proof.
  cbv zeta.
  assert (Hbody : slept (trace (captcha_iteration_body retry s w)) = false).
  { eapply sleepless_slept. apply (captcha_iteration_body_sleepless retry s w). }
  split; [exact Hbody|]. split; [|split; [|split]].
  - intros c Hc. unfold captcha_iteration.
    rewrite (try_except_ok _ _ _ _ _ _ Hc). now split.
  - intros e He. unfold captcha_iteration.
    rewrite (try_except_caught _ _ _ _ _ _ He eq_refl).
    rewrite captcha_iteration_handler_run.
    destruct (retry <? MAX_CAPTCHA_RETRIES - 1); now split.
  - intros p. apply ocr_and_cleanup_never_raises.
  - intros src s' w' e E C.
    rewrite (download_failure_continues src s' w' e E C). now split.
Qed.

End PauseFacts.

Lemma pause_only_after_unexpected_error_witness :
  slept (trace (captcha_iteration 0 in_session (at_captcha ["1234"; "1234"]))) = false
  /\ slept (trace (captcha_iteration 0 in_session Sim.quiet)) = true.
Proof.
  split.
  - destruct (pause_only_after_unexpected_error 0 in_session (at_captcha ["1234"; "1234"]))
      as (_ & Hquiet & _).
    exact (proj2 (Hquiet Continue eq_refl)).
  - destruct (pause_only_after_unexpected_error 0 in_session Sim.quiet)
      as (_ & _ & Hloud & _).
    destruct (Hloud Sim.invalid_session eq_refl) as [_ Htrace].
    rewrite Htrace. reflexivity.
Defined.

(** The two retries of this run are rejected for their length and nothing
    sleeps between them. *)
Lemma rejected_retries_without_pause :
  let o := solve_captcha in_session (at_captcha ["1234"; "1234"]) in
  res (captcha_iteration 0 in_session (at_captcha ["1234"; "1234"])) = Ok Continue
  /\ res o = Ok None
  /\ logged WARNING (trace o)
     = [InvalidCaptchaLength "1234" 1 2; InvalidCaptchaLength "1234" 2 2]
  /\ slept (trace o) = false.
Proof. vm_compute. repeat split. Qed.

Lemma no_pause_after_rejected_length :
  ~ pause_before_next_retry in_session (at_captcha ["1234"; "1234"]) 0.
Proof.
  intros Hpause.
  assert (Hslept : slept (trace (captcha_iteration 0 in_session
                                   (at_captcha ["1234"; "1234"]))) = true).
  { apply Hpause; [unfold MAX_CAPTCHA_RETRIES; lia|]. intros text. vm_compute. discriminate. }
  vm_compute in Hslept. discriminate.
Qed.

(** *** The temporary image file *)

Lemma no_temp_file_refl s : no_temp_file s s [].
Proof. now repeat split. Qed.

Lemma no_temp_file_trans s1 s2 s3 t1 t2 :
  no_temp_file s1 s2 t1 -> no_temp_file s2 s3 t2 -> no_temp_file s1 s3 (t1 ++ t2).
Proof.
  unfold no_temp_file, created, written, closed, unlink_calls.
  intros (A1 & B1 & C1 & D1) (A2 & B2 & C2 & D2).
  rewrite !omap_app, A1, B1, C1, D1, A2, B2, C2, D2. now repeat split.
Qed.

Lemma created_app t1 t2 : created (t1 ++ t2) = (created t1 ++ created t2)%list.
Proof. apply omap_app. Qed.

Lemma written_app t1 t2 : written (t1 ++ t2) = (written t1 ++ written t2)%list.
Proof. apply omap_app. Qed.

Lemma closed_app t1 t2 : closed (t1 ++ t2) = (closed t1 ++ closed t2)%list.
Proof. apply omap_app. Qed.

Lemma unlink_calls_app t1 t2 :
  unlink_calls (t1 ++ t2) = (unlink_calls t1 ++ unlink_calls t2)%list.
Proof. apply omap_app. Qed.

Lemma unlinked_app t1 t2 : unlinked (t1 ++ t2) = (unlinked t1 ++ unlinked t2)%list.
Proof. apply omap_app. Qed.

Lemma unlinked_none t : unlink_calls t = [] -> unlinked t = [].
Proof.
  induction t as [|e t IH]; [reflexivity|].
  destruct e as [T c r| | |]; try exact IH.
  destruct c; try exact IH. discriminate.
Qed.

Section TempFileFacts.
Context {W : Type} `{Oracle W}.

Lemma unlink_quietly_run p (s : Self) (w : W) :
  unlink_quietly p s w
  = mkOut (Ok tt) s (snd (ext (Unlink p) w)) [EvCall (Unlink p) (fst (ext (Unlink p) w))].
Proof.
  unfold unlink_quietly, try_except, call. cbn.
  destruct (ext (Unlink p) w) as [[[]|e] w']; cbn; reflexivity.
Qed.

(** Lines 155-193 without the [finally]. *)
Lemma ocr_guarded_no_temp_file retry p :
  respects (W:=W) no_temp_file
    (try_except (ocr_block retry p) is_Exception
       (fun e => bind (log ERROR (OcrApiError (exn_str e))) (fun _ => ret Normal))).
Proof.
  unfold ocr_block, ocr_request, parse_ocr_result.
  respects_with no_temp_file_refl no_temp_file_trans.
Qed.

(** Whatever the OCR block does (return, [continue], fall through, raise),
    the block ends with the call of [os.unlink] on the file, and nothing
    escapes. *)
Lemma ocr_and_cleanup_run retry p (s : Self) (w : W) :
  exists c t s1 w1,
    ocr_and_cleanup retry p s w
    = mkOut (Ok c) s1 (snd (ext (Unlink p) w1))
        (t ++ [EvCall (Unlink p) (fst (ext (Unlink p) w1))])
    /\ no_temp_file s s1 t.
Proof.
  unfold ocr_and_cleanup, try_finally.
  pose proof (ocr_guarded_no_temp_file retry p s w) as Hno.
  assert (Hok : is_ok (res (try_except (ocr_block retry p) is_Exception
                   (fun e => bind (log ERROR (OcrApiError (exn_str e)))
                               (fun _ => ret Normal)) s w)) = true).
  { apply never_raises_try_except. intros e. repeat never_raises_step. }
  destruct (try_except _ _ _ s w) as [[c|e] s1 w1 t]; [|discriminate].
  cbn in Hno. exists c, t, s1, w1. split; [|exact Hno].
  cbn [res out_self out_world trace]. rewrite unlink_quietly_run. reflexivity.
Qed.

Lemma save_then_cleanup_prepend retry t0 (o : Out W (Ctl string)) (s s' : Self) :
  no_temp_file s s' t0 -> save_then_cleanup retry o ->
  save_then_cleanup retry (prepend t0 o).
Proof.
  intros (A0 & B0 & C0 & D0) [[Hw | Hc] | (p & t & s1 & w1 & -> & A & B & C & D)].
  - left. left. cbn. unfold written in *. now rewrite omap_app, B0, Hw.
  - left. right. cbn. unfold closed in *. now rewrite omap_app, C0, Hc.
  - right. exists p, (t0 ++ t)%list, s1, w1.
    rewrite prepend_prepend.
    unfold created, written, closed, unlink_calls in *.
    rewrite !omap_app, A0, B0, C0, D0, A, B, C, D. now repeat split.
Qed.

Lemma save_then_cleanup_bind {A} retry (m : M W A) k (s : Self) (w : W) :
  respects no_temp_file m ->
  (forall a s1 w1, save_then_cleanup retry (k a s1 w1)) ->
  save_then_cleanup retry (bind m k s w).
Proof.
  intros Hm Hk. specialize (Hm s w).
  destruct (m s w) as [[a|e] s1 w1 t1] eqn:E; cbn in Hm.
  - erewrite bind_ok by exact E.
    eapply save_then_cleanup_prepend; [exact Hm | apply Hk].
  - erewrite bind_raise by exact E. left. left. apply Hm.
Qed.

Lemma save_then_cleanup_ret retry c (s : Self) (w : W) :
  save_then_cleanup retry (ret c s w).
Proof. left. now left. Qed.

(** Lines 146-152: a path is returned only for a file that was created,
    written and closed; in every other case the write or the close did not
    succeed. *)
Lemma save_captcha_cases response (s : Self) (w : W) :
  let o := save_captcha response s w in
  (exists p, res o = Ok (Some p)
             /\ created (trace o) = [p] /\ written (trace o) = [p]
             /\ closed (trace o) = [p] /\ unlink_calls (trace o) = [])
  \/ ((forall p, res o <> Ok (Some p))
      /\ (written (trace o) = [] \/ closed (trace o) = [])).
Proof.
  cbv zeta. unfold save_captcha, try_except.
  destruct (ext (TempCreate ".png") w) as [[p|e] w1] eqn:E1.
  - erewrite bind_ok by (unfold call; cbv zeta; rewrite E1; cbn [fst snd]; reflexivity).
    cbv beta.
    destruct (ext (TempWrite p (content response)) w1) as [[[]|e] w2] eqn:E2;
      destruct (ext (TempClose p) w2) as [[[]|e'] w3] eqn:E3.
    + erewrite bind_ok
        by (unfold try_finally, call, prepend; cbv beta zeta; rewrite E2;
            cbn [fst snd res out_self out_world trace]; rewrite E3;
            cbn [fst snd]; reflexivity).
      cbn. left. exists p. now repeat split.
    + erewrite bind_raise
        by (unfold try_finally, call, prepend; cbv beta zeta; rewrite E2;
            cbn [fst snd res out_self out_world trace]; rewrite E3;
            cbn [fst snd]; reflexivity).
      cbn. right. destruct (is_IOError e'); cbn; split; try discriminate; now right.
    + erewrite bind_raise
        by (unfold try_finally, call, prepend; cbv beta zeta; rewrite E2;
            cbn [fst snd res out_self out_world trace]; rewrite E3;
            cbn [fst snd]; reflexivity).
      cbn. right. destruct (is_IOError e); cbn; split; try discriminate; now left.
    + erewrite bind_raise
        by (unfold try_finally, call, prepend; cbv beta zeta; rewrite E2;
            cbn [fst snd res out_self out_world trace]; rewrite E3;
            cbn [fst snd]; reflexivity).
      cbn. right. destruct (is_IOError e'); cbn; split; try discriminate; now left.
  - erewrite bind_raise by (unfold call; cbv zeta; rewrite E1; cbn [fst snd]; reflexivity).
    cbn. right. destruct (is_IOError e); cbn; split; try discriminate; now left.
Qed.

(** Lines 146-199. *)
Lemma save_then_cleanup_save retry response (s : Self) (w : W) :
  save_then_cleanup retry
    (bind (save_captcha response)
       (fun saved => match saved with
                     | None => ret Continue
                     | Some temp_image_path => ocr_and_cleanup retry temp_image_path
                     end) s w).
Proof.
  pose proof (save_captcha_cases response s w) as Hsave. cbv zeta in Hsave.
  destruct (save_captcha response s w) as [[saved|e] s1 w1 t] eqn:E;
    cbn [res trace] in Hsave.
  - erewrite bind_ok by exact E.
    destruct Hsave as [(p & [= ->] & A & B & C & D) | [Hnone Hno]].
    + right. exists p, t, s1, w1. now repeat split.
    + destruct saved as [p|]; [now destruct (Hnone p)|].
      left. cbn. rewrite app_nil_r. exact Hno.
  - erewrite bind_raise by exact E.
    destruct Hsave as [(p & [=] & _) | [_ Hno]]. left. exact Hno.
Qed.

Lemma captcha_iteration_body_saves retry (s : Self) (w : W) :
  save_then_cleanup retry (captcha_iteration_body retry s w).
Proof.
  unfold captcha_iteration_body.
  apply save_then_cleanup_bind.
  { unfold the_driver. respects_with no_temp_file_refl no_temp_file_trans. }
  intros h s1 w1. apply save_then_cleanup_bind.
  { respects_with no_temp_file_refl no_temp_file_trans. }
  intros captcha_element s2 w2. apply save_then_cleanup_bind.
  { respects_with no_temp_file_refl no_temp_file_trans. }
  intros [[|c src]|] s3 w3.
  - apply save_then_cleanup_bind;
      [respects_with no_temp_file_refl no_temp_file_trans|].
    intros; apply save_then_cleanup_ret.
  - apply save_then_cleanup_bind.
    { unfold download_captcha. respects_with no_temp_file_refl no_temp_file_trans. }
    intros [response|] s4 w4; [|apply save_then_cleanup_ret].
    apply save_then_cleanup_save.
  - apply save_then_cleanup_bind;
      [respects_with no_temp_file_refl no_temp_file_trans|].
    intros; apply save_then_cleanup_ret.
Qed.


Lemma captcha_iteration_handler_no_temp_file retry e :
  respects (W:=W) no_temp_file (captcha_iteration_handler retry e).
Proof.
  unfold captcha_iteration_handler, sleep_uniform.
  respects_with no_temp_file_refl no_temp_file_trans.
Qed.

(** The outer handler adds nothing about temporary files. *)
Lemma captcha_iteration_temp_events retry (s : Self) (w : W) :
  written (trace (captcha_iteration retry s w))
  = written (trace (captcha_iteration_body retry s w))
  /\ closed (trace (captcha_iteration retry s w))
     = closed (trace (captcha_iteration_body retry s w)).
Proof.
  unfold captcha_iteration, try_except.
  destruct (captcha_iteration_body retry s w) as [[c|e] s1 w1 t];
    cbn [res out_self out_world trace is_Exception prepend]; [now split|].
  destruct (captcha_iteration_handler_no_temp_file retry e s1 w1) as (_ & B & C & _).
  unfold written, closed in *. now rewrite !omap_app, B, C, !app_nil_r.
Qed.

(** C7, as the code has it.  In every iteration, a temporary file that was
    written and closed without error is the only one the iteration
    created, and the last thing the iteration does, on every way out
    (return, [continue], end of block, exception in the OCR block), is one
    call of [os.unlink] on it; when that call succeeds every temporary
    file of the iteration is gone. *)
Theorem temp_file_unlink_attempted (retry : nat) (s : Self) (w : W) (p : string) :
  let tr := trace (captcha_iteration retry s w) in
  p ∈ written tr -> p ∈ closed tr ->
  exists t r,
    tr = (t ++ [EvCall (Unlink p) r])%list
    /\ created t = [p]
    /\ unlink_calls t = []
    /\ (r = Ok tt -> temp_files_deleted tr = true).
Proof.
  cbv zeta. destruct (captcha_iteration_temp_events retry s w) as [Hw Hc].
  rewrite Hw, Hc. intros Hwritten Hclosed.
  destruct (captcha_iteration_body_saves retry s w)
    as [[Hno | Hno] | (p' & t & s1 & w1 & Hbody & A & B & C & D)].
  - rewrite Hno in Hwritten. now apply not_elem_of_nil in Hwritten.
  - rewrite Hno in Hclosed. now apply not_elem_of_nil in Hclosed.
  - destruct (ocr_and_cleanup_run retry p' s1 w1)
      as (c & t' & s2 & w2 & Hrun & A' & B' & C' & D').
    rewrite Hrun, prepend_out in Hbody.
    unfold captcha_iteration.
    rewrite (try_except_ok _ _ _ _ _ c) by now rewrite Hbody.
    rewrite Hbody in Hwritten |- *. cbn [trace] in Hwritten |- *.
    assert (p = p') as ->.
    { rewrite !written_app, B, B' in Hwritten. cbn in Hwritten.
      now apply list_elem_of_singleton in Hwritten. }
    exists (t ++ t')%list, (fst (ext (Unlink p') w2)).
    split; [now rewrite app_assoc|].
    rewrite created_app, unlink_calls_app, A, A', D, D'.
    split; [reflexivity|]. split; [reflexivity|].
    intros Hr. unfold temp_files_deleted.
    rewrite !created_app, !unlinked_app, A, A', Hr.
    rewrite (unlinked_none t D), (unlinked_none t' D').
    cbn. now rewrite String.eqb_refl.
Qed.

End TempFileFacts.

Lemma temp_file_unlink_attempted_witness :
  exists t r,
    trace (captcha_iteration 0 in_session (at_captcha ["12345"]))
    = (t ++ [EvCall (Unlink "/tmp/tmp0.png") r])%list.
Proof.
  destruct (temp_file_unlink_attempted 0 in_session (at_captcha ["12345"]) "/tmp/tmp0.png")
    as (t & r & Htr & _).
  - vm_compute. apply list_elem_of_here.
  - vm_compute. apply list_elem_of_here.
  - exists t, r. exact Htr.
Defined.

(** [os.unlink] is refused: the captcha is solved and the image stays. *)
Lemma temp_file_left_when_unlink_refused :
  ~ cleans_up in_session (unlink_refused ["12345"]) 0
  /\ res (captcha_iteration 0 in_session (unlink_refused ["12345"])) = Ok (Return "12345")
  /\ Sim.tmp_files (out_world (captcha_iteration 0 in_session (unlink_refused ["12345"])))
     = ["/tmp/tmp0.png"].
Proof.
  split; [|now vm_compute].
  unfold cleans_up. vm_compute. discriminate.
Qed.

(** The write fails after the file was created: the iteration goes on
    without any call of [os.unlink]. *)
Lemma temp_file_left_when_write_fails :
  let o := captcha_iteration 0 in_session (disk_full ["12345"]) in
  res o = Ok Continue
  /\ created (trace o) = ["/tmp/tmp0.png"]
  /\ unlink_calls (trace o) = []
  /\ Sim.tmp_files (out_world o) = ["/tmp/tmp0.png"].
Proof. now vm_compute. Qed.

(** ** check_session_active and attempt_login *)
Section SessionFacts.
Context {W : Type} `{Oracle W}.

Lemma res_prepend {A} t (o : Out W A) : res (prepend t o) = res o.
Proof. reflexivity. Qed.

Lemma bind_res {A B} (m : M W A) (k : A -> M W B) s w :
  res (bind m k s w)
  = match res (m s w) with
    | Ok a => res (k a (out_self (m s w)) (out_world (m s w)))
    | Raise e => Raise e
    end.
Proof. unfold bind. now destruct (res (m s w)). Qed.

Lemma try_except_res {A} (body : M W A) catches handler s w :
  res (try_except body catches handler s w)
  = match res (body s w) with
    | Ok a => Ok a
    | Raise e =>
        if catches e
        then res (handler e (out_self (body s w)) (out_world (body s w)))
        else Raise e
    end.
Proof.
  unfold try_except. destruct (res (body s w)) as [a|e] eqn:E; [exact E|].
  now destruct (catches e).
Qed.

Lemma the_driver_run (s : Self) (w : W) h :
  driver s = Some h -> the_driver s w = mkOut (Ok h) s w [].
Proof. intros D. unfold the_driver, bind, get_self. cbn. now rewrite D. Qed.

Lemma bind_the_driver {A} (k : Handle -> M W A) (s : Self) (w : W) h :
  driver s = Some h -> bind the_driver k s w = k h s w.
Proof.
  intros D. erewrite bind_ok by apply (the_driver_run _ _ _ D). apply prepend_nil.
Qed.

Lemma call_run {T} (c : Call T) (s : Self) (w : W) :
  call c s w = mkOut (fst (ext c w)) s (snd (ext c w)) [EvCall c (fst (ext c w))].
Proof. reflexivity. Qed.

(** *** check_session_active *)

Lemma check_session_active_dead (s : Self) (w : W) :
  session_active s = false -> check_session_active s w = mkOut (Ok false) s w [].
Proof.
  intros F. unfold check_session_active, try_except, bind, get_self. cbn.
  now rewrite F.
Qed.

Lemma check_session_active_probe (s : Self) (w : W) h :
  session_active s = true -> driver s = Some h ->
  check_session_active s w
  = match fst (ext (CurrentUrl h) w) with
    | Ok url => mkOut (Ok true) s (snd (ext (CurrentUrl h) w))
                  [EvCall (CurrentUrl h) (Ok url)]
    | Raise e =>
        if is_WebDriverException e
        then mkOut (Ok false) (set_session_active false s) (snd (ext (CurrentUrl h) w))
               [EvCall (CurrentUrl h) (Raise e); EvSetActive false]
        else mkOut (Raise e) s (snd (ext (CurrentUrl h) w))
               [EvCall (CurrentUrl h) (Raise e)]
    end.
Proof.
  intros F D. unfold check_session_active, try_except.
  erewrite bind_ok by reflexivity. rewrite prepend_nil, F. cbn [negb].
  rewrite (bind_the_driver _ _ _ _ D).
  destruct (ext (CurrentUrl h) w) as [[url|e] w'] eqn:E.
  - erewrite bind_ok by (rewrite call_run, E; reflexivity). reflexivity.
  - erewrite bind_raise by (rewrite call_run, E; reflexivity).
    cbn [res fst snd]. destruct (is_WebDriverException e); reflexivity.
Qed.

(** *** attempt_login *)

Lemma attempt_login_handler_run e (s : Self) (w : W) :
  attempt_login_handler e s w
  = if PyStr.contains "invalid session id" (PyStr.lower (exn_str e))
    then mkOut (Ok false) (set_session_active false s) w
           [EvLog ERROR (LoginAttemptFailed (exn_str e)); EvSetActive false]
    else mkOut (Ok false) s w [EvLog ERROR (LoginAttemptFailed (exn_str e))].
Proof.
  unfold attempt_login_handler.
  now destruct (PyStr.contains "invalid session id" (PyStr.lower (exn_str e))).
Qed.

(** Whatever happens during a login attempt, the caller gets a boolean. *)
Lemma attempt_login_never_raises login password :
  never_raises (W:=W) (attempt_login login password).
Proof.
  unfold attempt_login. apply never_raises_try_except.
  intros e s w. rewrite attempt_login_handler_run.
  now destruct (PyStr.contains _ _).
Qed.

Lemma attempt_login_res login password (s : Self) (w : W) :
  res (attempt_login login password s w)
  = match res (attempt_login_body login password s w) with
    | Ok b => Ok b
    | Raise _ => Ok false
    end.
Proof.
  unfold attempt_login. rewrite try_except_res.
  destruct (res (attempt_login_body login password s w)) as [b|e]; [reflexivity|].
  unfold is_Exception. rewrite attempt_login_handler_run.
  now destruct (PyStr.contains _ _).
Qed.


Lemma solve_captcha_same_session : respects (W:=W) same_session solve_captcha.
Proof. apply solve_captcha_loop_same_session. Qed.



End SessionFacts.



(** *** The outcome of a login attempt *)
Section ClassificationFacts.
Context {W : Type} `{Oracle W}.

Lemma left_login_page_run (s : Self) (w : W) h :
  driver s = Some h ->
  left_login_page s w
  = match fst (ext (CurrentUrl h) w) with
    | Ok url => mkOut (Ok (negb (PyStr.contains "login" url))) s
                  (snd (ext (CurrentUrl h) w)) [EvCall (CurrentUrl h) (Ok url)]
    | Raise e => mkOut (Raise e) s (snd (ext (CurrentUrl h) w))
                   [EvCall (CurrentUrl h) (Raise e)]
    end.
Proof.
  intros D. unfold left_login_page. rewrite (bind_the_driver _ _ _ _ D).
  destruct (ext (CurrentUrl h) w) as [[url|e] w'] eqn:E.
  - erewrite bind_ok by (rewrite call_run, E; reflexivity). reflexivity.
  - erewrite bind_raise by (rewrite call_run, E; reflexivity). reflexivity.
Qed.

Lemma solve_captcha_five_digits (s : Self) (w : W) text :
  res (solve_captcha s w) = Ok (Some text) -> String.length text = 5.
Proof.
  unfold solve_captcha. generalize (seq 0 MAX_CAPTCHA_RETRIES) as retries.
  intros retries. revert s w.
  induction retries as [|retry rest IH]; intros s w; cbn [solve_captcha_loop].
  - rewrite bind_log. discriminate.
  - destruct (never_raises_ok (captcha_iteration retry) s w
                (captcha_iteration_never_raises retry)) as [c Hc].
    erewrite bind_ok by (rewrite <- Hc; symmetry; apply out_eta).
    unfold prepend. cbn [res].
    destruct c as [| |text'].
    + apply IH.
    + apply IH.
    + intros [= <-].
      exact (proj1 (captcha_iteration_five_digits retry s w _ Hc text' eq_refl)).
Qed.

(** Lines 272-284 change neither [self.driver] nor the flag. *)
Lemma captcha_resubmit_same_session text :
  respects (W:=W) same_session (captcha_resubmit text).
Proof.
  assert (Htype : forall el t, respects (W:=W) same_session (type_characters el t)).
  { intros el t. induction t as [|c t IH]; simpl.
    - apply respects_ret. exact same_session_refl.
    - unfold sleep_uniform. respects_with same_session_refl same_session_trans.
      exact IH. }
  unfold captcha_resubmit, the_driver, human_type, random_delay, sleep_uniform,
    click_login_button, the_driver.
  respects_with same_session_refl same_session_trans; apply Htype.
Qed.

(** Lines 260-290, once the probe has been answered. *)
Lemma captcha_path_res (s : Self) (w : W) h :
  driver s = Some h ->
  let probe := ext (WaitPresence h 5 ByClassName "captcha__image") w in
  let solved := solve_captcha s (snd probe) in
  res (captcha_path s w)
  = match fst probe with
    | Raise e => if is_TimeoutException e then Ok false else Raise e
    | Ok _ =>
        match res solved with
        | Ok (Some (String c rest)) =>
            match res (captcha_round_trip (String c rest) (out_self solved)
                         (out_world solved)) with
            | Ok b => Ok b
            | Raise e => if is_TimeoutException e then Ok false else Raise e
            end
        | Ok _ => Ok false
        | Raise e => if is_TimeoutException e then Ok false else Raise e
        end
    end.
Proof.
  intros D. cbv zeta. unfold captcha_path. rewrite try_except_res.
  rewrite (bind_the_driver _ _ _ _ D).
  destruct (ext (WaitPresence h 5 ByClassName "captcha__image") w) as [[el|e] w'] eqn:E.
  - erewrite bind_ok by (rewrite call_run, E; reflexivity).
    cbn [fst snd]. rewrite res_prepend, bind_log, res_prepend, bind_res.
    destruct (res (solve_captcha s w')) as [[[|c rest]|]|e]; reflexivity.
  - erewrite bind_raise by (rewrite call_run, E; reflexivity).
    cbn [fst snd res]. now destruct (is_TimeoutException e).
Qed.

Lemma captcha_round_trip_res text (s : Self) (w : W) h :
  driver (out_self (captcha_resubmit text s w)) = Some h ->
  res (captcha_round_trip text s w)
  = match res (captcha_resubmit text s w) with
    | Ok _ =>
        match fst (ext (CurrentUrl h) (out_world (captcha_resubmit text s w))) with
        | Ok url => Ok (negb (PyStr.contains "login" url))
        | Raise e => Raise e
        end
    | Raise e => Raise e
    end.
Proof.
  intros D. unfold captcha_round_trip. rewrite bind_res.
  destruct (res (captcha_resubmit text s w)); [|reflexivity].
  rewrite (left_login_page_run _ _ _ D).
  now destruct (fst (ext (CurrentUrl h) _)).
Qed.

Lemma classify_outcome_res login (s : Self) (w : W) h :
  driver s = Some h ->
  res (classify_outcome login s w)
  = match fst (ext (CurrentUrl h) w) with
    | Ok url =>
        if PyStr.contains "login" url
        then res (captcha_path s (snd (ext (CurrentUrl h) w)))
        else Ok true
    | Raise e => Raise e
    end.
Proof.
  intros D. unfold classify_outcome.
  rewrite bind_res, (left_login_page_run _ _ _ D).
  destruct (fst (ext (CurrentUrl h) w)) as [url|e]; cbn [res out_self out_world];
    [|reflexivity].
  now destruct (PyStr.contains "login" url).
Qed.

(** C4.  Once the form is submitted, [attempt_login] returns [True] when
    the address of the page does not contain "login".  When it does and the
    probe for the captcha image finds nothing in its five seconds (or
    fails), the attempt returns [False].  When the probe finds the image,
    a failed solve returns [False]; after a successful one the solution is
    typed and submitted once, and the attempt returns what the same test on
    the new address gives ([False] if that round trip fails). *)
Theorem login_classification (login password : string) (s : Self) (w : W) (h : Handle) :
  let submitted := login_submit login password s w in
  let address := ext (CurrentUrl h) (out_world submitted) in
  let probe := ext (WaitPresence h 5 ByClassName "captcha__image") (snd address) in
  let solved := solve_captcha (out_self submitted) (snd probe) in
  let o := attempt_login login password s w in
  res submitted = Ok tt ->
  driver (out_self submitted) = Some h ->
  forall url, fst address = Ok url ->
    (PyStr.contains "login" url = false -> res o = Ok true)
    /\ (PyStr.contains "login" url = true ->
        (forall e, fst probe = Raise e -> res o = Ok false)
        /\ (forall el, fst probe = Ok el ->
              (res solved = Ok None -> res o = Ok false)
              /\ (forall text, res solved = Ok (Some text) ->
                    let again :=
                      captcha_resubmit text (out_self solved) (out_world solved) in
                    (forall e, res again = Raise e -> res o = Ok false)
                    /\ (res again = Ok tt ->
                        forall url2,
                          fst (ext (CurrentUrl h) (out_world again)) = Ok url2 ->
                          res o = Ok (negb (PyStr.contains "login" url2)))))).
Proof.
  cbv zeta. intros Hsub D url Haddr.
  assert (Ho : res (attempt_login login password s w)
               = match res (classify_outcome login
                              (out_self (login_submit login password s w))
                              (out_world (login_submit login password s w))) with
                 | Ok b => Ok b
                 | Raise _ => Ok false
                 end).
  { rewrite attempt_login_res. unfold attempt_login_body.
    now rewrite bind_res, Hsub. }
  rewrite Ho, (classify_outcome_res _ _ _ _ D), Haddr.
  split; [now intros ->|]. intros ->.
  rewrite (captcha_path_res _ _ _ D). cbv zeta.
  split.
  - intros e ->. now destruct (is_TimeoutException e).
  - intros el ->. split; [now intros ->|].
    intros text Hsolved.
    pose proof (solve_captcha_five_digits _ _ _ Hsolved) as Hlen.
    destruct text as [|c rest]; [discriminate|].
    rewrite Hsolved.
    match goal with
    | |- context [captcha_round_trip ?t ?s' ?w'] =>
        assert (D' : driver (out_self (captcha_resubmit t s' w')) = Some h)
    end.
    { rewrite (proj1 (captcha_resubmit_same_session (String c rest) _ _)).
      rewrite (proj1 (solve_captcha_same_session _ _)). exact D. }
    rewrite (captcha_round_trip_res _ _ _ _ D').
    split.
    + intros e ->. now destruct (is_TimeoutException e).
    + intros -> url2 ->. reflexivity.
Qed.

End ClassificationFacts.

Lemma login_classification_witness :
  res (attempt_login "u" "p" Sim.fresh (portal [("u", "p")] false [])) = Ok true
  /\ res (attempt_login "u" "x" Sim.fresh (portal [("u", "p")] false [])) = Ok false
  /\ res (attempt_login "u" "p" Sim.fresh (portal [("u", "p")] true ["12345"])) = Ok true.
Proof.
  split; [|split].
  - edestruct (login_classification "u" "p" Sim.fresh (portal [("u", "p")] false []) 1)
      as [Hleft _];
      [vm_compute; reflexivity | vm_compute; reflexivity | vm_compute; reflexivity |].
    apply Hleft. vm_compute. reflexivity.
  - edestruct (login_classification "u" "x" Sim.fresh (portal [("u", "p")] false []) 1)
      as [_ Hstill];
      [vm_compute; reflexivity | vm_compute; reflexivity | vm_compute; reflexivity |].
    destruct Hstill as [Hnone _]; [vm_compute; reflexivity|].
    eapply Hnone. vm_compute. reflexivity.
  - edestruct (login_classification "u" "p" Sim.fresh (portal [("u", "p")] true ["12345"]) 1)
      as [_ Hstill];
      [vm_compute; reflexivity | vm_compute; reflexivity | vm_compute; reflexivity |].
    destruct Hstill as [_ Hshown]; [vm_compute; reflexivity|].
    edestruct Hshown as [_ Hsolved]; [vm_compute; reflexivity|].
    edestruct Hsolved as [_ Hagain]; [vm_compute; reflexivity|].
    erewrite Hagain; [| vm_compute; reflexivity | vm_compute; reflexivity].
    vm_compute. reflexivity.
Defined.

(** ** process_account *)
Section AccountFacts.
Context {W : Type} `{Oracle W}.
Variable DELAY_BETWEEN_ATTEMPTS : Q.

Lemma take_screenshot_never_raises prefix : never_raises (W:=W) (take_screenshot prefix).
Proof. unfold take_screenshot. repeat never_raises_step. Qed.

Lemma navigate_to_section_never_raises url name :
  never_raises (W:=W) (navigate_to_section url name).
Proof. unfold navigate_to_section. repeat never_raises_step. Qed.

Lemma perform_logout_never_raises : never_raises (W:=W) perform_logout.
Proof. unfold perform_logout. repeat never_raises_step. Qed.

Lemma random_delay_never_raises a b : never_raises (W:=W) (random_delay a b).
Proof. apply sleep_uniform_never_raises. Qed.

Lemma after_login_never_raises login : never_raises (W:=W) (after_login login).
Proof.
  unfold after_login.
  repeat match goal with
    | |- never_raises (bind _ _) => apply never_raises_bind; [|intros ?]
    | |- never_raises (ret _) => apply never_raises_ret
    | |- never_raises (if ?b then _ else _) => destruct b
    | |- never_raises (take_screenshot _) => apply take_screenshot_never_raises
    | |- never_raises (navigate_to_section _ _) => apply navigate_to_section_never_raises
    | |- never_raises perform_logout => apply perform_logout_never_raises
    | |- never_raises (random_delay _ _) => apply random_delay_never_raises
    end.
Qed.

Lemma backoff_run attempt (s : Self) (w : W) :
  backoff DELAY_BETWEEN_ATTEMPTS attempt s w
  = if attempt <? MAX_ATTEMPTS
    then
      let range := RandomUniform DELAY_BETWEEN_ATTEMPTS (DELAY_BETWEEN_ATTEMPTS * 1.5) in
      let delay := fst (env range w) in
      mkOut (Ok tt) s (snd (env (Sleep delay) (snd (env range w))))
        [EvQuery range delay; EvQuery (Sleep delay) tt]
    else mkOut (Ok tt) s w [].
Proof.
  unfold backoff. destruct (attempt <? MAX_ATTEMPTS); [|reflexivity].
  cbv zeta. unfold bind, query. cbn.
  now destruct (env (Sleep _) _) as [[] w'].
Qed.

Lemma backoff_never_raises attempt :
  never_raises (W:=W) (backoff DELAY_BETWEEN_ATTEMPTS attempt).
Proof. intros s w. rewrite backoff_run. now destruct (attempt <? MAX_ATTEMPTS). Qed.

Lemma attempt_body_never_raises attempt login password :
  never_raises (W:=W) (attempt_body DELAY_BETWEEN_ATTEMPTS attempt login password).
Proof.
  unfold attempt_body.
  apply never_raises_bind; [apply attempt_login_never_raises|].
  intros [|].
  - apply never_raises_bind; [apply after_login_never_raises|].
    intros _. apply never_raises_ret.
  - apply never_raises_bind; [apply never_raises_log|]. intros _.
    apply never_raises_bind; [apply backoff_never_raises|]. intros _.
    apply never_raises_ret.
Qed.

(** The [except] clause of [process_account] is never entered: all that the
    [try] calls catches its own exceptions. *)
Lemma account_attempt_run attempt login password (s : Self) (w : W) :
  account_attempt DELAY_BETWEEN_ATTEMPTS attempt login password s w
  = prepend [EvLog INFO (AttemptFor attempt MAX_ATTEMPTS login)]
      (attempt_body DELAY_BETWEEN_ATTEMPTS attempt login password s w).
Proof.
  unfold account_attempt. rewrite bind_log. f_equal.
  destruct (never_raises_ok _ s w (attempt_body_never_raises attempt login password))
    as [c Hc].
  now rewrite (try_except_ok _ _ _ _ _ _ Hc).
Qed.

Lemma account_attempt_never_raises attempt login password :
  never_raises (W:=W) (account_attempt DELAY_BETWEEN_ATTEMPTS attempt login password).
Proof.
  intros s w. rewrite account_attempt_run, res_prepend.
  apply attempt_body_never_raises.
Qed.

Lemma process_account_loop_never_raises attempts login password :
  never_raises (W:=W)
    (process_account_loop DELAY_BETWEEN_ATTEMPTS attempts login password).
Proof.
  induction attempts as [|attempt rest IH]; simpl.
  - repeat never_raises_step.
  - apply never_raises_bind; [apply account_attempt_never_raises|].
    intros [| |b]; [exact IH | exact IH | apply never_raises_ret].
Qed.

Lemma process_account_never_raises login password :
  never_raises (W:=W) (process_account DELAY_BETWEEN_ATTEMPTS login password).
Proof. apply process_account_loop_never_raises. Qed.

(** One failed attempt: the log line, the login attempt, the warning and
    the backoff. *)
Lemma account_attempt_failed attempt login password (s : Self) (w : W) :
  res (attempt_login login password s w) = Ok false ->
  account_attempt DELAY_BETWEEN_ATTEMPTS attempt login password s w
  = let a := attempt_login login password s w in
    let b := backoff DELAY_BETWEEN_ATTEMPTS attempt (out_self a) (out_world a) in
    mkOut (Ok Normal) (out_self b) (out_world b)
      ([EvLog INFO (AttemptFor attempt MAX_ATTEMPTS login)] ++ trace a
       ++ [EvLog WARNING (AttemptFailedFor attempt login)] ++ trace b).
Proof.
  intros Ha. cbv zeta. rewrite account_attempt_run. unfold attempt_body.
  erewrite bind_ok by (rewrite <- Ha; symmetry; apply out_eta).
  cbv beta iota. rewrite bind_log.
  erewrite bind_ok
    by (symmetry; rewrite <- (out_eta (backoff _ _ _ _)) at 1;
        destruct (never_raises_ok _ (out_self (attempt_login login password s w))
                    (out_world (attempt_login login password s w))
                    (backoff_never_raises attempt)) as [[] ->]; reflexivity).
  unfold prepend, ret. cbn [res out_self out_world trace].
  now rewrite app_nil_r.
Qed.


Lemma process_account_failed login password (s : Self) (w : W) :
  let a1 := attempt_login login password s w in
  let b1 := backoff DELAY_BETWEEN_ATTEMPTS 1 (out_self a1) (out_world a1) in
  let a2 := attempt_login login password (out_self b1) (out_world b1) in
  let b2 := backoff DELAY_BETWEEN_ATTEMPTS 2 (out_self a2) (out_world a2) in
  let a3 := attempt_login login password (out_self b2) (out_world b2) in
  res a1 = Ok false -> res a2 = Ok false -> res a3 = Ok false ->
  process_account DELAY_BETWEEN_ATTEMPTS login password s w
  = mkOut (Ok false) (out_self a3) (out_world a3)
      ([EvLog INFO (AttemptFor 1 MAX_ATTEMPTS login)] ++ trace a1
       ++ [EvLog WARNING (AttemptFailedFor 1 login)] ++ trace b1
       ++ [EvLog INFO (AttemptFor 2 MAX_ATTEMPTS login)] ++ trace a2
       ++ [EvLog WARNING (AttemptFailedFor 2 login)] ++ trace b2
       ++ [EvLog INFO (AttemptFor 3 MAX_ATTEMPTS login)] ++ trace a3
       ++ [EvLog WARNING (AttemptFailedFor 3 login);
           EvLog ERROR (AllLoginAttemptsFailed login)]).
Proof.
  intros a1 b1 a2 b2 a3 H1 H2 H3.
  unfold process_account. cbn [seq MAX_ATTEMPTS process_account_loop].
  erewrite bind_ok by (apply account_attempt_failed; exact H1).
  fold a1 b1. cbv beta iota. cbn [process_account_loop].
  erewrite bind_ok by (apply account_attempt_failed; exact H2).
  fold a2 b2. cbv beta iota. cbn [process_account_loop].
  erewrite bind_ok by (apply account_attempt_failed; exact H3).
  fold a3. cbv beta iota. cbn [process_account_loop].
  rewrite (backoff_run 3). cbn [Nat.ltb Nat.leb MAX_ATTEMPTS].
  clearbody a3. clearbody b2. clearbody a2. clearbody b1. clearbody a1.
  rewrite bind_log. unfold prepend, ret. cbn [res out_self out_world trace].
  f_equal. rewrite !app_nil_r, <- !app_assoc. reflexivity.
Qed.

Lemma account_turn_failed idx total login password count (s : Self) (w : W) :
  res (process_account DELAY_BETWEEN_ATTEMPTS login password s w) = Ok false ->
  res (account_turn DELAY_BETWEEN_ATTEMPTS idx total (login, password) count s w)
  = Ok count.
Proof.
  intros Hp. unfold account_turn. rewrite bind_log, res_prepend, bind_res, Hp.
  rewrite bind_res. unfold account_pause.
  destruct (idx <? total); [|reflexivity].
  unfold bind, query. cbn. reflexivity.
Qed.

(** C1, as the code has it.  A pair whose login attempts all fail is tried
    [MAX_ATTEMPTS] = 3 times and no more; after the first and after the
    second attempt the orchestrator sleeps a delay drawn from
    [DELAY_BETWEEN_ATTEMPTS, 1.5 * DELAY_BETWEEN_ATTEMPTS], the same range
    both times; it does not sleep after the third; [process_account]
    returns [False] and the pair leaves the success counter as it was. *)
Theorem process_account_retry_bound (login password : string) (s : Self) (w : W) :
  let a1 := attempt_login login password s w in
  let b1 := backoff DELAY_BETWEEN_ATTEMPTS 1 (out_self a1) (out_world a1) in
  let a2 := attempt_login login password (out_self b1) (out_world b1) in
  let b2 := backoff DELAY_BETWEEN_ATTEMPTS 2 (out_self a2) (out_world a2) in
  let a3 := attempt_login login password (out_self b2) (out_world b2) in
  let range := RandomUniform DELAY_BETWEEN_ATTEMPTS (DELAY_BETWEEN_ATTEMPTS * 1.5) in
  res a1 = Ok false -> res a2 = Ok false -> res a3 = Ok false ->
  process_account DELAY_BETWEEN_ATTEMPTS login password s w
  = mkOut (Ok false) (out_self a3) (out_world a3)
      ([EvLog INFO (AttemptFor 1 MAX_ATTEMPTS login)] ++ trace a1
       ++ [EvLog WARNING (AttemptFailedFor 1 login)] ++ trace b1
       ++ [EvLog INFO (AttemptFor 2 MAX_ATTEMPTS login)] ++ trace a2
       ++ [EvLog WARNING (AttemptFailedFor 2 login)] ++ trace b2
       ++ [EvLog INFO (AttemptFor 3 MAX_ATTEMPTS login)] ++ trace a3
       ++ [EvLog WARNING (AttemptFailedFor 3 login);
           EvLog ERROR (AllLoginAttemptsFailed login)])
  /\ trace b1 = [EvQuery range (fst (env range (out_world a1)));
                 EvQuery (Sleep (fst (env range (out_world a1)))) tt]
  /\ trace b2 = [EvQuery range (fst (env range (out_world a2)));
                 EvQuery (Sleep (fst (env range (out_world a2)))) tt]
  /\ (forall s' (w' : W), trace (backoff DELAY_BETWEEN_ATTEMPTS MAX_ATTEMPTS s' w') = [])
  /\ (forall idx total count,
        res (account_turn DELAY_BETWEEN_ATTEMPTS idx total (login, password) count s w)
        = Ok count).
Proof.
  cbv zeta. intros H1 H2 H3.
  pose proof (process_account_failed login password s w H1 H2 H3) as Hrun.
  cbv zeta in Hrun.
  split; [exact Hrun|].
  split; [now rewrite backoff_run|].
  split; [now rewrite backoff_run|].
  split; [intros s' w'; now rewrite backoff_run|].
  intros idx total count. apply account_turn_failed. now rewrite Hrun.
Qed.

End AccountFacts.

Lemma process_account_retry_bound_witness :
  res (process_account 6 "u" "x" Sim.fresh (portal [("u", "p")] false [])) = Ok false
  /\ logged INFO (trace (process_account 6 "u" "x" Sim.fresh (portal [("u", "p")] false [])))
     = [AttemptFor 1 3 "u"; AttemptFor 2 3 "u"; AttemptFor 3 3 "u"].
Proof.
  destruct (process_account_retry_bound 6 "u" "x" Sim.fresh (portal [("u", "p")] false []))
    as (Hrun & _); [vm_compute; reflexivity ..|].
  rewrite Hrun. split; [reflexivity|]. vm_compute. reflexivity.
Defined.

(** The two backoffs of a failing account are drawn from one range. *)
Lemma backoff_not_scaled_up :
  ~ scaled_up
      (backoff_draws
         (trace (process_account 6 "u" "x" Sim.fresh (portal [("u", "p")] false [])))).
Proof.
  assert (Hdraws :
    backoff_draws
      (trace (process_account 6 "u" "x" Sim.fresh (portal [("u", "p")] false [])))
    = [(6, 6 * 1.5); (6, 6 * 1.5)]%Q) by (vm_compute; reflexivity).
  rewrite Hdraws. cbn. intros [[Hlo | Hhi] _].
  - revert Hlo. apply Qlt_irrefl.
  - revert Hhi. apply Qlt_irrefl.
Qed.

(** ** Runs that returned *)
Section BindFacts.
Context {W : Type} `{Oracle W}.

Lemma bind_ok_inv {A B} (m : M W A) (k : A -> M W B) (s : Self) (w : W) b :
  res (bind m k s w) = Ok b ->
  exists a,
    res (m s w) = Ok a
    /\ res (k a (out_self (m s w)) (out_world (m s w))) = Ok b
    /\ out_self (bind m k s w) = out_self (k a (out_self (m s w)) (out_world (m s w))).
Proof.
  unfold bind. cbv zeta. destruct (res (m s w)) as [a|e]; [|discriminate].
  intros R. exists a. auto.
Qed.

End BindFacts.

(** ** What a run over one account can change

    [process_account] touches the object only through [self.session_active],
    [self.driver] and [self.main_window]; any relation that tolerates these
    three assignments and every single event is kept by it. *)
Section Footprint.
Context {W : Type} `{Oracle W}.
Variable DELAY_BETWEEN_ATTEMPTS : Q.
Variable I : Self -> Self -> list Event -> Prop.
Hypothesis I_refl : forall s, I s s [].
Hypothesis I_trans :
  forall s1 s2 s3 t1 t2, I s1 s2 t1 -> I s2 s3 t2 -> I s1 s3 (t1 ++ t2).
Hypothesis I_event : forall s e, I s s [e].
Hypothesis I_session_active : forall s b, I s (set_session_active b s) [].
Hypothesis I_driver : forall s h, I s (set_driver h s) [].
Hypothesis I_main_window : forall s h, I s (set_main_window h s) [].

Lemma respects_modify f :
  (forall s, I s (f s) []) -> respects (W:=W) I (modify f).
Proof. intros Hf s w. apply Hf. Qed.

Lemma respects_emit e : respects (W:=W) I (emit e).
Proof. intros s w. apply I_event. Qed.

Ltac footprint_step :=
  match goal with
  | |- respects _ (ret _) => apply respects_ret; exact I_refl
  | |- respects _ (raise _) => apply respects_raise; exact I_refl
  | |- respects _ (lift _) => apply respects_lift; exact I_refl
  | |- respects _ get_self => apply respects_get_self; exact I_refl
  | |- respects _ (bind _ _) => apply respects_bind; [exact I_trans | | ]
  | |- respects _ (try_except _ _ _) => apply respects_try_except; [exact I_trans | | ]
  | |- respects _ (try_finally _ _) => apply respects_try_finally; [exact I_trans | | ]
  | |- respects _ (call _) => apply respects_call; intros; apply I_event
  | |- respects _ (query _) => apply respects_query; intros; apply I_event
  | |- respects _ (log _ _) => apply respects_log; intros; apply I_event
  | |- respects _ (emit _) => apply respects_emit
  | |- respects _ (modify (set_session_active _)) =>
      apply respects_modify; intros; apply I_session_active
  | |- respects _ (modify (set_driver _)) =>
      apply respects_modify; intros; apply I_driver
  | |- respects _ (modify (set_main_window _)) =>
      apply respects_modify; intros; apply I_main_window
  | |- respects _ (if ?b then _ else _) => destruct b
  | |- respects _ (match ?x with _ => _ end) => destruct x
  | |- forall _, _ => intro
  end.

Lemma the_driver_footprint : respects (W:=W) I the_driver.
Proof. unfold the_driver. repeat footprint_step. Qed.

Lemma sleep_uniform_footprint a b : respects (W:=W) I (sleep_uniform a b).
Proof. unfold sleep_uniform. repeat footprint_step. Qed.

Lemma assign_session_active_footprint b : respects (W:=W) I (assign_session_active b).
Proof. unfold assign_session_active. repeat footprint_step. Qed.

Lemma type_characters_footprint element text :
  respects (W:=W) I (type_characters element text).
Proof.
  induction text as [|c rest IH]; cbn [type_characters]; [repeat footprint_step|].
  repeat first [exact IH | apply sleep_uniform_footprint | footprint_step].
Qed.

Lemma human_type_footprint element text : respects (W:=W) I (human_type element text).
Proof.
  unfold human_type.
  repeat first [apply type_characters_footprint | footprint_step].
Qed.

Lemma init_driver_footprint : respects (W:=W) I init_driver.
Proof.
  unfold init_driver.
  repeat first [apply assign_session_active_footprint | footprint_step].
Qed.

Lemma check_session_active_footprint : respects (W:=W) I check_session_active.
Proof.
  unfold check_session_active.
  repeat first [apply assign_session_active_footprint | apply the_driver_footprint
               | footprint_step].
Qed.

Lemma captcha_iteration_footprint retry : respects (W:=W) I (captcha_iteration retry).
Proof.
  unfold captcha_iteration, captcha_iteration_body, captcha_iteration_handler,
    ocr_and_cleanup, save_captcha, download_captcha, unlink_quietly, ocr_block,
    parse_ocr_result, ocr_request.
  repeat first [apply the_driver_footprint | apply sleep_uniform_footprint
               | footprint_step].
Qed.

Lemma solve_captcha_footprint : respects (W:=W) I solve_captcha.
Proof.
  unfold solve_captcha. generalize (seq 0 MAX_CAPTCHA_RETRIES) as retries.
  induction retries as [|retry rest IH]; cbn [solve_captcha_loop];
    repeat first [exact IH | apply captcha_iteration_footprint | footprint_step].
Qed.

Lemma click_login_button_footprint : respects (W:=W) I click_login_button.
Proof.
  unfold click_login_button. repeat first [apply the_driver_footprint | footprint_step].
Qed.

Lemma left_login_page_footprint : respects (W:=W) I left_login_page.
Proof.
  unfold left_login_page. repeat first [apply the_driver_footprint | footprint_step].
Qed.

Ltac footprint_call :=
  match goal with
  | |- respects _ the_driver => apply the_driver_footprint
  | |- respects _ (sleep_uniform _ _) => apply sleep_uniform_footprint
  | |- respects _ (random_delay _ _) => apply sleep_uniform_footprint
  | |- respects _ (assign_session_active _) => apply assign_session_active_footprint
  | |- respects _ (human_type _ _) => apply human_type_footprint
  | |- respects _ init_driver => apply init_driver_footprint
  | |- respects _ check_session_active => apply check_session_active_footprint
  | |- respects _ solve_captcha => apply solve_captcha_footprint
  | |- respects _ click_login_button => apply click_login_button_footprint
  | |- respects _ left_login_page => apply left_login_page_footprint
  end.

Lemma attempt_login_footprint login password :
  respects (W:=W) I (attempt_login login password).
Proof.
  unfold attempt_login, attempt_login_body, attempt_login_handler, login_submit,
    classify_outcome, captcha_path, captcha_round_trip, captcha_resubmit.
  repeat first [footprint_call | footprint_step].
Qed.

Lemma scroll_footprint times : respects (W:=W) I (scroll times).
Proof.
  induction times as [|times IH]; cbn [scroll];
    repeat first [exact IH | footprint_call | footprint_step].
Qed.

Lemma navigate_to_section_footprint url name :
  respects (W:=W) I (navigate_to_section url name).
Proof.
  unfold navigate_to_section.
  repeat first [apply scroll_footprint | footprint_call | footprint_step].
Qed.

Lemma take_screenshot_footprint prefix : respects (W:=W) I (take_screenshot prefix).
Proof. unfold take_screenshot. repeat first [footprint_call | footprint_step]. Qed.

Lemma perform_logout_footprint : respects (W:=W) I perform_logout.
Proof. unfold perform_logout. repeat first [footprint_call | footprint_step]. Qed.

Lemma account_attempt_footprint attempt login password :
  respects (W:=W) I (account_attempt DELAY_BETWEEN_ATTEMPTS attempt login password).
Proof.
  unfold account_attempt, attempt_body, attempt_handler, after_login, backoff.
  repeat first
    [ match goal with
      | |- respects _ (attempt_login _ _) => apply attempt_login_footprint
      | |- respects _ (take_screenshot _) => apply take_screenshot_footprint
      | |- respects _ (navigate_to_section _ _) => apply navigate_to_section_footprint
      | |- respects _ perform_logout => apply perform_logout_footprint
      end
    | footprint_call | footprint_step ].
Qed.

Lemma process_account_footprint login password :
  respects (W:=W) I (process_account DELAY_BETWEEN_ATTEMPTS login password).
Proof.
  unfold process_account. generalize (seq 1 MAX_ATTEMPTS) as attempts.
  induction attempts as [|attempt rest IH]; cbn [process_account_loop];
    repeat first [exact IH | apply account_attempt_footprint | footprint_step].
Qed.

(** After a successful [init_driver] the object went through a state with
    [self.driver] set, and was only changed within the footprint since. *)
Lemma init_driver_started (s : Self) (w : W) :
  res (init_driver s w) = Ok tt ->
  exists h s1 t1, I (set_driver h s1) (out_self (init_driver s w)) t1.
Proof.
  unfold init_driver. intros R.
  apply bind_ok_inv in R as (s0 & _ & R & ->).
  apply bind_ok_inv in R as (u & _ & R & ->).
  apply bind_ok_inv in R as (i & _ & R & ->).
  apply bind_ok_inv in R as (h & _ & R & ->).
  apply bind_ok_inv in R as (u' & _ & R & ->).
  match goal with
  | |- context [out_self (?m (out_self (modify _ ?s1 ?w1)) ?w2)] =>
      exists h, s1, (trace (m (set_driver h s1) w2));
      assert (Hm : respects I m)
        by (repeat first [footprint_call | footprint_step]);
      exact (Hm (set_driver h s1) w2)
  end.
Qed.

End Footprint.

(** ** process_all_accounts *)

Lemma quit_calls_app t1 t2 : quit_calls (t1 ++ t2) = (quit_calls t1 ++ quit_calls t2)%list.
Proof. apply omap_app. Qed.

Lemma same_credentials_refl s : same_credentials s s [].
Proof. reflexivity. Qed.

Lemma same_credentials_trans s1 s2 s3 t1 t2 :
  same_credentials s1 s2 t1 -> same_credentials s2 s3 t2 ->
  same_credentials s1 s3 (t1 ++ t2).
Proof. unfold same_credentials. congruence. Qed.

Section RunFacts.
Context {W : Type} `{Oracle W}.
Variable DELAY_BETWEEN_ATTEMPTS : Q.

(** Lines 418-424: one call of [quit] on the current driver, if any; its
    failure is swallowed. *)
Lemma teardown_run (s : Self) (w : W) :
  teardown s w
  = match driver s with
    | None => mkOut (Ok tt) s w []
    | Some h =>
        match fst (ext (Quit h) w) with
        | Ok _ => mkOut (Ok tt) (set_session_active false s) (snd (ext (Quit h) w))
                    [EvCall (Quit h) (Ok tt); EvSetActive false]
        | Raise e => mkOut (Ok tt) s (snd (ext (Quit h) w)) [EvCall (Quit h) (Raise e)]
        end
    end.
Proof.
  unfold teardown, try_except.
  erewrite bind_ok by reflexivity. rewrite prepend_nil.
  destruct (driver s) as [h|]; [|reflexivity].
  destruct (ext (Quit h) w) as [[[]|e] w'] eqn:E.
  - erewrite bind_ok by (rewrite call_run, E; reflexivity). reflexivity.
  - erewrite bind_raise by (rewrite call_run, E; reflexivity). reflexivity.
Qed.

Lemma teardown_quits_once (s : Self) (w : W) h :
  driver s = Some h -> quit_calls (trace (teardown s w)) = [h].
Proof.
  intros D. rewrite teardown_run, D.
  now destruct (fst (ext (Quit h) w)) as [[]|e].
Qed.

(** The [finally] clause runs however the body ends. *)
Lemma guarded_run (body : M W unit) (s : Self) (w : W) :
  let b := body s w in
  let t := teardown (out_self b) (out_world b) in
  guarded body s w
  = mkOut (Ok tt) (out_self t) (out_world t)
      (trace b
       ++ match res b with
          | Ok _ => []
          | Raise e => [EvLog ERROR (FatalError (exn_str e))]
          end
       ++ trace t).
Proof.
  intros b t. unfold guarded, try_finally, try_except. fold b.
  assert (Ht : res t = Ok tt).
  { unfold t. rewrite teardown_run.
    destruct (driver _); [|reflexivity]. now destruct (fst (ext _ _)) as [[]|]. }
  destruct (res b) as [[]|e] eqn:E.
  - fold t. rewrite Ht. unfold prepend. cbn [res out_self out_world trace]. now rewrite E.
  - unfold is_Exception, prepend, log, emit. cbn [res out_self out_world trace].
    fold t. rewrite Ht. now rewrite <- app_assoc.
Qed.

Lemma account_pause_run idx total (s : Self) (w : W) :
  account_pause idx total s w
  = if idx <? total
    then
      let delay := fst (env (RandomUniform 5 15) w) in
      mkOut (Ok tt) s (snd (env (Sleep delay) (snd (env (RandomUniform 5 15) w))))
        [EvQuery (RandomUniform 5 15) delay; EvQuery (Sleep delay) tt]
    else mkOut (Ok tt) s w [].
Proof.
  unfold account_pause. destruct (idx <? total); [|reflexivity].
  cbv zeta. unfold bind, query. cbn. now destruct (env (Sleep _) _) as [[] w'].
Qed.

Lemma account_pause_no_quit idx total (s : Self) (w : W) :
  quit_calls (trace (account_pause idx total s w)) = []
  /\ res (account_pause idx total s w) = Ok tt
  /\ out_self (account_pause idx total s w) = s.
Proof. rewrite account_pause_run. now destruct (idx <? total). Qed.

(** One turn of the loop over the accounts. *)
Lemma account_turn_run idx total login password count (s : Self) (w : W) b :
  let r := process_account DELAY_BETWEEN_ATTEMPTS login password s w in
  let d := account_pause idx total (out_self r) (out_world r) in
  res r = Ok b ->
  account_turn DELAY_BETWEEN_ATTEMPTS idx total (login, password) count s w
  = mkOut (Ok (if b then count + 1 else count)) (out_self d) (out_world d)
      ([EvLog INFO (ProcessingAccount idx total login)] ++ trace r ++ trace d).
Proof.
  intros r d Hr. unfold account_turn. rewrite bind_log.
  erewrite bind_ok by (rewrite <- Hr; symmetry; apply out_eta).
  fold r. cbv beta.
  erewrite bind_ok
    by (rewrite <- (proj1 (proj2 (account_pause_no_quit idx total (out_self r) (out_world r))));
        symmetry; apply out_eta).
  fold d. unfold prepend, ret. cbn [res out_self out_world trace].
  now rewrite app_nil_r.
Qed.

End RunFacts.

Lemma keeps_driver_refl s : keeps_driver s s [].
Proof. now intros D. Qed.

Lemma keeps_driver_trans s1 s2 s3 t1 t2 :
  keeps_driver s1 s2 t1 -> keeps_driver s2 s3 t2 -> keeps_driver s1 s3 (t1 ++ t2).
Proof. unfold keeps_driver. auto. Qed.

Section OrchestratorFacts.
Context {W : Type} `{Oracle W}.
Variable DELAY_BETWEEN_ATTEMPTS : Q.

Lemma init_driver_same_credentials (s : Self) (w : W) :
  credentials_list (out_self (init_driver s w)) = credentials_list s.
Proof.
  apply (init_driver_footprint same_credentials);
    [exact same_credentials_refl | exact same_credentials_trans | reflexivity ..].
Qed.

Lemma init_driver_sets_driver (s : Self) (w : W) :
  res (init_driver s w) = Ok tt -> driver (out_self (init_driver s w)) <> None.
Proof.
  intros R.
  assert (K : exists h s1 t1,
             keeps_driver (set_driver h s1) (out_self (init_driver s w)) t1).
  { apply (init_driver_started keeps_driver);
      [exact keeps_driver_trans | now intros ? ? D .. | exact R]. }
  destruct K as (h & s1 & t1 & K). now apply K.
Qed.

Lemma process_account_keeps_driver login password (s : Self) (w : W) :
  driver s <> None ->
  driver (out_self (process_account DELAY_BETWEEN_ATTEMPTS login password s w)) <> None.
Proof.
  apply (process_account_footprint DELAY_BETWEEN_ATTEMPTS keeps_driver);
    [exact keeps_driver_refl | exact keeps_driver_trans | now intros ? ? D ..].
Qed.

(** The loop over two pairs. *)
Lemma accounts_run_two l1 p1 l2 p2 b1 b2 (s : Self) (w : W) :
  let r1 := process_account DELAY_BETWEEN_ATTEMPTS l1 p1 s w in
  let d := account_pause 1 2 (out_self r1) (out_world r1) in
  let r2 := process_account DELAY_BETWEEN_ATTEMPTS l2 p2 (out_self d) (out_world d) in
  credentials_list s = [(l1, p1); (l2, p2)] ->
  res r1 = Ok b1 -> res r2 = Ok b2 ->
  accounts_run DELAY_BETWEEN_ATTEMPTS s w
  = mkOut (Ok tt) (out_self r2) (out_world r2)
      ([EvLog INFO (ProcessingAccount 1 2 l1)] ++ trace r1 ++ trace d
       ++ [EvLog INFO (ProcessingAccount 2 2 l2)] ++ trace r2
       ++ [EvLog INFO (ProcessCompleted (Nat.b2n b1 + Nat.b2n b2) 2)]).
Proof.
  intros r1 d r2 Hc H1 H2. unfold accounts_run.
  erewrite bind_ok by reflexivity. rewrite prepend_nil. cbv beta zeta.
  rewrite Hc. cbn [length accounts_loop].
  erewrite bind_ok.
  2:{ erewrite bind_ok by (apply account_turn_run; exact H1).
      fold r1 d. cbv beta.
      erewrite bind_ok.
      2:{ apply account_turn_run. exact H2. }
      fold r2. rewrite account_pause_run. cbn [Nat.ltb Nat.leb out_self out_world trace].
      unfold ret. rewrite !prepend_out. reflexivity. }
  unfold log, emit. rewrite prepend_out.
  rewrite !app_nil_r, <- !app_assoc. cbn [app].
  now destruct b1, b2.
Qed.

(** C8 (amended): over two credential pairs of which the first run of
    [process_account] returns [True] and the second [False], the call
    returns normally and logs a success count of 1 out of 2 after the two
    accounts; the [finally] clause then calls [quit] once, on the driver the
    object holds at that time, and these are the last events of the run.
    That call is the only [quit] of the whole run when neither the first
    [init_driver] nor the work on the two accounts had to replace the
    browser.  The [finally] clause runs after any body, whether the body
    returned or raised, and nothing is raised past it. *)
Theorem process_all_accounts_teardown l1 p1 l2 p2 (s : Self) (w : W) :
  let i := init_driver s w in
  let r1 := process_account DELAY_BETWEEN_ATTEMPTS l1 p1 (out_self i) (out_world i) in
  let d := account_pause 1 2 (out_self r1) (out_world r1) in
  let r2 := process_account DELAY_BETWEEN_ATTEMPTS l2 p2 (out_self d) (out_world d) in
  let t := teardown (out_self r2) (out_world r2) in
  let o := process_all_accounts DELAY_BETWEEN_ATTEMPTS s w in
  credentials_list s = [(l1, p1); (l2, p2)] ->
  res i = Ok tt -> res r1 = Ok true -> res r2 = Ok false ->
  res o = Ok tt
  /\ trace o
     = (trace i
        ++ [EvLog INFO (ProcessingAccount 1 2 l1)] ++ trace r1 ++ trace d
        ++ [EvLog INFO (ProcessingAccount 2 2 l2)] ++ trace r2
        ++ [EvLog INFO (ProcessCompleted 1 2)]
        ++ trace t)%list
  /\ (exists h, driver (out_self r2) = Some h /\ quit_calls (trace t) = [h])
  /\ (quit_calls (trace i) = [] -> quit_calls (trace r1) = [] ->
      quit_calls (trace r2) = [] -> closed_once (trace o))
  /\ (forall (body : M W unit) (s' : Self) (w' : W),
        let b := body s' w' in
        res (guarded body s' w') = Ok tt
        /\ trace (guarded body s' w')
           = (trace b
              ++ match res b with
                 | Ok _ => []
                 | Raise e => [EvLog ERROR (FatalError (exn_str e))]
                 end
              ++ trace (teardown (out_self b) (out_world b)))%list).
Proof.
  intros i r1 d r2 t o Hc Hi H1 H2.
  assert (Hci : credentials_list (out_self i) = [(l1, p1); (l2, p2)])
    by (unfold i; now rewrite init_driver_same_credentials).
  assert (Hd : exists h, driver (out_self r2) = Some h).
  { assert (D2 : driver (out_self r2) <> None).
    { apply process_account_keeps_driver.
      unfold d. rewrite (proj2 (proj2 (account_pause_no_quit 1 2 _ _))).
      apply process_account_keeps_driver. now apply init_driver_sets_driver. }
    destruct (driver (out_self r2)) as [h|]; [now exists h | easy]. }
  destruct Hd as (h & Hd).
  assert (Ht : quit_calls (trace t) = [h]) by now apply teardown_quits_once.
  assert (Hrun :
    o = mkOut (Ok tt) (out_self t) (out_world t)
          (trace i
           ++ [EvLog INFO (ProcessingAccount 1 2 l1)] ++ trace r1 ++ trace d
           ++ [EvLog INFO (ProcessingAccount 2 2 l2)] ++ trace r2
           ++ [EvLog INFO (ProcessCompleted 1 2)]
           ++ trace t)%list).
  { unfold o, process_all_accounts.
    erewrite bind_ok by reflexivity. rewrite prepend_nil. rewrite Hc.
    erewrite bind_ok by (rewrite <- Hi; symmetry; apply out_eta).
    fold i. rewrite guarded_run. cbv zeta.
    rewrite (accounts_run_two l1 p1 l2 p2 true false _ _ Hci H1 H2).
    fold r1 d r2. cbn [res out_self out_world trace Nat.b2n Nat.add].
    fold t. rewrite prepend_out. f_equal.
    rewrite <- ?app_assoc. cbn [app]. rewrite <- ?app_assoc. reflexivity. }
  clearbody o. subst o.
  split; [reflexivity|].
  split; [reflexivity|].
  split; [exists h; split; [exact Hd | exact Ht]|].
  split.
  - intros Qi Q1 Q2. exists h. cbn [trace].
    assert (Qd : quit_calls (trace d) = [])
      by apply (proj1 (account_pause_no_quit 1 2 _ _)).
    clearbody t r2 d r1 i.
    rewrite !quit_calls_app, Qi, Q1, Q2, Qd, Ht. reflexivity.
  - intros body s' w' b. rewrite guarded_run. cbv zeta.
    split; reflexivity.
Qed.

End OrchestratorFacts.

Lemma process_all_accounts_teardown_witness :
  closed_once
    (trace (process_all_accounts 6 two_accounts (portal [("u", "p")] false [])))
  /\ last (logged INFO
             (trace (process_all_accounts 6 two_accounts (portal [("u", "p")] false []))))
     = Some (ProcessCompleted 1 2).
Proof.
  destruct (process_all_accounts_teardown 6 "u" "p" "v" "q" two_accounts
              (portal [("u", "p")] false []))
    as (_ & _ & _ & Hclosed & _); [vm_compute; reflexivity ..|].
  split; [apply Hclosed; vm_compute; reflexivity|].
  vm_compute. reflexivity.
Defined.

(** The browser dies when the first account logs out and cannot be started
    again: the first account succeeded, the second failed, 1 out of 2 is
    reported, and [quit] was called four times. *)
Lemma session_closed_more_than_once :
  let i := init_driver two_accounts browser_lost in
  let r1 := process_account 6 "u" "p" (out_self i) (out_world i) in
  let d := account_pause 1 2 (out_self r1) (out_world r1) in
  let r2 := process_account 6 "v" "q" (out_self d) (out_world d) in
  let o := process_all_accounts 6 two_accounts browser_lost in
  res i = Ok tt /\ res r1 = Ok true /\ res r2 = Ok false
  /\ In (ProcessCompleted 1 2) (logged INFO (trace o))
  /\ quit_calls (trace o) = [1; 1; 1; 1]
  /\ ~ closed_once (trace o).
Proof.
  cbv zeta.
  assert (Hq : quit_calls (trace (process_all_accounts 6 two_accounts browser_lost))
               = [1; 1; 1; 1]) by (vm_compute; reflexivity).

  split; [vm_compute; reflexivity|].
  split; [vm_compute; reflexivity|].
  split; [vm_compute; reflexivity|].
  split; [vm_compute; tauto|].
  split; [exact Hq|].
  intros (h & Hh). rewrite Hq in Hh. discriminate.
Qed.

(** ** Pairs with an empty field *)
Section EmptyFieldFacts.
Context {W : Type} `{Oracle W}.
Variable DELAY_BETWEEN_ATTEMPTS : Q.
Import LoaderSpec.

(** A line with a colon is split, its pair is kept and no warning names it. *)
Lemma colon_line_kept raw line :
  line ∈ raw -> blank line = false -> PyStr.contains_char ":" line = true ->
  exists a b,
    PyStr.split1 ":" (PyStr.strip line) = [a; b]
    /\ (PyStr.strip a, PyStr.strip b) ∈ pairs raw
    /\ PyStr.strip line ∉ malformed raw.
Proof.
  intros Hin Hb Hc. rewrite CutFacts.contains_char_cut in Hc.
  destruct (cut ":" line) as [[a b]|] eqn:E; [clear Hc | discriminate].
  exists (PyStr.lstrip a), (PyStr.rstrip b). split; [|split].
  - apply CutFacts.split1_cut. now rewrite CutFacts.cut_strip, E.
  - rewrite PyStrFacts.strip_lstrip, PyStrFacts.strip_rstrip.
    unfold pairs. rewrite first_seen_elem, list_elem_of_omap.
    exists line. split.
    + unfold non_blank. apply list_elem_of_In, filter_In.
      split; [now apply list_elem_of_In | now rewrite Hb].
    + unfold parse_line. now rewrite E.
  - unfold malformed. rewrite list_elem_of_fmap.
    intros (other & Heq & Hother).
    apply list_elem_of_In, filter_In in Hother as [Hother Hno].
    apply filter_In in Hother as [_ _].
    assert (Hn : no_colon (PyStr.strip other) = true).
    { rewrite no_colon_strip. unfold no_colon. exact Hno. }
    rewrite <- Heq, no_colon_strip in Hn. unfold no_colon in Hn.
    rewrite E in Hn. discriminate.
Qed.

Lemma bind_trace_prefix {A B} (m : M W A) (k : A -> M W B) (s : Self) (w : W) :
  exists t, trace (bind m k s w) = (trace (m s w) ++ t)%list.
Proof.
  unfold bind. cbv zeta. destruct (res (m s w)) as [a|e].
  - eexists. reflexivity.
  - exists []. cbn. now rewrite app_nil_r.
Qed.

(** The work on an account opens with a login attempt on its two fields. *)
Lemma process_account_attempts login password (s : Self) (w : W) :
  exists t,
    trace (process_account DELAY_BETWEEN_ATTEMPTS login password s w)
    = ([EvLog INFO (AttemptFor 1 MAX_ATTEMPTS login)]
       ++ trace (attempt_login login password s w) ++ t)%list.
Proof.
  unfold process_account. cbn [seq MAX_ATTEMPTS process_account_loop].
  match goal with
  | |- context [trace (bind ?m ?k s w)] =>
      destruct (bind_trace_prefix m k s w) as [t1 Ht1]; rewrite Ht1
  end.
  rewrite account_attempt_run. unfold prepend at 1. cbn [trace].
  unfold attempt_body.
  match goal with
  | |- context [trace (bind ?m ?k s w)] =>
      destruct (bind_trace_prefix m k s w) as [t2 Ht2]; rewrite Ht2
  end.
  exists (t2 ++ t1)%list. now rewrite <- !app_assoc.
Qed.

(** The loop works on every pair it is given. *)
Lemma accounts_loop_attempts creds login password :
  (login, password) ∈ creds ->
  forall idx total count (s : Self) (w : W),
  exists s1 w1 t1 t2,
    trace (accounts_loop DELAY_BETWEEN_ATTEMPTS idx total creds count s w)
    = (t1 ++ trace (process_account DELAY_BETWEEN_ATTEMPTS login password s1 w1)
       ++ t2)%list.
Proof.
  induction creds as [|[l0 p0] rest IH]; intros Hin idx total count s w.
  - now apply not_elem_of_nil in Hin.
  - cbn [accounts_loop].
    destruct (never_raises_ok _ s w
                (process_account_never_raises DELAY_BETWEEN_ATTEMPTS l0 p0)) as [b Hb].
    erewrite bind_ok
      by (rewrite <- (out_eta (account_turn _ _ _ _ _ _ _));
          rewrite (account_turn_run DELAY_BETWEEN_ATTEMPTS idx total l0 p0 count s w b Hb);
          reflexivity).
    cbv beta. unfold prepend. cbn [trace out_self out_world].
    apply elem_of_cons in Hin as [[= <- <-] | Hin].
    + rewrite <- !app_assoc. exists s, w. eexists. eexists. reflexivity.
    + destruct (IH Hin (S idx) total (if b then count + 1 else count)
                  (out_self (account_pause idx total
                     (out_self (process_account DELAY_BETWEEN_ATTEMPTS l0 p0 s w))
                     (out_world (process_account DELAY_BETWEEN_ATTEMPTS l0 p0 s w))))
                  (out_world (account_pause idx total
                     (out_self (process_account DELAY_BETWEEN_ATTEMPTS l0 p0 s w))
                     (out_world (process_account DELAY_BETWEEN_ATTEMPTS l0 p0 s w)))))
        as (s1 & w1 & t1 & t2 & Hrest).
      rewrite Hrest, app_assoc. exists s1, w1. eexists. exists t2. reflexivity.
Qed.

Lemma accounts_run_attempts login password (s : Self) (w : W) :
  (login, password) ∈ credentials_list s ->
  exists s1 w1 t1 t2,
    trace (accounts_run DELAY_BETWEEN_ATTEMPTS s w)
    = (t1 ++ trace (process_account DELAY_BETWEEN_ATTEMPTS login password s1 w1)
       ++ t2)%list.
Proof.
  intros Hin. unfold accounts_run.
  erewrite bind_ok by reflexivity. rewrite prepend_nil. cbv beta zeta.
  match goal with
  | |- context [trace (bind ?m ?k s w)] =>
      destruct (bind_trace_prefix m k s w) as [t3 Ht3]; rewrite Ht3
  end.
  destruct (accounts_loop_attempts (credentials_list s) login password Hin 1
              (length (credentials_list s)) 0 s w)
    as (s1 & w1 & t1 & t2 & Hloop).
  rewrite Hloop, <- !app_assoc. exists s1, w1, t1. eexists. reflexivity.
Qed.

(** Every pair of [self.credentials_list] reaches [attempt_login]. *)
Lemma every_pair_attempted login password (s : Self) (w : W) :
  (login, password) ∈ credentials_list s ->
  res (init_driver s w) = Ok tt ->
  exists s1 w1 t1 t2,
    trace (process_all_accounts DELAY_BETWEEN_ATTEMPTS s w)
    = (t1 ++ [EvLog INFO (AttemptFor 1 MAX_ATTEMPTS login)]
       ++ trace (attempt_login login password s1 w1) ++ t2)%list.
Proof.
  intros Hin Hi.
  destruct (accounts_run_attempts login password (out_self (init_driver s w))
              (out_world (init_driver s w)))
    as (s1 & w1 & t1 & t2 & Hrun);
    [now rewrite init_driver_same_credentials|].
  destruct (process_account_attempts login password s1 w1) as [t4 Ht4].
  unfold process_all_accounts.
  erewrite bind_ok by reflexivity. rewrite prepend_nil.
  destruct (credentials_list s) as [|c rest] eqn:Hc;
    [now apply not_elem_of_nil in Hin|].
  erewrite bind_ok by (rewrite <- Hi; symmetry; apply out_eta).
  rewrite guarded_run. cbv zeta. unfold prepend. cbn [trace].
  rewrite Hrun, Ht4, <- !app_assoc, (app_assoc (trace (init_driver s w)) t1).
  exists s1, w1, (trace (init_driver s w) ++ t1)%list. eexists. reflexivity.
Qed.

(** C10.  A line of the login file that is not blank and holds a colon is
    never rejected: it is split at its first colon, the trimmed pair is in
    [credentials_list] and no warning names the line, also when a part is
    empty after trimming.  The file [:x], [id:] gives the pairs [("", "x")]
    and [("id", "")] and no warning.  Every pair of the list, whatever its
    fields, is then handed to [attempt_login] by [process_all_accounts]. *)
Theorem loader_accepts_empty_fields (s : Self) (w : W) (raw : list string) :
  fst (env (PathExists LOGIN_FILE) w) = true ->
  fst (ext (FileReadLines LOGIN_FILE) (snd (env (PathExists LOGIN_FILE) w))) = Ok raw ->
  let o := load_credentials s w in
  (forall line,
      line ∈ raw -> PyStr.truthy (PyStr.strip line) = true ->
      PyStr.contains_char ":" line = true ->
      exists a b,
        PyStr.split1 ":" (PyStr.strip line) = [a; b]
        /\ (PyStr.strip a, PyStr.strip b) ∈ credentials_list (out_self o)
        /\ InvalidFormatInLine (PyStr.strip line) ∉ logged WARNING (trace o))
  /\ (raw = [":x"; "id:"] ->
      credentials_list (out_self o) = [("", "x"); ("id", "")]
      /\ logged WARNING (trace o) = [])
  /\ (forall login password (w' : W),
        (login, password) ∈ credentials_list (out_self o) ->
        res (init_driver (out_self o) w') = Ok tt ->
        exists s1 w1 t1 t2,
          trace (process_all_accounts DELAY_BETWEEN_ATTEMPTS (out_self o) w')
          = (t1 ++ [EvLog INFO (AttemptFor 1 MAX_ATTEMPTS login)]
             ++ trace (attempt_login login password s1 w1) ++ t2)%list).
Proof.
  intros Hex Hread o. subst o.
  rewrite (load_credentials_run s w raw Hex Hread).
  cbn [res out_self trace credentials_list set_credentials_list].
  assert (Hlog : logged WARNING
                   ([EvQuery (PathExists LOGIN_FILE) true;
                     EvCall (FileReadLines LOGIN_FILE) (Ok raw)]
                    ++ map warn (malformed raw)
                    ++ [EvLog INFO (LoadedCredentials (length (pairs raw)))])
                 = map InvalidFormatInLine (malformed raw)).
  { unfold logged. rewrite !omap_app. cbn.
    fold (logged WARNING (map warn (malformed raw))).
    now rewrite logged_warn, app_nil_r. }
  rewrite Hlog. split; [|split].
  - intros line Hin Hb Hc.
    rewrite PyStrFacts.truthy_strip in Hb. apply negb_true_iff in Hb.
    destruct (colon_line_kept raw line Hin Hb Hc) as (a & b & Hs & Hp & Hm).
    exists a, b. split; [exact Hs|]. split; [exact Hp|].
    rewrite list_elem_of_fmap. intros (other & [= Heq] & Hother). now subst.
  - intros ->. split; reflexivity.
  - intros login password w' Hin Hi.
    now apply every_pair_attempted.
Qed.

End EmptyFieldFacts.

Lemma loader_accepts_empty_fields_witness :
  credentials_list (out_self (load_credentials Sim.fresh empty_fields))
  = [("", "x"); ("id", "")]
  /\ logged WARNING (trace (load_credentials Sim.fresh empty_fields)) = [].
Proof.
  pose proof (loader_accepts_empty_fields 6 Sim.fresh empty_fields [":x"; "id:"]
                eq_refl eq_refl) as Hl.
  cbv zeta in Hl. destruct Hl as (_ & Hfile & _).
  exact (Hfile eq_refl).
Defined.

(** * Further properties *)

(** ** The steps after a login *)
Section FollowUpFacts.
Context {W : Type} `{Oracle W}.
Variable DELAY_BETWEEN_ATTEMPTS : Q.

(** X1.  With the session marked dead, a screenshot, a navigation or a logout
    fails at once: the result is [False], one error is logged with the text
    of the [WebDriverException] raised at the top of the [try] block, the
    driver is not called and the object is left as it was. *)
Theorem dead_session_steps_fail (s : Self) (w : W) prefix url name :
  session_active s = false ->
  take_screenshot prefix s w
  = mkOut (Ok false) s w [EvLog ERROR (ScreenshotFailed (exn_str session_expired))]
  /\ navigate_to_section url name s w
     = mkOut (Ok false) s w [EvLog ERROR (FailedToNavigate name (exn_str session_expired))]
  /\ perform_logout s w
     = mkOut (Ok false) s w [EvLog ERROR (LogoutFailed (exn_str session_expired))].
Proof.
  intros Hd.
  assert (Hbody : forall (k : M W bool),
    bind check_session_active
      (fun alive : bool => if negb alive then raise session_expired else k) s w
    = mkOut (Raise session_expired) s w []).
  { intros k. now erewrite bind_ok by (apply check_session_active_dead; exact Hd). }
  repeat split.
  - unfold take_screenshot.
    erewrite try_except_caught; [| rewrite Hbody; reflexivity | reflexivity].
    rewrite Hbody. reflexivity.
  - unfold navigate_to_section.
    erewrite try_except_caught; [| rewrite Hbody; reflexivity | reflexivity].
    rewrite Hbody. reflexivity.
  - unfold perform_logout.
    erewrite try_except_caught; [| rewrite Hbody; reflexivity | reflexivity].
    rewrite Hbody. reflexivity.
Qed.

Lemma logged_app lvl t1 t2 :
  logged lvl (t1 ++ t2) = (logged lvl t1 ++ logged lvl t2)%list.
Proof. apply omap_app. Qed.

(** X2.  [attempt_login] hands no exception to its caller: it returns a boolean,
    and an exception raised anywhere in its body becomes [False] with one
    error logged that carries the text of the exception. *)
Theorem attempt_login_returns_boolean login password (s : Self) (w : W) :
  let o := attempt_login login password s w in
  (exists b, res o = Ok b)
  /\ (forall e,
        res (attempt_login_body login password s w) = Raise e ->
        res o = Ok false
        /\ last (logged ERROR (trace o)) = Some (LoginAttemptFailed (exn_str e))).
Proof.
  intros o. subst o. split.
  - rewrite attempt_login_res.
    destruct (res (attempt_login_body login password s w)) as [b|e]; eauto.
  - intros e He. split; [now rewrite attempt_login_res, He|].
    unfold attempt_login.
    rewrite (try_except_caught _ _ _ _ _ e He eq_refl).
    unfold prepend. cbn [trace]. rewrite logged_app, attempt_login_handler_run.
    destruct (PyStr.contains "invalid session id" (PyStr.lower (exn_str e)));
      cbn [trace logged omap list_omap]; now rewrite last_snoc.
Qed.

(** X3.  The [except] clause of [process_account] (lines 381-387: the session
    is replaced and a fixed delay slept) is never entered: every step of the
    [try] block handles its own exceptions, so an attempt is the log line
    followed by the block, and [process_account] always returns a boolean. *)
Theorem process_account_except_branch_dead attempt login password (s : Self) (w : W) :
  (exists c, res (attempt_body DELAY_BETWEEN_ATTEMPTS attempt login password s w) = Ok c)
  /\ account_attempt DELAY_BETWEEN_ATTEMPTS attempt login password s w
     = prepend [EvLog INFO (AttemptFor attempt MAX_ATTEMPTS login)]
         (attempt_body DELAY_BETWEEN_ATTEMPTS attempt login password s w)
  /\ (exists b, res (process_account DELAY_BETWEEN_ATTEMPTS login password s w) = Ok b).
Proof.
  split; [|split].
  - apply never_raises_ok, attempt_body_never_raises.
  - apply account_attempt_run.
  - apply never_raises_ok, process_account_never_raises.
Qed.

(** X4.  When the first login attempt succeeds, [process_account] makes no
    second attempt and returns [True], whatever becomes of the screenshots,
    the two sections and the logout that follow. *)
Theorem process_account_first_success login password (s : Self) (w : W) :
  let a := attempt_login login password s w in
  let f := after_login login (out_self a) (out_world a) in
  res a = Ok true ->
  process_account DELAY_BETWEEN_ATTEMPTS login password s w
  = mkOut (Ok true) (out_self f) (out_world f)
      ([EvLog INFO (AttemptFor 1 MAX_ATTEMPTS login)] ++ trace a ++ trace f).
Proof.
  intros a f Ha.
  destruct (never_raises_ok _ (out_self a) (out_world a) (after_login_never_raises login))
    as [[] Hf].
  fold f in Hf.
  unfold process_account. cbn [seq MAX_ATTEMPTS process_account_loop].
  erewrite bind_ok.
  2:{ rewrite account_attempt_run. unfold attempt_body.
      erewrite bind_ok by (rewrite <- Ha; symmetry; apply out_eta).
      fold a. cbv beta iota.
      erewrite bind_ok by (rewrite <- Hf; symmetry; apply out_eta).
      fold f. unfold ret. rewrite !prepend_out. reflexivity. }
  cbv beta iota. unfold ret. rewrite prepend_out.
  rewrite ?app_nil_r, <- ?app_assoc. reflexivity.
Qed.


End FollowUpFacts.

Lemma dead_session_steps_fail_witness :
  take_screenshot "u_dashboard" Sim.fresh Sim.quiet
  = mkOut (Ok false) Sim.fresh Sim.quiet
      [EvLog ERROR (ScreenshotFailed (exn_str session_expired))].
Proof.
  exact (proj1 (dead_session_steps_fail Sim.fresh Sim.quiet "u_dashboard" "" "" eq_refl)).
Defined.

Lemma process_account_first_success_witness :
  res (process_account 6 "u" "p" Sim.fresh (portal [("u", "p")] false [])) = Ok true
  /\ logged INFO
       (trace (process_account 6 "u" "p" Sim.fresh (portal [("u", "p")] false [])))
     !! 1 = Some (LoginSuccessful "u").
Proof.
  pose proof (process_account_first_success 6 "u" "p" Sim.fresh
                (portal [("u", "p")] false [])) as Hp.
  cbv zeta in Hp. rewrite Hp by (vm_compute; reflexivity).
  split; [reflexivity|]. vm_compute. reflexivity.
Defined.

(** ** Typing *)
Section TypingFacts.
Context {W : Type} `{Oracle W}.






End TypingFacts.

(** ** Starting the browser *)
Section StartFacts.
Context {W : Type} `{Oracle W}.
Variable DELAY_BETWEEN_ATTEMPTS : Q.



End StartFacts.

(** ** The script from its first line *)
Section ScriptFacts.
Context {W : Type} `{Oracle W}.
Variable DELAY_BETWEEN_ATTEMPTS : Q.

Lemma bind_modify {B} f (k : unit -> M W B) (s : Self) (w : W) :
  bind (modify f) k s w = k tt (f s) w.
Proof. unfold bind, modify. cbn. apply prepend_nil. Qed.

(** X8.  Without a login file the script creates an empty one, warns, finds no
    credentials and stops there: no browser is started. *)
Theorem main_without_login_file (s : Self) (w : W) :
  let w1 := snd (env (PathExists LOGIN_FILE) w) in
  let w2 := snd (ext (FileCreate LOGIN_FILE) w1) in
  let w3 := snd (ext (MakeDirs SCREENSHOT_DIR) w2) in
  fst (env (PathExists LOGIN_FILE) w) = false ->
  fst (ext (FileCreate LOGIN_FILE) w1) = Ok tt ->
  fst (ext (MakeDirs SCREENSHOT_DIR) w2) = Ok tt ->
  main DELAY_BETWEEN_ATTEMPTS s w
  = mkOut (Ok tt) (mkSelf None None [] None false) w3
      [EvQuery (PathExists LOGIN_FILE) false;
       EvLog WARNING FileNotFoundCreating;
       EvCall (FileCreate LOGIN_FILE) (Ok tt);
       EvCall (MakeDirs SCREENSHOT_DIR) (Ok tt);
       EvSetActive false;
       EvLog ERROR NoCredentialsFound].
Proof.
  intros w1 w2 w3 Hex Hcreate Hdirs.
  assert (Hload : forall s0,
    load_credentials s0 w
    = mkOut (Ok tt) s0 w2
        [EvQuery (PathExists LOGIN_FILE) false; EvLog WARNING FileNotFoundCreating;
         EvCall (FileCreate LOGIN_FILE) (Ok tt)]).
  { intros s0. unfold load_credentials.
    erewrite bind_ok by apply query_run. rewrite Hex. cbn [negb].
    rewrite bind_log, (call_ok _ _ _ _ Hcreate). reflexivity. }
  assert (Hinit :
    init s w
    = mkOut (Ok tt) (mkSelf None None [] None false) w3
        [EvQuery (PathExists LOGIN_FILE) false; EvLog WARNING FileNotFoundCreating;
         EvCall (FileCreate LOGIN_FILE) (Ok tt); EvCall (MakeDirs SCREENSHOT_DIR) (Ok tt);
         EvSetActive false]).
  { unfold init, assign_session_active.
    rewrite bind_modify.
    erewrite bind_ok by apply Hload. cbv beta.
    erewrite bind_ok by (apply call_ok; exact Hdirs). cbv beta.
    rewrite bind_modify, bind_modify. reflexivity. }
  unfold main.
  rewrite try_except_ok with (a := tt).
  - erewrite bind_ok by apply Hinit. reflexivity.
  - erewrite bind_ok by apply Hinit. reflexivity.
Qed.

(** X9.  The first [init_driver] of [process_all_accounts] stands before the
    [try] statement: when the browser cannot be started, no cleanup is run,
    the exception reaches the script's handler and is logged there as a
    critical error.  In no case does the script raise. *)
Theorem main_browser_cannot_start (s : Self) (w : W) e :
  let a := init s w in
  let i := init_driver (out_self a) (out_world a) in
  res a = Ok tt ->
  credentials_list (out_self a) <> [] ->
  res i = Raise e ->
  main DELAY_BETWEEN_ATTEMPTS s w
  = mkOut (Ok tt) (out_self i) (out_world i)
      (trace a ++ trace i ++ [EvLog ERROR (CriticalError (exn_str e))])
  /\ forall s' (w' : W), res (main DELAY_BETWEEN_ATTEMPTS s' w') = Ok tt.
Proof.
  intros a i Ha Hc Hi. split.
  - unfold main.
    assert (Hbody : bind init (fun _ => process_all_accounts DELAY_BETWEEN_ATTEMPTS) s w
                    = mkOut (Raise e) (out_self i) (out_world i) (trace a ++ trace i)).
    { erewrite bind_ok by (rewrite <- Ha; symmetry; apply out_eta).
      fold a. unfold process_all_accounts.
      erewrite bind_ok by reflexivity. rewrite prepend_nil.
      destruct (credentials_list (out_self a)) as [|c rest]; [easy|].
      erewrite bind_raise by (rewrite <- Hi; symmetry; apply out_eta).
      fold i. now rewrite prepend_out. }
    erewrite try_except_caught; [| rewrite Hbody; reflexivity | reflexivity].
    rewrite Hbody. cbn [trace out_self out_world]. unfold log, emit.
    now rewrite prepend_out, <- app_assoc.
  - intros s' w'. unfold main. rewrite try_except_res.
    now destruct (res (bind init _ s' w')) as [[]|e'].
Qed.

End ScriptFacts.

Lemma main_without_login_file_witness :
  res (main 6 Sim.fresh no_login_file) = Ok tt
  /\ logged ERROR (trace (main 6 Sim.fresh no_login_file)) = [NoCredentialsFound].
Proof.
  rewrite (main_without_login_file 6 Sim.fresh no_login_file)
    by (vm_compute; reflexivity).
  split; reflexivity.
Defined.

Lemma main_browser_cannot_start_witness :
  res (main 6 Sim.fresh no_browser) = Ok tt
  /\ logged ERROR (trace (main 6 Sim.fresh no_browser))
     = [CriticalError ("Message: session not created" ++ NL)]
  /\ quit_calls (trace (main 6 Sim.fresh no_browser)) = [].
Proof.
  destruct (main_browser_cannot_start 6 Sim.fresh no_browser
              (mkExn WebDriverException ("Message: session not created" ++ NL)))
    as [Hrun _]; [vm_compute; reflexivity | vm_compute; discriminate
                 | vm_compute; reflexivity |].
  rewrite Hrun. repeat split; vm_compute; reflexivity.
Defined.

(** ** The loop over the accounts *)

Lemma untouched_refl s : untouched s s [].
Proof. now split. Qed.

Lemma untouched_trans s1 s2 s3 t1 t2 :
  untouched s1 s2 t1 -> untouched s2 s3 t2 -> untouched s1 s3 (t1 ++ t2).
Proof. intros [C1 U1] [C2 U2]. split; congruence. Qed.

Ltac untouched_step :=
  match goal with
  | |- respects _ (ret _) => apply respects_ret; exact untouched_refl
  | |- respects _ get_self => apply respects_get_self; exact untouched_refl
  | |- respects _ (bind _ _) => apply respects_bind; [exact untouched_trans | | intro]
  | |- respects _ (try_except _ _ _) =>
      apply respects_try_except; [exact untouched_trans | | intro]
  | |- respects _ (try_finally _ _) =>
      apply respects_try_finally; [exact untouched_trans | | ]
  | |- respects _ (call _) => apply respects_call; now intros
  | |- respects _ (query _) => apply respects_query; now intros
  | |- respects _ (log _ _) => apply respects_log; now intros
  | |- respects _ (emit _) => apply respects_emit; now intros
  | |- respects _ (modify _) => apply respects_modify; now intros
  | |- respects _ (if ?b then _ else _) => destruct b
  | |- respects _ (match ?x with _ => _ end) => destruct x
  end.

Section LoopFacts.
Context {W : Type} `{Oracle W}.
Variable DELAY_BETWEEN_ATTEMPTS : Q.

Lemma successes_cons r outcomes :
  successes (r :: outcomes)
  = (match r with Ok true => 1 | _ => 0 end) + successes outcomes.
Proof. unfold successes. cbn [List.filter]. now destruct r as [[]|]. Qed.

Lemma loop_outcomes_length creds idx total (s : Self) (w : W) :
  length (loop_outcomes DELAY_BETWEEN_ATTEMPTS idx total creds s w) = length creds.
Proof.
  revert idx s w. induction creds as [|[l p] rest IH]; intros idx s w; [reflexivity|].
  cbn [loop_outcomes length]. now rewrite IH.
Qed.

(** The counter grows by one for every pair [process_account] returned
    [True] for. *)
Lemma accounts_loop_counts creds idx total count (s : Self) (w : W) :
  exists s' w' t,
    accounts_loop DELAY_BETWEEN_ATTEMPTS idx total creds count s w
    = mkOut (Ok (count
                 + successes (loop_outcomes DELAY_BETWEEN_ATTEMPTS idx total creds s w)))
        s' w' t.
Proof.
  revert idx count s w.
  induction creds as [|[l p] rest IH]; intros idx count s w.
  - exists s, w, []. cbn. unfold ret, successes. cbn. now rewrite Nat.add_0_r.
  - cbn [accounts_loop loop_outcomes].
    destruct (never_raises_ok _ s w
                (process_account_never_raises DELAY_BETWEEN_ATTEMPTS l p)) as [b Hb].
    erewrite bind_ok
      by (apply (account_turn_run DELAY_BETWEEN_ATTEMPTS idx total l p count s w b Hb)).
    cbv beta zeta. rewrite successes_cons, Hb.
    set (r := process_account DELAY_BETWEEN_ATTEMPTS l p s w).
    set (d := account_pause idx total (out_self r) (out_world r)).
    destruct (IH (S idx) (if b then count + 1 else count) (out_self d) (out_world d))
      as (s' & w' & t & Hrest).
    rewrite Hrest, prepend_out. exists s', w'. eexists.
    f_equal. f_equal. destruct b; lia.
Qed.

(** X10.  Whatever the number of pairs and whatever happens to each, the run ends
    by reporting how many pairs [process_account] returned [True] for, out
    of the number of pairs in the list; the cleanup that follows logs
    nothing. *)
Theorem process_all_accounts_reports_count (s : Self) (w : W) :
  let i := init_driver s w in
  let creds := credentials_list s in
  let outcomes :=
    loop_outcomes DELAY_BETWEEN_ATTEMPTS 1 (length creds) creds (out_self i) (out_world i) in
  creds <> [] ->
  res i = Ok tt ->
  res (process_all_accounts DELAY_BETWEEN_ATTEMPTS s w) = Ok tt
  /\ length outcomes = length creds
  /\ last (logged INFO (trace (process_all_accounts DELAY_BETWEEN_ATTEMPTS s w)))
     = Some (ProcessCompleted (successes outcomes) (length creds)).
Proof.
  intros i creds outcomes Hne Hi.
  assert (Hci : credentials_list (out_self i) = creds)
    by apply init_driver_same_credentials.
  assert (Hrun : exists s' w' t,
    accounts_run DELAY_BETWEEN_ATTEMPTS (out_self i) (out_world i)
    = mkOut (Ok tt) s' w'
        (t ++ [EvLog INFO (ProcessCompleted (successes outcomes) (length creds))])).
  { unfold accounts_run. erewrite bind_ok by reflexivity.
    rewrite prepend_nil. cbv beta zeta. rewrite Hci.
    destruct (accounts_loop_counts creds 1 (length creds) 0 (out_self i) (out_world i))
      as (s' & w' & t & Hloop).
    erewrite bind_ok by exact Hloop. fold outcomes.
    exists s', w', t. reflexivity. }
  destruct Hrun as (s' & w' & t & Hrun).
  assert (Hdown : logged INFO (trace (teardown s' w')) = []).
  { rewrite teardown_run. destruct (driver s') as [h|]; [|reflexivity].
    now destruct (fst (ext (Quit h) w')) as [[]|]. }
  unfold process_all_accounts.
  erewrite bind_ok by reflexivity. rewrite prepend_nil.
  assert (Hmatch : forall a b : M W unit,
            match credentials_list s with [] => a | _ :: _ => b end = b).
  { intros a b. unfold creds in Hne. now destruct (credentials_list s). }
  rewrite Hmatch.
  erewrite bind_ok by (rewrite <- Hi; symmetry; apply out_eta).
  fold i. rewrite guarded_run. cbv zeta. rewrite Hrun.
  cbn [res out_self out_world trace]. rewrite prepend_out.
  split; [reflexivity|]. split; [apply loop_outcomes_length|].
  cbn [trace]. rewrite !logged_app, Hdown.
  cbn [logged omap list_omap app]. rewrite app_nil_r, app_assoc.
  apply last_snoc.
Qed.

(** X11.  A run changes the object through [self.driver], [self.main_window] and
    [self.session_active] only: the list of pairs it works on and
    [self.current_credentials] are what they were. *)
Theorem process_all_accounts_keeps_credentials (s : Self) (w : W) :
  credentials_list (out_self (process_all_accounts DELAY_BETWEEN_ATTEMPTS s w))
  = credentials_list s
  /\ current_credentials (out_self (process_all_accounts DELAY_BETWEEN_ATTEMPTS s w))
     = current_credentials s.
Proof.
  assert (Hp : forall l p,
    respects (W:=W) untouched (process_account DELAY_BETWEEN_ATTEMPTS l p)).
  { intros l p. apply (process_account_footprint DELAY_BETWEEN_ATTEMPTS untouched);
      [exact untouched_refl | exact untouched_trans | now intros ..]. }
  assert (Hi : respects (W:=W) untouched init_driver).
  { apply (init_driver_footprint untouched);
      [exact untouched_refl | exact untouched_trans | now intros ..]. }
  assert (Hloop : forall creds idx total count,
    respects (W:=W) untouched
      (accounts_loop DELAY_BETWEEN_ATTEMPTS idx total creds count)).
  { induction creds as [|[l p] rest IH]; intros idx total count;
      cbn [accounts_loop].
    - apply respects_ret. exact untouched_refl.
    - apply respects_bind; [exact untouched_trans | | intros; apply IH].
      unfold account_turn, account_pause. cbv beta iota zeta.
      repeat first [apply Hp | untouched_step]. }
  assert (Hdown : respects (W:=W) untouched teardown).
  { unfold teardown, assign_session_active. repeat untouched_step. }
  assert (Hall : respects (W:=W) untouched (process_all_accounts DELAY_BETWEEN_ATTEMPTS)).
  { unfold process_all_accounts, guarded, accounts_run. cbv beta zeta.
    repeat first [exact Hi | exact Hdown | apply Hloop | untouched_step]. }
  exact (Hall s w).
Qed.

(** X12.  The cleanup of [process_all_accounts] raises nothing: with no driver it
    does nothing; otherwise it calls [quit] once, and [session_active]
    becomes [False] only when that call returned. *)
Theorem cleanup_outcomes (s : Self) (w : W) :
  teardown s w
  = match driver s with
    | None => mkOut (Ok tt) s w []
    | Some h =>
        match fst (ext (Quit h) w) with
        | Ok _ => mkOut (Ok tt) (set_session_active false s) (snd (ext (Quit h) w))
                    [EvCall (Quit h) (Ok tt); EvSetActive false]
        | Raise e => mkOut (Ok tt) s (snd (ext (Quit h) w)) [EvCall (Quit h) (Raise e)]
        end
    end.
Proof. apply teardown_run. Qed.

(** X13.  Solving a captcha changes nothing in the object and raises nothing,
    whatever the browser, the network and the OCR service do. *)
Theorem solve_captcha_leaves_object (s : Self) (w : W) :
  out_self (solve_captcha s w) = s
  /\ exists answer, res (solve_captcha s w) = Ok answer.
Proof.
  split.
  - symmetry.
    apply (solve_captcha_footprint (fun s0 s1 _ => s0 = s1)); [easy | | easy].
    intros s1 s2 s3 _ _. congruence.
  - apply never_raises_ok. apply solve_captcha_loop_never_raises.
Qed.

End LoopFacts.

Lemma process_all_accounts_reports_count_witness :
  last (logged INFO (trace (process_all_accounts 6 three_accounts three_lines)))
  = Some (ProcessCompleted 2 3).
Proof.
  destruct (process_all_accounts_reports_count 6 three_accounts three_lines)
    as (_ & _ & Hlast); [vm_compute; discriminate | vm_compute; reflexivity |].
  rewrite Hlast. vm_compute. reflexivity.
Defined.

(** ** Answers of the OCR service that carry no text *)
Section AnswerFacts.
Context {W : Type} `{Oracle W}.

(** X14.  Reading the answer of the OCR service (lines 175-190): an answer
    without the key [IsErroredOnProcessing] raises the [KeyError] of the
    lookup; an answer flagged as errored logs its [ErrorMessage], or
    [Unknown error] when it has none, and goes on to the next retry; an
    answer that is not flagged and has no [ParsedResults], or an empty list
    of them, is passed over without a log line. *)
Theorem parse_ocr_result_without_text retry (items : list (string * pyval))
    (s : Self) (w : W) :
  let result := PDict items in
  (Py.assoc "IsErroredOnProcessing" items = None ->
   exists e,
     exn_class e = KeyError
     /\ parse_ocr_result retry result s w = mkOut (Raise e) s w [])
  /\ (forall flag,
        Py.assoc "IsErroredOnProcessing" items = Some flag ->
        Py.truthy flag = true ->
        parse_ocr_result retry result s w
        = mkOut (Ok Continue) s w
            [EvLog ERROR
               (OcrError (match Py.assoc "ErrorMessage" items with
                          | Some message => message
                          | None => PStr "Unknown error"
                          end))])
  /\ (forall flag,
        Py.assoc "IsErroredOnProcessing" items = Some flag ->
        Py.truthy flag = false ->
        Py.assoc "ParsedResults" items = None
        \/ Py.assoc "ParsedResults" items = Some (PList []) ->
        parse_ocr_result retry result s w = mkOut (Ok Normal) s w []).
Proof.
  cbv zeta. unfold parse_ocr_result. cbn [Py.getitem_str].
  split; [|split].
  - intros ->. eexists. split; [|reflexivity]. reflexivity.
  - intros flag -> Ht. rewrite bind_lift_ok, Ht.
    cbn [Py.get_default]. rewrite bind_lift_ok. reflexivity.
  - intros flag -> Hf Hres. rewrite bind_lift_ok, Hf.
    cbn [Py.contains_str]. rewrite bind_lift_ok.
    destruct Hres as [-> | ->].
    + rewrite bind_ret. reflexivity.
    + reflexivity.
Qed.

(** X15.  Downloading the image (lines 138-143): an HTTP status from 400 to 599
    makes [raise_for_status] raise, the error is logged and the download
    gives nothing; with any other status the response is handed on. *)
Theorem download_captcha_by_status src response (s : Self) (w : W) :
  fst (ext (RequestsGet src 10) w) = Ok response ->
  let w1 := snd (ext (RequestsGet src 10) w) in
  if (400 <=? status_code response) && (status_code response <? 600)
  then exists message,
         download_captcha src s w
         = mkOut (Ok None) s w1
             [EvCall (RequestsGet src 10) (Ok response);
              EvLog ERROR (FailedToDownloadCaptcha message)]
  else download_captcha src s w
       = mkOut (Ok (Some response)) s w1 [EvCall (RequestsGet src 10) (Ok response)].
Proof.
  intros Hget w1. unfold download_captcha, try_except.
  erewrite bind_ok by (apply call_ok; exact Hget). fold w1.
  unfold raise_for_status.
  destruct ((400 <=? status_code response) && (status_code response <? 600)).
  - erewrite bind_raise by reflexivity. eexists. reflexivity.
  - rewrite bind_lift_ok. reflexivity.
Qed.

End AnswerFacts.

Lemma download_captcha_by_status_witness :
  res (download_captcha "https://login.emaktab.uz/captcha.png" Sim.fresh Sim.quiet)
  = Ok (Some (mkResponse 200 "PNG" None)).
Proof.
  pose proof (download_captcha_by_status "https://login.emaktab.uz/captcha.png"
                (mkResponse 200 "PNG" None) Sim.fresh Sim.quiet) as Hd.
  cbv zeta in Hd. cbn [status_code Nat.leb Nat.ltb andb] in Hd.
  rewrite Hd by (vm_compute; reflexivity).
  reflexivity.
Defined.

(** ** Screenshots and dead sessions *)
Section SessionUseFacts.
Context {W : Type} `{Oracle W}.

(** X16.  [take_screenshot] does not look at what [save_screenshot] returns: with
    a live session, once the call has returned, the file is logged as saved
    and the result is [True], also when the driver answered [False]. *)
Theorem take_screenshot_ignores_answer prefix (s : Self) (w : W) h url saved :
  let w1 := snd (ext (CurrentUrl h) w) in
  let clock := Strftime "%Y%m%d_%H%M%S" in
  let filename :=
    SCREENSHOT_DIR ++ "/" ++ prefix ++ "_" ++ fst (env clock w1) ++ ".png" in
  let shot := ext (SaveScreenshot h filename) (snd (env clock w1)) in
  session_active s = true -> driver s = Some h ->
  fst (ext (CurrentUrl h) w) = Ok url ->
  fst shot = Ok saved ->
  take_screenshot prefix s w
  = mkOut (Ok true) s (snd shot)
      [EvCall (CurrentUrl h) (Ok url);
       EvQuery clock (fst (env clock w1));
       EvCall (SaveScreenshot h filename) (Ok saved);
       EvLog INFO (ScreenshotSaved filename)].
Proof.
  intros w1 clock filename shot Ha Hd Hurl Hshot.
  unfold take_screenshot.
  assert (Hprobe : check_session_active s w
                   = mkOut (Ok true) s w1 [EvCall (CurrentUrl h) (Ok url)]).
  { rewrite (check_session_active_probe s w h Ha Hd), Hurl. reflexivity. }
  rewrite try_except_ok with (a := true).
  all: erewrite bind_ok by exact Hprobe; cbn [negb].
  all: erewrite bind_ok by apply query_run; cbv beta zeta.
  all: rewrite (bind_the_driver _ _ _ _ Hd).
  all: fold clock; fold filename.
  all: erewrite bind_ok by (apply call_ok; exact Hshot); cbv beta.
  all: rewrite bind_log; reflexivity.
Qed.

Lemma try_except_trace_prefix {A} (body : M W A) catches handler (s : Self) (w : W) :
  exists t, trace (try_except body catches handler s w) = (trace (body s w) ++ t)%list.
Proof.
  unfold try_except. destruct (res (body s w)) as [a|e].
  - exists []. now rewrite app_nil_r.
  - destruct (catches e).
    + eexists. reflexivity.
    + exists []. now rewrite app_nil_r.
Qed.

(** X17.  A login attempt that finds the session marked dead replaces the driver
    before anything else: a warning, then [init_driver].  When no browser
    can be started the attempt ends there: the exception is logged and the
    result is [False]. *)
Theorem attempt_login_replaces_dead_session login password (s : Self) (w : W) :
  let i := init_driver s w in
  session_active s = false ->
  (exists t,
      trace (attempt_login login password s w)
      = ([EvLog WARNING SessionExpiredReinit] ++ trace i ++ t)%list)
  /\ (forall e,
        res i = Raise e ->
        attempt_login login password s w
        = prepend ([EvLog WARNING SessionExpiredReinit] ++ trace i)
            (attempt_login_handler e (out_self i) (out_world i))).
Proof.
  intros i Hdead.
  assert (Hsub : forall B (k : unit -> M W B),
    bind check_session_active
      (fun alive : bool =>
         bind (if negb alive
               then bind (log WARNING SessionExpiredReinit) (fun _ => init_driver)
               else ret tt) k) s w
    = bind (bind (log WARNING SessionExpiredReinit) (fun _ => init_driver)) k s w).
  { intros B k.
    erewrite bind_ok by (apply check_session_active_dead; exact Hdead).
    now rewrite prepend_nil. }
  split.
  - unfold attempt_login.
    destruct (try_except_trace_prefix (attempt_login_body login password) is_Exception
                attempt_login_handler s w) as [t1 ->].
    unfold attempt_login_body.
    match goal with
    | |- context [trace (bind ?m ?k s w)] =>
        destruct (bind_trace_prefix m k s w) as [t2 ->]
    end.
    unfold login_submit. rewrite Hsub.
    match goal with
    | |- context [trace (bind ?m ?k s w)] =>
        destruct (bind_trace_prefix m k s w) as [t3 ->]
    end.
    rewrite bind_log. unfold prepend. cbn [trace]. fold i.
    rewrite <- !app_assoc. eexists. reflexivity.
  - intros e He.
    assert (Hbody : attempt_login_body login password s w
                    = mkOut (Raise e) (out_self i) (out_world i)
                        ([EvLog WARNING SessionExpiredReinit] ++ trace i)).
    { unfold attempt_login_body, login_submit.
      erewrite bind_raise; [reflexivity|].
      rewrite Hsub.
      erewrite bind_raise; [reflexivity|].
      rewrite bind_log. fold i. unfold prepend. now rewrite He. }
    unfold attempt_login.
    erewrite try_except_caught; [| rewrite Hbody; reflexivity | reflexivity].
    now rewrite Hbody.
Qed.

End SessionUseFacts.

Lemma take_screenshot_ignores_answer_witness :
  res (take_screenshot "u_dashboard" in_session (at_captcha [])) = Ok true.
Proof.
  rewrite (take_screenshot_ignores_answer "u_dashboard" in_session (at_captcha []) 1
             Sim.LOGIN_URL true)
    by (vm_compute; reflexivity).
  reflexivity.
Defined.

Lemma attempt_login_replaces_dead_session_witness :
  res (attempt_login "u" "p" Sim.fresh no_browser) = Ok false
  /\ logged ERROR (trace (attempt_login "u" "p" Sim.fresh no_browser))
     = [LoginAttemptFailed ("Message: session not created" ++ NL)].
Proof.
  destruct (attempt_login_replaces_dead_session "u" "p" Sim.fresh no_browser eq_refl)
    as [_ Hfail].
  rewrite (Hfail (mkExn WebDriverException ("Message: session not created" ++ NL)))
    by (vm_compute; reflexivity).
  split; vm_compute; reflexivity.
Defined.
